(** * Inside Airbnb NYC rental analysis: a shallow embedding

    The package [inside_airbnb] is a linear pipeline over pandas tables:
    [data_loading] reads the monthly CSV snapshots, [preprocessing] cleans
    the price column, numbers the months and drops outliers, [analysis]
    aggregates prices and [visualization] renders charts.

    The development follows the four modules.  pandas objects are modelled
    by their observable content:
    - a [DataFrame] is the ordered list of its column names together with
      its rows; a row maps column names to cells;
    - a cell is a Python [str], an [int] or a [float]; a numeric column has
      one dtype, so integers turn into floats as soon as the column holds
      a NaN;
    - a float is kept as the decimal literal that denotes it, which is
      what [str] prints and [pd.to_numeric] reads; its value, and every
      result of arithmetic, is an exact rational or one of NaN, +inf and
      -inf (rounding is not modelled);
    - functions that can raise return a [result]; the preprocessing
      functions, which copy tables and assign into the copies, run over an
      explicit store of table objects, so that the caller's table and the
      returned one are different objects;
    - console output is left out, except that an expression evaluated for
      printing can raise; a plotting function returns the commands it
      sends to the plotting library.

    The first part gives the definitions, module by module, each followed
    by the vocabulary in which its contract is stated and by sample
    inputs; the second part proves the properties. *)

From Stdlib Require Import ZArith QArith List String Ascii Lia Permutation Sorted.
From Stdlib Require Import DecimalString DecimalZ DecimalN DecimalPos DecimalFacts OrderedTypeEx.
From stdpp Require Import base option list strings gmap.
Import ListNotations.

Open Scope string_scope.
#[local] Arguments String.append : simpl nomatch.

(** ** Exceptions and results *)

Inductive exn : Type :=
| FileNotFoundError
| KeyError
| TypeError
| ValueError
| IndexError
| ZeroDivisionError
| ParserError
| ReferenceError.

Inductive result (A : Type) : Type :=
| Ok (a : A)
| Raise (e : exn).
Arguments Ok {A} a.
Arguments Raise {A} e.

#[global] Instance result_ret : MRet result := @Ok.
#[global] Instance result_bind : MBind result := fun A B f m =>
  match m with
  | Ok a => f a
  | Raise e => Raise e
  end.
#[global] Instance result_fmap : FMap result := fun A B f m =>
  match m with
  | Ok a => Ok (f a)
  | Raise e => Raise e
  end.

(** [for x in xs: ys.append(body x)], stopping at the first exception. *)
Fixpoint for_each {A B : Type} (body : A -> result B) (xs : list A) : result (list B) :=
  match xs with
  | [] => Ok []
  | x :: xs' =>
      match body x with
      | Ok y =>
          match for_each body xs' with
          | Ok ys => Ok (y :: ys)
          | Raise e => Raise e
          end
      | Raise e => Raise e
      end
  end.

(** ** Python strings *)

(** [s.rfind(c)] for a one-character [c]: index of the last occurrence. *)
Fixpoint str_rfind (c : ascii) (s : string) : option nat :=
  match s with
  | "" => None
  | String a s' =>
      match str_rfind c s' with
      | Some i => Some (S i)
      | None => if Ascii.eqb a c then Some 0 else None
      end
  end.

(** [s.split(sep)] for a one-character separator. *)
Fixpoint str_split (sep : ascii) (s : string) : list string :=
  match s with
  | "" => [""]
  | String a s' =>
      if Ascii.eqb a sep then "" :: str_split sep s'
      else match str_split sep s' with
           | h :: t => String a h :: t
           | [] => [String a ""]
           end
  end.

(** [xs[i]] on a list. *)
Definition list_index {A : Type} (xs : list A) (i : nat) : result A :=
  match nth_error xs i with
  | Some x => Ok x
  | None => Raise IndexError
  end.

(** [s.replace(old, new)] for a one-character [old], as in
    [.str.replace('$', '', regex=False)]. *)
Fixpoint str_replace (old : ascii) (new : string) (s : string) : string :=
  match s with
  | "" => ""
  | String a s' =>
      if Ascii.eqb a old then new ++ str_replace old new s'
      else String a (str_replace old new s')
  end.

(** Membership of a character in a string. *)
Fixpoint str_contains (c : ascii) (s : string) : bool :=
  match s with
  | "" => false
  | String a s' => Ascii.eqb a c || str_contains c s'
  end.

(** [fnmatch] restricted to the two kinds of pattern characters that
    [f"listings_*_{year}.csv"] contains: the wildcard [*] and literal
    characters. *)
Fixpoint fnmatch (pat : string) : string -> bool :=
  match pat with
  | "" => fun s => match s with "" => true | _ => false end
  | String p pat' =>
      if Ascii.eqb p "*" then
        fix star (s : string) : bool :=
          fnmatch pat' s ||
          match s with
          | "" => false
          | String _ s' => star s'
          end
      else
        fun s =>
          match s with
          | "" => false
          | String a s' => Ascii.eqb p a && fnmatch pat' s'
          end
  end.

Definition star_free (s : string) : Prop := str_contains "*" s = false.

(** [str(n)] for an [int]. *)
Definition str_int (z : Z) : string := NilZero.string_of_int (Z.to_int z).

(** [PurePath.stem]: the final component without its last suffix. *)
Definition path_stem (name : string) : string :=
  match str_rfind "." name with
  | Some i =>
      if (0 <? i)%nat && (i <? String.length name - 1)%nat
      then substring 0 i name
      else name
  | None => name
  end.


(** ** Numbers

    A [float64] cell is kept as the decimal literal that denotes it: a
    finite float is a sign, an integer part and the fractional digits
    (every binary float has a finite decimal expansion).  The fractional
    digits are stored read backwards as a number, which makes the
    representation canonical: [0.05] is [FFin false 0 50] and [100.0] is
    [FFin false 100 0].  The sign is kept apart, so [-0.0] and [0.0] are
    different floats of equal value, as in IEEE 754. *)

Inductive float64 : Type :=
| FNaN
| FInf (neg : bool)
| FFin (neg : bool) (ipart : N) (frev : N).

(** The value of a float and the results of arithmetic live in the
    rationals extended by the IEEE special values; arithmetic is exact
    (rounding is not modelled). *)
Inductive xQ : Type :=
| XNaN
| XInf (neg : bool)
| XFin (q : Q).

(** The fractional digits of a finite float, in reading order. *)
Definition frac_uint (frev : N) : Decimal.uint := Decimal.rev (N.to_uint frev).

Definition frac_value (frev : N) : Q :=
  Z.of_N (N.of_uint (frac_uint frev)) # Pos.of_nat (10 ^ Decimal.nb_digits (frac_uint frev)).

Definition float_value (x : float64) : xQ :=
  match x with
  | FNaN => XNaN
  | FInf s => XInf s
  | FFin s i f =>
      let m := Qred (inject_Z (Z.of_N i) + frac_value f) in
      XFin (if s then Qred (- m) else m)
  end.

(** [x < y] on floats: every comparison with NaN is false. *)
Definition xlt (x y : xQ) : bool :=
  match x, y with
  | XNaN, _ | _, XNaN => false
  | XInf true, XInf true => false
  | XInf true, _ => true
  | _, XInf true => false
  | XInf false, _ => false
  | _, XInf false => true
  | XFin p, XFin q => match Qcompare p q with Lt => true | _ => false end
  end.

Definition xnan (x : xQ) : bool :=
  match x with XNaN => true | _ => false end.

Definition is_digit (c : ascii) : bool :=
  match NilEmpty.uint_of_string (String c "") with
  | Some _ => true
  | None => false
  end.

Definition str_N (n : N) : string := NilZero.string_of_uint (N.to_uint n).

(** [str(x)] for a float, in positional notation at every magnitude
    (Python switches to exponent notation below 1e-4 and from 1e16 on). *)
Definition str_float (x : float64) : string :=
  match x with
  | FNaN => "nan"
  | FInf false => "inf"
  | FInf true => "-inf"
  | FFin s i f =>
      (if s then "-" else "") ++ str_N i ++ "." ++ NilZero.string_of_uint (frac_uint f)
  end.

(** Reading a number: an optional sign, then digits.  The literals
    covered are the plain decimal ones and [nan] and [inf]; exponent
    notation and surrounding blanks are left out and read as no number. *)
Definition split_sign (s : string) : bool * string :=
  match s with
  | String "-" s' => (true, s')
  | String "+" s' => (false, s')
  | _ => (false, s)
  end.

(** The text before the first dot and, when there is one, the text after it. *)
Fixpoint split_dot (s : string) : string * option string :=
  match s with
  | "" => ("", None)
  | String a s' =>
      if Ascii.eqb a "." then ("", Some s')
      else let '(i, f) := split_dot s' in (String a i, f)
  end.

Definition int_of_string (s : string) : option Z :=
  let '(neg, body) := split_sign s in
  match body, NilEmpty.uint_of_string body with
  | String _ _, Some d => Some (if neg then (- Z.of_N (N.of_uint d))%Z else Z.of_N (N.of_uint d))
  | _, _ => None
  end.

Definition float_of_string (s : string) : option float64 :=
  let '(neg, body) := split_sign s in
  if String.eqb body "nan" then Some FNaN
  else if String.eqb body "inf" then Some (FInf neg)
  else
    let '(ip, fp) := split_dot body in
    match NilEmpty.uint_of_string ip, fp with
    | Some di, None =>
        match ip with
        | "" => None
        | _ => Some (FFin neg (N.of_uint di) 0)
        end
    | Some di, Some fs =>
        match NilEmpty.uint_of_string fs with
        | Some df =>
            match ip, fs with
            | "", "" => None
            | _, _ => Some (FFin neg (N.of_uint di) (N.of_uint (Decimal.rev df)))
            end
        | None => None
        end
    | None, _ => None
    end.

Definition float_of_int (z : Z) : float64 :=
  FFin (Z.ltb z 0) (Z.abs_N z) 0.

(** ** Cells, series and tables *)

Inductive cell : Type :=
| CStr (s : string)
| CInt (z : Z)
| CFloat (x : float64).

Definition NaN : cell := CFloat FNaN.

Abbreviation Series := (list cell) (only parsing).

Record DataFrame : Type := mkDataFrame {
  columns : list string;
  rows : list (gmap string cell)
}.

Definition has_column (c : string) (cols : list string) : bool :=
  existsb (String.eqb c) cols.

(** A cell that a row does not carry reads as NaN, as after [pd.concat]
    of tables with different columns. *)
Definition row_get (c : string) (r : gmap string cell) : cell :=
  default NaN (r !! c).

(** [len(df)] *)
Definition df_len (df : DataFrame) : nat := length (rows df).

(** [df[c]] *)
Definition getitem (df : DataFrame) (c : string) : result Series :=
  if has_column c (columns df) then Ok (map (row_get c) (rows df))
  else Raise KeyError.

Definition add_column (c : string) (cols : list string) : list string :=
  if has_column c cols then cols else cols ++ [c].

(** [df[c] = s] for a series [s] over the table's own index. *)
Definition setitem (df : DataFrame) (c : string) (s : Series) : result DataFrame :=
  if Nat.eqb (length s) (df_len df) then
    Ok {| columns := add_column c (columns df);
          rows := zip_with (fun r v => <[c := v]> r) (rows df) s |}
  else Raise ValueError.

(** [df[c] = v] for a scalar [v]. *)
Definition setitem_scalar (df : DataFrame) (c : string) (v : cell) : DataFrame :=
  {| columns := add_column c (columns df);
     rows := map (fun r => <[c := v]> r) (rows df) |}.

Fixpoint select {A : Type} (mask : list bool) (xs : list A) : list A :=
  match mask, xs with
  | b :: mask', x :: xs' => if b then x :: select mask' xs' else select mask' xs'
  | _, _ => []
  end.

(** [df[mask]] for a boolean series over the table's own index. *)
Definition getitem_mask (df : DataFrame) (mask : list bool) : result DataFrame :=
  if Nat.eqb (length mask) (df_len df) then
    Ok {| columns := columns df; rows := select mask (rows df) |}
  else Raise ValueError.

Definition union_columns (acc cols : list string) : list string :=
  fold_left (fun a c => add_column c a) cols acc.

(** [pd.concat(dfs, ignore_index=True)]: the columns in order of first
    appearance, the rows of each table in turn. *)
Definition pd_concat (dfs : list DataFrame) : result DataFrame :=
  match dfs with
  | [] => Raise ValueError
  | _ => Ok {| columns := fold_left union_columns (map columns dfs) [];
               rows := List.concat (map rows dfs) |}
  end.

(** ** data_loading *)

(** What [pd.read_csv] makes of an entry of the folder: a table; an error
    about the content or the kind of the entry (a parse error, an empty
    file, a directory), for which [ParserError] stands; or nothing to open
    (a dangling link, a file removed since the folder was listed), on which
    it raises [FileNotFoundError], the class of the loader's own
    missing-input error. *)
Inductive csv_file : Type :=
| Csv (df : DataFrame)
| Malformed
| Missing.

(** A path in the data folder: its final component and the file behind it. *)
Record Path : Type := mkPath {
  name : string;
  content : csv_file
}.

Definition read_csv (f : Path) : result DataFrame :=
  match content f with
  | Csv df => Ok df
  | Malformed => Raise ParserError
  | Missing => Raise FileNotFoundError
  end.

(** [data_folder.glob(pattern)] *)
Definition glob (data_folder : list Path) (pattern : string) : list Path :=
  filter (fun f => fnmatch pattern (name f) = true) data_folder.

(** [sorted(paths)]: paths of one folder compare by their final component. *)
Fixpoint insort (f : Path) (fs : list Path) : list Path :=
  match fs with
  | [] => [f]
  | g :: fs' =>
      if String.leb (name f) (name g) then f :: fs else g :: insort f fs'
  end.

Definition sorted (fs : list Path) : list Path := fold_right insort [] fs.

Definition listing_pattern (year : Z) : string :=
  "listings_*_" ++ str_int year ++ ".csv".

Definition load_file (f : Path) : result DataFrame :=
  month_str ← list_index (str_split "_" (path_stem (name f))) 1;
  df ← read_csv f;
  Ok (setitem_scalar df "month" (CStr month_str)).

Definition load_monthly_listings (data_folder : list Path) (year : Z) : result DataFrame :=
  let files := sorted (glob data_folder (listing_pattern year)) in
  match files with
  | [] => Raise FileNotFoundError
  | _ =>
      dfs ← for_each load_file files;
      pd_concat dfs
  end.

(** *** Vocabulary for the loader's contract *)

(** The file names that the pattern for [year] is meant to cover. *)
Definition listing_name (year : Z) (mid : string) : string :=
  "listings_" ++ mid ++ "_" ++ str_int year ++ ".csv".

(** The text before the first separator (the whole text if there is none)
    and the text after it. *)
Fixpoint str_before (sep : ascii) (s : string) : string :=
  match s with
  | "" => ""
  | String a s' => if Ascii.eqb a sep then "" else String a (str_before sep s')
  end.

Fixpoint str_after (sep : ascii) (s : string) : string :=
  match s with
  | "" => ""
  | String a s' => if Ascii.eqb a sep then s' else str_after sep s'
  end.

(** The month tag of a listing file: the text between the first and the
    second underscore of its name. *)
Definition month_token (file_name : string) : string :=
  str_before "_" (str_after "_" file_name).

Definition name_le (f g : Path) : Prop := String.leb (name f) (name g) = true.

Definition is_listing (year : Z) (f : Path) : Prop :=
  exists mid, name f = listing_name year mid.

(** The rows a file contributes, each tagged with the file's month. *)
Definition csv_rows (f : Path) : list (gmap string cell) :=
  match content f with
  | Csv df => rows df
  | Malformed | Missing => []
  end.

Definition tagged_rows (f : Path) : list (gmap string cell) :=
  map (fun r => <["month" := CStr (month_token (name f))]> r) (csv_rows f).

(** What one listing file turns into inside the loop. *)
Definition tagged_frame (f : Path) : DataFrame :=
  match content f with
  | Csv df => setitem_scalar df "month" (CStr (month_token (name f)))
  | Malformed | Missing => {| columns := []; rows := [] |}
  end.

Definition has_schema (cols : list string) (f : Path) : Prop :=
  exists df, content f = Csv df /\ columns df = cols.

(** [files] in the loader: the files of the year in the order of their
    names. *)
Definition listing_files (data_folder : list Path) (year : Z) : list Path :=
  sorted (glob data_folder (listing_pattern year)).

Definition readable (f : Path) : Prop := exists df, content f = Csv df.

(** The file at which the loop over [files] stops: the first one that
    [pd.read_csv] cannot read. *)
Definition first_unreadable (files : list Path) (f : Path) : Prop :=
  exists before after,
    files = (before ++ f :: after)%list /\ Forall readable before /\ ~ readable f.


(** *** Sample folders *)

Definition row_of (kvs : list (string * cell)) : gmap string cell := list_to_map kvs.

Definition april_2025 : DataFrame :=
  {| columns := ["id"; "price"];
     rows := [row_of [("id", CInt 1); ("price", CStr "$100.00")];
              row_of [("id", CInt 2); ("price", CStr "$2,500.00")]] |}.

Definition may_2025 : DataFrame :=
  {| columns := ["id"; "price"];
     rows := [row_of [("id", CInt 1); ("price", CStr "$120.00")]] |}.

Definition sample_folder : list Path :=
  [ mkPath "listings_May_2025.csv" (Csv may_2025);
    mkPath "README.md" Malformed;
    mkPath "listings_April_2025.csv" (Csv april_2025);
    mkPath "listings_April_2024.csv" (Csv april_2025) ].


(** A snapshot whose CSV already carries a column called [month]. *)
Definition june_with_month : DataFrame :=
  {| columns := ["price"; "month"];
     rows := [row_of [("price", CStr "$80.00"); ("month", CStr "6")]] |}.

Definition folder_with_month : list Path :=
  [ mkPath "listings_June_2025.csv" (Csv june_with_month) ].

(** The loader's column contract as the specification words it: the
    loaded table has exactly one column beyond the source schema. *)
Definition one_added_column (src full : list string) : Prop :=
  exists c, (c ∉ src) /\ full ≡ₚ c :: src.

(** ** Series operations *)

(** [str(x)] for the value in a cell. *)
Definition cell_str (c : cell) : string :=
  match c with
  | CStr s => s
  | CInt z => str_int z
  | CFloat x => str_float x
  end.

(** [s.astype(str)] *)
Definition astype_str (s : Series) : Series := map (fun c => CStr (cell_str c)) s.

(** [s.str.replace(old, new, regex=False)]: elements that are not strings
    become NaN. *)
Definition series_str_replace (old : ascii) (new : string) (s : Series) : Series :=
  map (fun c => match c with
                | CStr t => CStr (str_replace old new t)
                | _ => NaN
                end) s.

(** [pd.to_numeric] with [errors='coerce'] reads each text with pandas'
    own reader of numbers.  Which texts the reader takes for a number
    (exponents, surrounding blanks, [Infinity]), which dtype it gives them
    and how it rounds a decimal to a float is not written in this program:
    the reader is a parameter of the cleaning step, and a property that
    depends on it says what it takes from it. *)
Class NumericReader : Type := read_number : string -> cell.

(** The reader of plain decimal literals: an integer literal gives an
    int, a float literal the float it denotes, anything else NaN.  On
    these literals it is what [str] and [pd.to_numeric] agree on, and it
    is the reader of the examples. *)
Definition to_numeric_str (s : string) : cell :=
  match int_of_string s with
  | Some z => CInt z
  | None =>
      match float_of_string s with
      | Some x => CFloat x
      | None => NaN
      end
  end.

#[global] Instance plain_reader : NumericReader := to_numeric_str.

Definition is_int (c : cell) : bool :=
  match c with CInt _ => true | _ => false end.

Definition is_float (c : cell) : bool :=
  match c with CFloat _ => true | _ => false end.

Definition is_str (c : cell) : bool :=
  match c with CStr _ => true | _ => false end.

Definition to_float_cell (c : cell) : cell :=
  match c with
  | CInt z => CFloat (float_of_int z)
  | CFloat x => CFloat x
  | CStr _ => NaN
  end.

(** A numeric column has one dtype: [int64] when every element is an
    integer, [float64] (with the integers converted) otherwise. *)
Definition unify_numeric (s : Series) : Series :=
  if forallb is_int s then s else map to_float_cell s.

(** [pd.to_numeric(s, errors='coerce')] *)
Definition to_numeric_coerce `{NumericReader} (s : Series) : Series :=
  unify_numeric (map (fun c => match c with
                               | CStr t => read_number t
                               | _ => c
                               end) s).

(** [s.map(d)] for a dict [d] with integer values: elements that are not
    keys of [d] become NaN. *)
Definition series_map (d : gmap string Z) (s : Series) : Series :=
  unify_numeric (map (fun c => match c with
                               | CStr k =>
                                   match d !! k with
                                   | Some n => CInt n
                                   | None => NaN
                                   end
                               | _ => NaN
                               end) s).

(** The numeric value of a cell; a string has none, and an integer is
    converted to a float before it is compared with one. *)
Definition cell_value (c : cell) : option xQ :=
  match c with
  | CStr _ => None
  | CInt z => Some (float_value (float_of_int z))
  | CFloat x => Some (float_value x)
  end.

(** [s < x] for a float [x]: comparing a string with a number raises. *)
Definition cell_lt (x : float64) (c : cell) : result bool :=
  match cell_value c with
  | Some v => Ok (xlt v (float_value x))
  | None => Raise TypeError
  end.

Definition series_lt (s : Series) (x : float64) : result (list bool) :=
  for_each (cell_lt x) s.

(** [s > x] for a float [x]. *)
Definition cell_gt (x : float64) (c : cell) : result bool :=
  match cell_value c with
  | Some v => Ok (xlt (float_value x) v)
  | None => Raise TypeError
  end.

Definition series_gt (s : Series) (x : float64) : result (list bool) :=
  for_each (cell_gt x) s.

(** [a / b] on Python ints. *)
Definition int_truediv (a b : nat) : result Q :=
  match b with
  | O => Raise ZeroDivisionError
  | S _ => Ok (Z.of_nat a # Pos.of_nat b)
  end.

(** ** Table objects

    Tables are mutable objects.  The store maps addresses to tables; a
    computation threads the store and may raise, in which case the store
    keeps whatever was written before. *)

Abbreviation loc := nat (only parsing).
Abbreviation heap := (list DataFrame) (only parsing).
Definition M (A : Type) : Type := heap -> result A * heap.

#[global] Instance M_ret : MRet M := fun A a h => (Ok a, h).
#[global] Instance M_bind : MBind M := fun A B f m h =>
  match m h with
  | (Ok a, h') => f a h'
  | (Raise e, h') => (Raise e, h')
  end.

(** An expression that may raise, evaluated without touching the store. *)
Definition lift {A : Type} (r : result A) : M A := fun h => (r, h).

Definition deref (l : loc) : M DataFrame := fun h =>
  match h !! l with
  | Some df => (Ok df, h)
  | None => (Raise ReferenceError, h)
  end.

Definition alloc (df : DataFrame) : M loc := fun h => (Ok (length h), (h ++ [df])%list).

Definition store (l : loc) (df : DataFrame) : M unit := fun h => (Ok tt, <[l := df]> h).

(** [df.copy()] *)
Definition df_copy (l : loc) : M loc := df ← deref l; alloc df.

(** [df[c]] *)
Definition df_getitem (l : loc) (c : string) : M Series := df ← deref l; lift (getitem df c).

(** [df[c] = s] *)
Definition df_setitem (l : loc) (c : string) (s : Series) : M unit :=
  df ← deref l; df' ← lift (setitem df c s); store l df'.

(** [df[mask]] *)
Definition df_getitem_mask (l : loc) (mask : list bool) : M loc :=
  df ← deref l; df' ← lift (getitem_mask df mask); alloc df'.

(** [len(df)] *)
Definition py_len (l : loc) : M nat := df ← deref l; mret (df_len df).

(** ** preprocessing *)

Definition MONTH_MAPPING : gmap string Z :=
  list_to_map
    [("January", 1%Z); ("February", 2%Z); ("March", 3%Z); ("April", 4%Z);
     ("May", 5%Z); ("June", 6%Z); ("July", 7%Z); ("August", 8%Z);
     ("September", 9%Z); ("October", 10%Z); ("November", 11%Z); ("December", 12%Z)].

Definition clean_price_column `{NumericReader} (df : loc) (price_col : string) : M loc :=
  df ← df_copy df;
  s ← df_getitem df price_col;
  df_setitem df price_col
    (series_str_replace "," "" (series_str_replace "$" "" (astype_str s)));;
  s ← df_getitem df price_col;
  df_setitem df price_col (to_numeric_coerce s);;
  mret df.

Definition add_month_number (df : loc) (month_col month_num_col : string) : M loc :=
  df ← df_copy df;
  s ← df_getitem df month_col;
  df_setitem df month_num_col (series_map MONTH_MAPPING s);;
  mret df.

(** The two report lines of [filter_price_outliers]; the second formats
    [filtered_count/original_count*100]. *)
Definition print_filter_report (original_count filtered_count : nat) : M unit :=
  _ ← lift (int_truediv filtered_count original_count);
  mret tt.

Definition filter_price_outliers (df : loc) (max_price : float64) (price_col : string)
    (verbose : bool) : M loc :=
  original_count ← py_len df;
  s ← df_getitem df price_col;
  mask ← lift (series_lt s max_price);
  selected ← df_getitem_mask df mask;
  df_filtered ← df_copy selected;
  filtered_count ← py_len df_filtered;
  (if verbose then print_filter_report original_count filtered_count else mret tt);;
  mret df_filtered.

Definition preprocess_data `{NumericReader} (df : loc) (max_price : float64) (verbose : bool)
    : M loc :=
  df ← clean_price_column df "price";
  df ← add_month_number df "month" "month_num";
  df ← filter_price_outliers df max_price "price" verbose;
  mret df.

(** *** Vocabulary for the preprocessing contract *)

(** The table after [df[c] = s]. *)
Definition set_column (df : DataFrame) (c : string) (s : Series) : DataFrame :=
  {| columns := add_column c (columns df);
     rows := zip_with (fun r v => <[c := v]> r) (rows df) s |}.

(** One price, cleaned on its own: printed, stripped of the currency sign
    and of the thousands separators, and read as a number. *)
Definition clean_price `{NumericReader} (c : cell) : cell :=
  read_number (str_replace "," "" (str_replace "$" "" (cell_str c))).

(** The price column after cleaning. *)
Definition cleaned_prices `{NumericReader} (s : Series) : Series :=
  unify_numeric (map clean_price s).

(** A column of one numeric dtype. *)
Definition numeric_series (s : Series) : Prop :=
  forallb is_int s = true \/ forallb is_float s = true.

Definition below (max_price : float64) (c : cell) : bool :=
  match cell_value c with
  | Some v => xlt v (float_value max_price)
  | None => false
  end.

Definition above (max_price : float64) (c : cell) : bool :=
  match cell_value c with
  | Some v => xlt (float_value max_price) v
  | None => false
  end.

(** The table that [df[mask].copy()] holds. *)
Definition selected (df : DataFrame) (mask : list bool) : DataFrame :=
  {| columns := columns df; rows := select mask (rows df) |}.

Definition price_of (r : gmap string cell) : cell := row_get "price" r.

(** The row-count contract of the pipeline as the specification words it:
    no more rows than the input, and as many exactly when no price exceeds
    the ceiling. *)
Definition row_count_claim `{NumericReader} (max_price : float64) (df out : DataFrame) : Prop :=
  (df_len out <= df_len df)%nat /\
  (df_len out = df_len df <->
   Forall (fun r => above max_price (clean_price (price_of r)) = false) (rows df)).

(** What a step may do to the store: tables are only added after the
    existing ones, and a returned table is one of the added ones. *)
Definition fresh_result (h : heap) (r : result loc * heap) : Prop :=
  (exists k, r.2 = (h ++ k)%list) /\
  (forall l', r.1 = Ok l' -> (length h <= l' < length r.2)%nat).

(** The default ceiling, [5000.0]. *)
Definition default_max_price : float64 := FFin false 5000 0.

(** *** Sample tables *)

Definition raw_listings : DataFrame :=
  {| columns := ["price"; "month"];
     rows := [row_of [("price", CStr "$100"); ("month", CStr "May")];
              row_of [("price", CStr "$2,500"); ("month", CStr "June")];
              row_of [("price", CStr "$6,000"); ("month", CStr "June")];
              row_of [("price", CStr "on request"); ("month", CStr "May")]] |}.

Definition at_ceiling : DataFrame :=
  {| columns := ["price"; "month"];
     rows := [row_of [("price", CStr "$5,000.00"); ("month", CStr "May")]] |}.

Definition no_listings : DataFrame :=
  {| columns := ["price"; "month"]; rows := [] |}.

Definition numeric_listings : DataFrame :=
  {| columns := ["price"; "month"];
     rows := [row_of [("price", CFloat (FFin false 100 0)); ("month", CStr "May")];
              row_of [("price", CFloat FNaN); ("month", CStr "May")];
              row_of [("price", CFloat (FFin false 2500 5)); ("month", CStr "June")]] |}.

(** Price texts with a currency sign and a thousands separator. *)
Definition printed_prices : DataFrame :=
  {| columns := ["price"; "month"];
     rows := [row_of [("price", CStr "$1,234.5"); ("month", CStr "May")];
              row_of [("price", CStr "$80.0"); ("month", CStr "June")]] |}.

(** ** Arithmetic on extended rationals

    Sums, differences, products and quotients of float values, exact on
    finite operands and with the IEEE results on NaN, on infinities and on
    division by zero (zero carries no sign here). *)

Definition xneg (x : xQ) : xQ :=
  match x with
  | XNaN => XNaN
  | XInf s => XInf (negb s)
  | XFin q => XFin (Qred (- q))
  end.

Definition xadd (x y : xQ) : xQ :=
  match x, y with
  | XNaN, _ | _, XNaN => XNaN
  | XInf a, XInf b => if Bool.eqb a b then XInf a else XNaN
  | XInf a, XFin _ => XInf a
  | XFin _, XInf b => XInf b
  | XFin p, XFin q => XFin (Qred (p + q))
  end.

Definition xsub (x y : xQ) : xQ := xadd x (xneg y).

Definition Qneg_b (q : Q) : bool :=
  match Qcompare q 0 with Lt => true | _ => false end.

Definition Qzero_b (q : Q) : bool :=
  match Qcompare q 0 with Eq => true | _ => false end.

Definition xmul (x y : xQ) : xQ :=
  match x, y with
  | XNaN, _ | _, XNaN => XNaN
  | XInf a, XInf b => XInf (xorb a b)
  | XInf a, XFin q | XFin q, XInf a =>
      if Qzero_b q then XNaN else XInf (xorb a (Qneg_b q))
  | XFin p, XFin q => XFin (Qred (p * q))
  end.

Definition xdiv (x y : xQ) : xQ :=
  match x, y with
  | XNaN, _ | _, XNaN => XNaN
  | XInf _, XInf _ => XNaN
  | XInf a, XFin q => XInf (xorb a (Qneg_b q))
  | XFin _, XInf _ => XFin 0
  | XFin p, XFin q =>
      if Qzero_b q then (if Qzero_b p then XNaN else XInf (Qneg_b p))
      else XFin (Qred (p / q))
  end.

(** The order used for sorting, where NaN never takes part. *)
Definition xle (x y : xQ) : bool := negb (xlt y x).

Definition xsum (xs : list xQ) : xQ := fold_left xadd xs (XFin 0).

Definition x_of_nat (n : nat) : xQ := XFin (inject_Z (Z.of_nat n)).

(** The square root of an extended rational, kept symbolic. *)
Inductive xroot : Type := Sqrt (radicand : xQ).

(** ** Reductions of a numeric series (NaN is skipped) *)

(** The values of a numeric series; a series with a string in it has no
    numeric reduction. *)
Definition numeric_values (s : Series) : result (list xQ) :=
  for_each (fun c => match cell_value c with
                     | Some v => Ok v
                     | None => Raise TypeError
                     end) s.

Definition dropna (xs : list xQ) : list xQ := List.filter (fun x => negb (xnan x)) xs.

Definition values_count (xs : list xQ) : nat := length (dropna xs).

Definition values_mean (xs : list xQ) : xQ :=
  match dropna xs with
  | [] => XNaN
  | ys => xdiv (xsum ys) (x_of_nat (length ys))
  end.

Fixpoint insert_value (x : xQ) (xs : list xQ) : list xQ :=
  match xs with
  | [] => [x]
  | y :: xs' => if xle x y then x :: xs else y :: insert_value x xs'
  end.

Definition sort_values_asc (xs : list xQ) : list xQ := fold_right insert_value [] xs.

Definition values_median (xs : list xQ) : xQ :=
  let ys := sort_values_asc (dropna xs) in
  let n := length ys in
  match n with
  | O => XNaN
  | _ =>
      if Nat.even n
      then xdiv (xadd (nth (n / 2 - 1) ys XNaN) (nth (n / 2) ys XNaN)) (XFin 2)
      else nth (n / 2) ys XNaN
  end.

(** The sample variance ([ddof=1]); [std] is its square root. *)
Definition values_var (xs : list xQ) : xQ :=
  let ys := dropna xs in
  match length ys with
  | O | S O => XNaN
  | n =>
      let m := values_mean ys in
      xdiv (xsum (map (fun y => xmul (xsub y m) (xsub y m)) ys)) (x_of_nat (n - 1))
  end.

Definition values_std (xs : list xQ) : xroot := Sqrt (values_var xs).

Definition values_min (xs : list xQ) : xQ :=
  match dropna xs with
  | [] => XNaN
  | y :: ys => fold_left (fun a b => if xlt b a then b else a) ys y
  end.

Definition values_max (xs : list xQ) : xQ :=
  match dropna xs with
  | [] => XNaN
  | y :: ys => fold_left (fun a b => if xlt a b then b else a) ys y
  end.

(** [s.mean()] *)
Definition series_mean (s : Series) : result xQ := values_mean <$> numeric_values s.

(** ** Grouping *)

Definition cell_isna (c : cell) : bool :=
  match c with CFloat FNaN => true | _ => false end.

(** The order of group keys: numbers by value, strings by code point,
    numbers before strings. *)
Definition key_leb (a b : cell) : bool :=
  match a, b with
  | CStr s, CStr t => String.leb s t
  | CStr _, _ => false
  | _, CStr _ => true
  | _, _ =>
      match cell_value a, cell_value b with
      | Some x, Some y => xle x y
      | _, _ => true
      end
  end.

Definition key_eqb (a b : cell) : bool := key_leb a b && key_leb b a.

Fixpoint insert_key (k : cell) (ks : list cell) : list cell :=
  match ks with
  | [] => [k]
  | k' :: ks' =>
      if key_eqb k k' then ks
      else if key_leb k k' then k :: ks
      else k' :: insert_key k ks'
  end.

(** The distinct keys of a column in ascending order, NaN left out
    ([dropna=True], [sort=True]). *)
Definition group_keys (keys : Series) : list cell :=
  fold_right insert_key [] (List.filter (fun k => negb (cell_isna k)) keys).

(** The values of the rows whose key is [k]; a row with a missing key is
    in no group. *)
Fixpoint group_of (k : cell) (keys values : Series) : Series :=
  match keys, values with
  | k' :: keys', v :: values' =>
      if negb (cell_isna k') && key_eqb k' k
      then v :: group_of k keys' values'
      else group_of k keys' values'
  | _, _ => []
  end.

(** [df.groupby(key_col)[col]]: each key with the values of its rows. *)
Definition groupby (df : DataFrame) (key_col col : string) : result (list (cell * Series)) :=
  keys ← getitem df key_col;
  values ← getitem df col;
  Ok (map (fun k => (k, group_of k keys values)) (group_keys keys)).

(** Strictly before, in the order of the keys. *)
Definition key_lt (a b : cell) : Prop := key_leb a b = true /\ key_leb b a = false.

(** The number of rows whose key is [k]; a missing key equals no key. *)
Definition group_size (k : cell) (keys : Series) : nat :=
  length (List.filter (fun k' => negb (cell_isna k') && key_eqb k' k) keys).

(** [df.groupby(key_col).size()]: each key with the number of its rows,
    the keys in ascending order. *)
Definition groupby_size (df : DataFrame) (key_col : string) : result (list (cell * nat)) :=
  keys ← getitem df key_col;
  Ok (map (fun k => (k, group_size k keys)) (group_keys keys)).

(** ** analysis *)

Record stats_row : Type := mkStats {
  stat_key : cell;
  stat_count : nat;
  stat_mean : xQ;
  stat_median : xQ;
  stat_std : xroot;
  stat_month : option string
}.

Definition aggregate (g : cell * Series) : result stats_row :=
  xs ← numeric_values g.2;
  Ok {| stat_key := g.1;
        stat_count := values_count xs;
        stat_mean := values_mean xs;
        stat_median := values_median xs;
        stat_std := values_std xs;
        stat_month := None |}.

Fixpoint insert_row (r : stats_row) (rs : list stats_row) : list stats_row :=
  match rs with
  | [] => [r]
  | r' :: rs' =>
      if key_leb (stat_key r) (stat_key r') then r :: rs else r' :: insert_row r rs'
  end.

(** [stats.sort_index()] *)
Definition sort_index (rs : list stats_row) : list stats_row := fold_right insert_row [] rs.

Definition month_names : list string :=
  ["January"; "February"; "March"; "April"; "May"; "June"; "July"; "August";
   "September"; "October"; "November"; "December"].

(** [strptime] with the format [%m]: the whole text must be a month
    number written with one or two digits. *)
Definition strptime_m (s : string) : result nat :=
  match s, NilEmpty.uint_of_string s with
  | String _ _, Some d =>
      let m := N.to_nat (N.of_uint d) in
      if (String.length s <=? 2)%nat && (1 <=? m)%nat && (m <=? 12)%nat
      then Ok m
      else Raise ValueError
  | _, _ => Raise ValueError
  end.

(** [pd.to_datetime(str(x), format='%m').month_name()] *)
Definition month_name (x : cell) : result string :=
  m ← strptime_m (cell_str x);
  Ok (nth (m - 1) month_names "").

(** The row with its [month] entry set. *)
Definition with_month (m : option string) (r : stats_row) : stats_row :=
  {| stat_key := stat_key r; stat_count := stat_count r; stat_mean := stat_mean r;
     stat_median := stat_median r; stat_std := stat_std r; stat_month := m |}.

Definition calculate_rental_stats (df : DataFrame) (groupby_col price_col : string)
    : result (list stats_row) :=
  groups ← groupby df groupby_col price_col;
  stats ← for_each aggregate groups;
  let stats := sort_index stats in
  if String.eqb groupby_col "month_num" then
    for_each (fun r => m ← month_name (stat_key r); Ok (with_month (Some m) r)) stats
  else Ok stats.

(** [s == x] for a string [x], element by element. *)
Definition series_eq_str (s : Series) (x : string) : list bool :=
  map (fun c => match c with CStr t => String.eqb t x | _ => false end) s.

Record comparison_row : Type := mkComparison {
  comparison_columns : list string;
  target_avg_price : xQ;
  other_avg_price : xQ;
  ratio : xQ
}.

Definition compare_boroughs (df : DataFrame) (borough_col target_borough price_col : string)
    : result comparison_row :=
  b ← getitem df borough_col;
  target ← getitem_mask df (series_eq_str b target_borough);
  target_prices ← getitem target price_col;
  target_avg ← series_mean target_prices;
  other ← getitem_mask df (map negb (series_eq_str b target_borough));
  other_prices ← getitem other price_col;
  other_avg ← series_mean other_prices;
  Ok {| comparison_columns :=
          [target_borough ++ "_avg_price"; "Other_boroughs_avg_price"; "Ratio"];
        target_avg_price := target_avg;
        other_avg_price := other_avg;
        ratio := xdiv target_avg other_avg |}.

(** What [count_luxury_listings] returns: an [int], or a series of counts
    indexed by the group keys. *)
Inductive luxury_count : Type :=
| Count (n : nat)
| CountBy (sizes : list (cell * nat)).

(** [if groupby_col:] for an optional string: [None] and the empty string
    are false. *)
Definition truthy_str (s : option string) : bool :=
  match s with
  | Some (String _ _) => true
  | _ => false
  end.

Definition count_luxury_listings (df : DataFrame) (price_threshold : float64)
    (groupby_col : option string) (price_col : string) : result luxury_count :=
  s ← getitem df price_col;
  mask ← series_gt s price_threshold;
  luxury_df ← getitem_mask df mask;
  if truthy_str groupby_col then
    CountBy <$> groupby_size luxury_df (default "" groupby_col)
  else Ok (Count (df_len luxury_df)).

(** The default threshold, [1000.0]. *)
Definition default_price_threshold : float64 := FFin false 1000 0.

Record seasonal_range : Type := mkRange {
  min_price : xQ;
  max_price : xQ;
  range : xQ;
  pct_range : xQ
}.

Definition group_means (df : DataFrame) (groupby_col price_col : string)
    : result (list (cell * xQ)) :=
  groups ← groupby df groupby_col price_col;
  for_each (fun g => m ← series_mean g.2; Ok (g.1, m)) groups.

Definition calculate_seasonal_range (df : DataFrame) (groupby_col price_col : string)
    : result seasonal_range :=
  monthly_avg ← group_means df groupby_col price_col;
  let min_price := values_min (map snd monthly_avg) in
  let max_price := values_max (map snd monthly_avg) in
  let price_range := xsub max_price min_price in
  let pct_range := xmul (xdiv price_range min_price) (XFin 100) in
  Ok {| min_price := min_price;
        max_price := max_price;
        range := price_range;
        pct_range := pct_range |}.

Definition row_le (r r' : stats_row) : Prop := key_leb (stat_key r) (stat_key r') = true.

(** *** Vocabulary for the analysis contract *)

(** The values of a numeric series, one per element. *)
Definition values_of (s : Series) : list xQ :=
  map (fun c => default XNaN (cell_value c)) s.

Definition no_strings (s : Series) : Prop :=
  forallb (fun c => negb (is_str c)) s = true.

(** The statistics of the group of key [k], without the month name. *)
Definition group_stats (keys prices : Series) (k : cell) : stats_row :=
  let xs := values_of (group_of k keys prices) in
  {| stat_key := k;
     stat_count := values_count xs;
     stat_mean := values_mean xs;
     stat_median := values_median xs;
     stat_std := values_std xs;
     stat_month := None |}.

(** The statistics of all groups in ascending order of the keys. *)
Definition plain_stats (keys prices : Series) : list stats_row :=
  sort_index (map (group_stats keys prices) (group_keys keys)).

(** The English name of an integer month number. *)
Definition month_of_key (c : cell) : string :=
  match c with
  | CInt z => nth (Z.to_nat z - 1) month_names ""
  | _ => ""
  end.

Definition int_month (c : cell) : Prop :=
  exists z, c = CInt z /\ (1 <= z <= 12)%Z.

Definition Qsum (qs : list Q) : Q := fold_right Qplus 0%Q qs.

(** The arithmetic mean of a non-empty list of rationals. *)
Definition Qmean (qs : list Q) : Q := Qsum qs / inject_Z (Z.of_nat (length qs)).

(** The finite values of a series in order, NaN left out; none when the
    series holds a string or an infinity. *)
Fixpoint finite_values (s : Series) : option (list Q) :=
  match s with
  | [] => Some []
  | c :: s' =>
      match cell_value c, finite_values s' with
      | Some (XFin q), Some qs => Some (q :: qs)
      | Some XNaN, Some qs => Some qs
      | _, _ => None
      end
  end.

(** *** Sample tables *)

Definition price (n : N) : cell := CFloat (FFin false n 0).

(** Group A with prices 10, 20, 30 and group B with price 100. *)
Definition two_groups : DataFrame :=
  {| columns := ["group"; "price"];
     rows := [row_of [("group", CStr "B"); ("price", price 100)];
              row_of [("group", CStr "A"); ("price", price 10)];
              row_of [("group", CStr "A"); ("price", price 30)];
              row_of [("group", CStr "A"); ("price", price 20)]] |}.

(** Monthly means 100, 150 and 90 for the months 1, 2 and 3. *)
Definition three_months : DataFrame :=
  {| columns := ["month_num"; "price"];
     rows := [row_of [("month_num", CInt 2); ("price", price 150)];
              row_of [("month_num", CInt 1); ("price", price 120)];
              row_of [("month_num", CInt 3); ("price", price 90)];
              row_of [("month_num", CInt 1); ("price", price 80)]] |}.

Definition boroughs : DataFrame :=
  {| columns := ["neighbourhood_group_cleansed"; "price"];
     rows := [row_of [("neighbourhood_group_cleansed", CStr "Manhattan"); ("price", price 150)];
              row_of [("neighbourhood_group_cleansed", CStr "Bronx"); ("price", price 80)];
              row_of [("neighbourhood_group_cleansed", CStr "Manhattan"); ("price", price 250)];
              row_of [("neighbourhood_group_cleansed", CStr "Queens"); ("price", CFloat FNaN)]] |}.

(** A table in which the listings outside Manhattan are free. *)
Definition free_elsewhere : DataFrame :=
  {| columns := ["neighbourhood_group_cleansed"; "price"];
     rows := [row_of [("neighbourhood_group_cleansed", CStr "Manhattan"); ("price", price 150)];
              row_of [("neighbourhood_group_cleansed", CStr "Bronx"); ("price", price 0)]] |}.

(** A month without revenue: the monthly means are 0 and 150. *)
Definition free_month : DataFrame :=
  {| columns := ["month_num"; "price"];
     rows := [row_of [("month_num", CInt 1); ("price", price 0)];
              row_of [("month_num", CInt 2); ("price", price 150)]] |}.

(** A processed table in which one month was not recognised: the month
    numbers are floats. *)
Definition float_months : DataFrame :=
  {| columns := ["price"; "month"; "month_num"];
     rows := [row_of [("price", price 100); ("month", CStr "May");
                      ("month_num", CFloat (FFin false 5 0))];
              row_of [("price", price 120); ("month", CStr "Sept"); ("month_num", NaN)]] |}.

(** Listings whose month could not be numbered. *)
Definition unnumbered_listings : DataFrame :=
  {| columns := ["month_num"; "price"];
     rows := [row_of [("month_num", NaN); ("price", price 100)];
              row_of [("month_num", NaN); ("price", price 120)]] |}.

(** Listings of which some have no borough. *)
Definition luxury_sample : DataFrame :=
  {| columns := ["neighbourhood_group_cleansed"; "price"];
     rows := [row_of [("neighbourhood_group_cleansed", CStr "Manhattan"); ("price", price 1500)];
              row_of [("neighbourhood_group_cleansed", CStr "Bronx"); ("price", price 80)];
              row_of [("neighbourhood_group_cleansed", CStr "Manhattan"); ("price", price 2500)];
              row_of [("neighbourhood_group_cleansed", NaN); ("price", price 3000)];
              row_of [("neighbourhood_group_cleansed", CStr "Brooklyn"); ("price", price 1000)];
              row_of [("neighbourhood_group_cleansed", CStr "Brooklyn"); ("price", price 1200)];
              row_of [("neighbourhood_group_cleansed", CStr "Queens"); ("price", CFloat FNaN)]] |}.

(** Two snapshots, one of them from a file named [listings_Sept_2025.csv]:
    its month tag is not a key of [MONTH_MAPPING]. *)
Definition sept_listings : DataFrame :=
  {| columns := ["price"; "month"];
     rows := [row_of [("price", CStr "$100.00"); ("month", CStr "May")];
              row_of [("price", CStr "$120.00"); ("month", CStr "Sept")]] |}.

(** ** visualization *)

(** What the plotting calls leave behind: the commands sent to
    matplotlib and seaborn, in order. *)
Inductive plot_cmd : Type :=
| Figure (width height : nat)
| Barplot (x : list xQ) (y : list cell) (palette : string)
| Title (text : string) (fontsize : nat)
| Xlabel (text : string) (fontsize : nat)
| Ylabel (text : string) (fontsize : nat)
| Grid (axis linestyle : string)
| TightLayout
| Savefig (path : string) (dpi : nat)
| ShowFigure.

(** The keyword parameters of [Series.sort_values]. *)
Definition sort_values_keywords : list string :=
  ["axis"; "ascending"; "inplace"; "kind"; "na_position"; "ignore_index"; "key"].

Fixpoint kwarg (name : string) (kwargs : list (string * bool)) : option bool :=
  match kwargs with
  | [] => None
  | (k, v) :: kwargs' => if String.eqb k name then Some v else kwarg name kwargs'
  end.

Fixpoint insert_entry (ascending : bool) (e : cell * xQ) (es : list (cell * xQ))
    : list (cell * xQ) :=
  match es with
  | [] => [e]
  | e' :: es' =>
      if (if ascending then xle e.2 e'.2 else xle e'.2 e.2) then e :: es
      else e' :: insert_entry ascending e es'
  end.

(** [s.sort_values] with keyword arguments, on a series with an index: a keyword that
    is not a parameter of the method is a [TypeError]; otherwise the
    entries are ordered by value, ascending unless [ascending=False], with
    the NaN entries last. *)
Definition series_sort_values (kwargs : list (string * bool)) (s : list (cell * xQ))
    : result (list (cell * xQ)) :=
  if forallb (fun kw => existsb (String.eqb kw.1) sort_values_keywords) kwargs then
    let ascending := default true (kwarg "ascending" kwargs) in
    Ok (fold_right (insert_entry ascending) []
          (List.filter (fun e => negb (xnan e.2)) s)
        ++ List.filter (fun e => xnan e.2) s)%list
  else Raise TypeError.

(** [s.head(n)] *)
Definition series_head {A : Type} (n : Z) (s : list A) : list A :=
  if (0 <=? n)%Z then take (Z.to_nat n) s
  else take (length s - Z.to_nat (- n)) s.

(** [if top_n:] for an optional int. *)
Definition truthy (n : option Z) : bool :=
  match n with
  | Some z => negb (Z.eqb z 0)
  | None => false
  end.

Definition plot_manhattan_neighborhood_prices (df : DataFrame)
    (borough_col neighborhood_col price_col : string) (top_n : option Z)
    (figsize : nat * nat) (save_path : option string) : result (list plot_cmd) :=
  b ← getitem df borough_col;
  manhattan_df ← getitem_mask df (series_eq_str b "Manhattan");
  means ← group_means manhattan_df neighborhood_col price_col;
  neighborhood_avg ← series_sort_values [("descending", true)] means;
  let neighborhood_avg :=
    if truthy top_n then series_head (default 0%Z top_n) neighborhood_avg
    else neighborhood_avg in
  Ok ([ Figure figsize.1 figsize.2;
        Barplot (map snd neighborhood_avg) (map fst neighborhood_avg) "viridis";
        Title "Average Price by Neighborhood in Manhattan" 16;
        Xlabel "Average Price" 12;
        Ylabel "Neighborhood" 12;
        Grid "x" "--";
        TightLayout ]
      ++ match save_path with
         | Some p => [Savefig p 300]
         | None => []
         end
      ++ [ShowFigure])%list.

(** Manhattan listings in two neighbourhoods. *)
Definition manhattan_listings : DataFrame :=
  {| columns := ["neighbourhood_group_cleansed"; "neighbourhood_cleansed"; "price"];
     rows := [row_of [("neighbourhood_group_cleansed", CStr "Manhattan");
                      ("neighbourhood_cleansed", CStr "Harlem"); ("price", price 120)];
              row_of [("neighbourhood_group_cleansed", CStr "Manhattan");
                      ("neighbourhood_cleansed", CStr "SoHo"); ("price", price 400)];
              row_of [("neighbourhood_group_cleansed", CStr "Brooklyn");
                      ("neighbourhood_cleansed", CStr "Bushwick"); ("price", price 90)]] |}.

(** *** The histograms by borough *)

(** [a == b] on cells: strings by their characters, numbers by value; a
    string equals no number, and NaN equals nothing. *)
Definition xeq (x y : xQ) : bool :=
  match x, y with
  | XFin p, XFin q => Qeq_bool p q
  | XInf a, XInf b => Bool.eqb a b
  | _, _ => false
  end.

Definition cell_eqb (a b : cell) : bool :=
  match a, b with
  | CStr s, CStr t => String.eqb s t
  | CStr _, _ | _, CStr _ => false
  | _, _ =>
      match cell_value a, cell_value b with
      | Some x, Some y => xeq x y
      | _, _ => false
      end
  end.

(** [s == v], element by element. *)
Definition series_eq (s : Series) (v : cell) : list bool := map (fun c => cell_eqb c v) s.

(** [s.dropna()] *)
Definition series_dropna (s : Series) : Series :=
  List.filter (fun c => negb (cell_isna c)) s.

(** [s.unique()]: the values in order of first appearance, the missing
    value counting as one value. *)
Definition cell_same (a b : cell) : bool :=
  (cell_isna a && cell_isna b) || cell_eqb a b.

Fixpoint series_unique (s : Series) : list cell :=
  match s with
  | [] => []
  | c :: s' => c :: List.filter (fun c' => negb (cell_same c c')) (series_unique s')
  end.

(** The calls of the histogram chart. *)
Inductive pyplot_call : Type :=
| PltFigure (figsize : nat * nat)
| PltHist (x : Series) (bins : nat) (alpha : Q) (label : cell)
| PltXlabel (text : string)
| PltYlabel (text : string)
| PltTitle (text : string)
| PltLegend
| PltSavefig (path : string) (dpi : nat)
| PltShow.

(** Drawing appends calls to those made so far and may raise; the calls
    made before an exception stay made. *)
Definition Plt (A : Type) : Type := list pyplot_call -> result A * list pyplot_call.

#[global] Instance Plt_ret : MRet Plt := fun A a calls => (Ok a, calls).
#[global] Instance Plt_bind : MBind Plt := fun A B f m calls =>
  match m calls with
  | (Ok a, calls') => f a calls'
  | (Raise e, calls') => (Raise e, calls')
  end.

Definition plt_call (c : pyplot_call) : Plt unit := fun calls => (Ok tt, (calls ++ [c])%list).

Definition plt_eval {A : Type} (r : result A) : Plt A := fun calls => (r, calls).

(** [for x in xs: body] *)
Fixpoint plt_for {A : Type} (xs : list A) (body : A -> Plt unit) : Plt unit :=
  match xs with
  | [] => mret tt
  | x :: xs' => body x;; plt_for xs' body
  end.

Definition plot_price_histograms_by_borough (df : DataFrame) (borough_col price_col : string)
    (figsize : nat * nat) (bins : nat) (save_path : option string) : Plt unit :=
  plt_call (PltFigure figsize);;
  groups ← plt_eval (series_unique <$> getitem df borough_col);
  plt_for groups (fun group =>
    b ← plt_eval (getitem df borough_col);
    subset ← plt_eval (getitem_mask df (series_eq b group));
    p ← plt_eval (getitem subset price_col);
    plt_call (PltHist (series_dropna p) bins (1 # 2) group));;
  plt_call (PltXlabel "Price");;
  plt_call (PltYlabel "Count");;
  plt_call (PltTitle "Price Histograms by Neighborhood Group (Borough)");;
  plt_call PltLegend;;
  match save_path with
  | Some path => plt_call (PltSavefig path 300)
  | None => mret tt
  end;;
  plt_call PltShow.

(** The calls that follow the histograms. *)
Definition histogram_trailer (save_path : option string) : list pyplot_call :=
  ([PltXlabel "Price"; PltYlabel "Count";
    PltTitle "Price Histograms by Neighborhood Group (Borough)"; PltLegend]
   ++ match save_path with
      | Some path => [PltSavefig path 300]
      | None => []
      end
   ++ [PltShow])%list.

(** The rows that have both a borough and a price. *)
Definition drawable (b p : Series) : list (cell * cell) :=
  List.filter (fun bp => negb (cell_isna bp.1) && negb (cell_isna bp.2)) (combine b p).


(** * Properties *)


(** ** Facts about Python strings *)

Section StringFacts.

Lemma str_length_app (s t : string) :
  String.length (s ++ t) = (String.length s + String.length t)%nat.
Proof. induction s as [|a s IH]; simpl; [reflexivity | now rewrite IH]. Qed.

Lemma str_app_nil_r (s : string) : s ++ "" = s.
Proof. induction s as [|a s IH]; simpl; [reflexivity | now rewrite IH]. Qed.

Lemma str_app_assoc (s t u : string) : (s ++ t) ++ u = s ++ t ++ u.
Proof. induction s as [|a s IH]; simpl; [reflexivity | now rewrite IH]. Qed.

Lemma str_contains_app (c : ascii) (s t : string) :
  str_contains c (s ++ t) = str_contains c s || str_contains c t.
Proof.
  induction s as [|a s IH]; simpl; [reflexivity |].
  now rewrite IH, orb_assoc.
Qed.

Lemma str_rfind_app (c : ascii) (s t : string) (i : nat) :
  str_rfind c t = Some i ->
  str_rfind c (s ++ t) = Some (String.length s + i)%nat.
Proof.
  intros Ht. induction s as [|a s IH]; simpl; [exact Ht |].
  now rewrite IH.
Qed.

Lemma substring_prefix (s t : string) :
  substring 0 (String.length s) (s ++ t) = s.
Proof.
  induction s as [|a s IH]; simpl.
  - now destruct t.
  - now rewrite IH.
Qed.

(** *** The glob pattern *)


Lemma fnmatch_literal (lit p s : string) :
  star_free lit ->
  fnmatch (lit ++ p) s = true <-> exists t, s = lit ++ t /\ fnmatch p t = true.
Proof.
  unfold star_free. revert s. induction lit as [|a lit IH]; intros s H.
  - simpl. split; [intros Hm; now exists s | now intros (t & -> & Hm)].
  - simpl in H. apply orb_false_iff in H as [Ha Hlit].
    simpl. rewrite Ha.
    destruct s as [|b s].
    + split; [discriminate | intros (t & Hs & _); discriminate].
    + rewrite andb_true_iff, (IH s Hlit). split.
      * intros [Hab (t & -> & Hm)]. apply Ascii.eqb_eq in Hab as ->. now exists t.
      * intros (t & Hs & Hm). injection Hs as -> ->.
        split; [apply Ascii.eqb_refl | now exists t].
Qed.

Lemma fnmatch_star (p s : string) :
  fnmatch (String "*" p) s = true <-> exists a b, s = a ++ b /\ fnmatch p b = true.
Proof.
  change (fnmatch (String "*" p)) with
    (fix star (s : string) : bool :=
       fnmatch p s || match s with "" => false | String _ s' => star s' end).
  induction s as [|c s IH].
  - rewrite orb_false_r. split.
    + intros H. now exists "", "".
    + intros (a & b & Hs & Hm). destruct a; [| discriminate]. simpl in Hs. now subst b.
  - rewrite orb_true_iff, IH. split.
    + intros [H | (a & b & -> & Hm)].
      * now exists "", (String c s).
      * now exists (String c a), b.
    + intros (a & b & Hs & Hm). destruct a as [|c' a].
      * left. simpl in Hs. now subst b.
      * right. injection Hs as -> ->. now exists a, b.
Qed.

Lemma fnmatch_exact (lit s : string) :
  star_free lit -> fnmatch lit s = true <-> s = lit.
Proof.
  intros H. rewrite <- (str_app_nil_r lit) at 1.
  rewrite (fnmatch_literal lit "" s H). split.
  - intros (t & -> & Ht). destruct t; [| discriminate]. apply str_app_nil_r.
  - intros ->. exists "". now rewrite str_app_nil_r.
Qed.

End StringFacts.


(** ** Facts about the loader *)

Lemma star_free_uint (d : Decimal.uint) : star_free (NilEmpty.string_of_uint d).
Proof. unfold star_free. induction d; simpl; auto. Qed.

Lemma star_free_str_int (z : Z) : star_free (str_int z).
Proof.
  assert (Hnz : forall d, star_free (NilZero.string_of_uint d)).
  { intros d. unfold NilZero.string_of_uint.
    destruct d; first [reflexivity | apply star_free_uint]. }
  unfold str_int, NilZero.string_of_int.
  destruct (Z.to_int z) as [d|d]; [apply Hnz |].
  unfold star_free. simpl. apply Hnz.
Qed.

Lemma listing_pattern_spec (year : Z) (n : string) :
  fnmatch (listing_pattern year) n = true <-> exists mid, n = listing_name year mid.
Proof.
  unfold listing_pattern, listing_name.
  change ("listings_*_" ++ str_int year ++ ".csv")
    with ("listings_" ++ String "*" ("_" ++ str_int year ++ ".csv")).
  rewrite fnmatch_literal by reflexivity.
  assert (Hsfx : star_free ("_" ++ str_int year ++ ".csv")).
  { unfold star_free. change ("_" ++ str_int year ++ ".csv") with (String "_" (str_int year ++ ".csv")).
    simpl. rewrite str_contains_app, star_free_str_int. reflexivity. }
  split.
  - intros (t & -> & Ht). apply fnmatch_star in Ht as (a & b & -> & Hb).
    apply fnmatch_exact in Hb; [| exact Hsfx]. subst b. now exists a.
  - intros (mid & ->). exists (mid ++ "_" ++ str_int year ++ ".csv"). split; [reflexivity |].
    apply fnmatch_star. exists mid, ("_" ++ str_int year ++ ".csv"). split; [reflexivity |].
    now apply fnmatch_exact.
Qed.

Lemma path_stem_listing (year : Z) (mid : string) :
  path_stem (listing_name year mid) = "listings_" ++ mid ++ "_" ++ str_int year.
Proof.
  set (S := "listings_" ++ mid ++ "_" ++ str_int year).
  assert (HS : listing_name year mid = S ++ ".csv").
  { unfold listing_name, S. now rewrite !str_app_assoc. }
  rewrite HS. unfold path_stem.
  rewrite (str_rfind_app "." S ".csv" 0 eq_refl), Nat.add_0_r, str_length_app.
  assert (H0 : (0 <? String.length S)%nat = true) by reflexivity.
  assert (H1 : (String.length S <? String.length S + String.length ".csv" - 1)%nat = true).
  { apply Nat.ltb_lt. simpl. lia. }
  rewrite H0, H1. apply substring_prefix.
Qed.

Lemma str_split_cons (sep : ascii) (s : string) :
  str_split sep s =
  str_before sep s ::
    (if str_contains sep s then str_split sep (str_after sep s) else []).
Proof.
  induction s as [|a s IH]; simpl; [reflexivity |].
  destruct (Ascii.eqb a sep); simpl; [reflexivity |].
  now rewrite IH.
Qed.

Lemma list_index_split (sep : ascii) (s : string) :
  str_contains sep s = true ->
  list_index (str_split sep s) 1 = Ok (str_before sep (str_after sep s)).
Proof.
  intros H. rewrite str_split_cons, H.
  rewrite (str_split_cons sep (str_after sep s)). reflexivity.
Qed.

Lemma str_before_app (sep : ascii) (m x : string) :
  str_before sep (m ++ String sep x) = str_before sep m.
Proof.
  induction m as [|a m IH]; simpl.
  - now rewrite Ascii.eqb_refl.
  - destruct (Ascii.eqb a sep); [reflexivity | now rewrite IH].
Qed.

Lemma month_token_listing (year : Z) (mid : string) :
  month_token (listing_name year mid) = str_before "_" mid.
Proof.
  unfold month_token, listing_name. simpl.
  change ("_" ++ str_int year ++ ".csv") with (String "_" (str_int year ++ ".csv")).
  apply str_before_app.
Qed.

(** On a listing file the month tag is always found: the list index never
    raises, and the tag is the text between the first two underscores. *)
Lemma load_file_listing (f : Path) (year : Z) :
  is_listing year f ->
  load_file f =
  match content f with
  | Csv df => Ok (setitem_scalar df "month" (CStr (month_token (name f))))
  | Malformed => Raise ParserError
  | Missing => Raise FileNotFoundError
  end.
Proof.
  intros (mid & Hn). unfold load_file. rewrite Hn, path_stem_listing.
  rewrite list_index_split by reflexivity.
  rewrite month_token_listing. simpl.
  change ("_" ++ str_int year) with (String "_" (str_int year)).
  rewrite str_before_app. unfold read_csv.
  destruct (content f); reflexivity.
Qed.

(** *** [glob] and [sorted] *)

Lemma glob_spec (data_folder : list Path) (year : Z) (f : Path) :
  f ∈ glob data_folder (listing_pattern year) <-> f ∈ data_folder /\ is_listing year f.
Proof.
  unfold glob, is_listing. rewrite list_elem_of_filter, listing_pattern_spec. tauto.
Qed.

Lemma glob_split (data_folder : list Path) (year : Z) :
  exists rest,
    data_folder ≡ₚ glob data_folder (listing_pattern year) ++ rest /\
    Forall (fun f => ~ is_listing year f) rest.
Proof.
  exists (filter (fun f => ~ fnmatch (listing_pattern year) (name f) = true) data_folder).
  split.
  - symmetry. apply filter_app_complement.
  - apply Forall_forall. intros f Hf. apply list_elem_of_filter in Hf as [Hf _].
    unfold is_listing. now rewrite <- listing_pattern_spec.
Qed.

Lemma insort_perm (f : Path) (fs : list Path) : insort f fs ≡ₚ f :: fs.
Proof.
  induction fs as [|g fs IH]; simpl; [reflexivity |].
  destruct (String.leb (name f) (name g)); [reflexivity |].
  rewrite IH. apply perm_swap.
Qed.

Lemma sorted_perm (fs : list Path) : sorted fs ≡ₚ fs.
Proof.
  induction fs as [|f fs IH]; simpl; [reflexivity |].
  now rewrite insort_perm, IH.
Qed.

Lemma str_leb_spec (s t : string) :
  String.leb s t = true <-> s = t \/ String_as_OT.lt s t.
Proof.
  unfold String.leb. destruct (String.compare s t) eqn:E.
  - apply String_as_OT.cmp_eq in E. tauto.
  - apply String_as_OT.cmp_lt in E. tauto.
  - split; [discriminate |]. intros [-> | H].
    + assert (String.compare t t = Eq) by now apply String_as_OT.cmp_eq.
      congruence.
    + apply String_as_OT.cmp_lt in H. unfold String_as_OT.cmp in H. congruence.
Qed.

Lemma name_le_trans (f g h : Path) : name_le f g -> name_le g h -> name_le f h.
Proof.
  unfold name_le. rewrite !str_leb_spec.
  intros [E1 | H1] [E2 | H2].
  - left. congruence.
  - right. now rewrite E1.
  - right. now rewrite <- E2.
  - right. eapply String_as_OT.lt_trans; eassumption.
Qed.

Lemma name_le_total (f g : Path) : name_le f g \/ name_le g f.
Proof. apply String.leb_total. Qed.

Lemma insort_sorted (f : Path) (fs : list Path) :
  StronglySorted name_le fs -> StronglySorted name_le (insort f fs).
Proof.
  induction 1 as [|g fs Hs IH Hg]; simpl.
  - repeat constructor.
  - destruct (String.leb (name f) (name g)) eqn:E.
    + constructor; [now constructor |].
      constructor; [exact E |].
      eapply Forall_impl; [exact Hg |]. intros h Hh. eapply name_le_trans; eassumption.
    + constructor; [exact IH |].
      apply Forall_forall. intros h Hh.
      rewrite insort_perm in Hh.
      apply elem_of_cons in Hh as [-> | Hh].
      * destruct (name_le_total f g) as [H | H]; [unfold name_le in H; congruence | exact H].
      * rewrite Forall_forall in Hg. now apply Hg.
Qed.

Lemma sorted_sorted (fs : list Path) : StronglySorted name_le (sorted fs).
Proof.
  induction fs as [|f fs IH]; simpl; [constructor | now apply insort_sorted].
Qed.


(** *** Columns and concatenation *)

Lemma has_column_spec (c : string) (cols : list string) :
  has_column c cols = true <-> c ∈ cols.
Proof.
  unfold has_column. rewrite existsb_exists. split.
  - intros (x & Hx & E). apply String.eqb_eq in E as ->. now apply list_elem_of_In.
  - intros H. exists c. split; [now apply list_elem_of_In | apply String.eqb_refl].
Qed.

Lemma add_column_old (c : string) (cols : list string) :
  c ∈ cols -> add_column c cols = cols.
Proof. intros H. unfold add_column. apply has_column_spec in H. now rewrite H. Qed.

Lemma add_column_new (c : string) (cols : list string) :
  c ∉ cols -> add_column c cols = (cols ++ [c])%list.
Proof.
  intros H. unfold add_column. destruct (has_column c cols) eqn:E; [| reflexivity].
  apply has_column_spec in E. contradiction.
Qed.

Lemma add_column_NoDup (c : string) (cols : list string) :
  NoDup cols -> NoDup (add_column c cols).
Proof.
  intros H. unfold add_column. destruct (has_column c cols) eqn:E; [exact H |].
  apply NoDup_app. repeat split; [exact H | | apply NoDup_singleton].
  intros x Hx Hc. apply list_elem_of_singleton in Hc as ->.
  apply has_column_spec in Hx. congruence.
Qed.

Lemma union_columns_fresh (acc cols : list string) :
  NoDup (acc ++ cols)%list -> union_columns acc cols = (acc ++ cols)%list.
Proof.
  unfold union_columns. revert acc. induction cols as [|c cols IH]; intros acc H; simpl.
  - now rewrite app_nil_r.
  - apply NoDup_app in H as H'. destruct H' as (Ha & Hd & Hc).
    rewrite add_column_new.
    + rewrite IH; rewrite <- app_assoc; [reflexivity | exact H].
    + intros Hin. apply (Hd c Hin). left.
Qed.

Lemma union_columns_known (acc cols : list string) :
  (forall c, c ∈ cols -> c ∈ acc) -> union_columns acc cols = acc.
Proof.
  unfold union_columns. induction cols as [|c cols IH]; intros H; simpl; [reflexivity |].
  rewrite add_column_old by (apply H; left).
  apply IH. intros c' Hc'. apply H. now right.
Qed.

Lemma union_columns_repeat (cols : list string) (css : list (list string)) :
  NoDup cols -> css <> [] -> Forall (fun cs => cs = cols) css ->
  fold_left union_columns css [] = cols.
Proof.
  intros Hnd Hne Hall. destruct css as [|cs css]; [contradiction |].
  apply Forall_cons in Hall as [-> Hall]. simpl.
  rewrite (union_columns_fresh [] cols) by exact Hnd. simpl.
  clear Hne. induction Hall as [|cs css -> _ IH]; simpl; [reflexivity |].
  rewrite union_columns_known by auto. exact IH.
Qed.

Lemma for_each_ok {A B : Type} (body : A -> result B) (g : A -> B) (xs : list A) :
  (forall x, x ∈ xs -> body x = Ok (g x)) -> for_each body xs = Ok (map g xs).
Proof.
  induction xs as [|x xs IH]; intros H; simpl; [reflexivity |].
  rewrite (H x) by left. rewrite IH; [reflexivity |].
  intros y Hy. apply H. now right.
Qed.

Lemma for_each_raises {A B : Type} (body : A -> result B) (xs : list A) (e : exn) :
  for_each body xs = Raise e -> exists x, x ∈ xs /\ body x = Raise e.
Proof.
  induction xs as [|x xs IH]; simpl; [discriminate |].
  destruct (body x) as [y|e'] eqn:Ex.
  - destruct (for_each body xs) as [ys|e'']; [discriminate |].
    intros [= ->]. destruct (IH eq_refl) as (z & Hz & Ez).
    exists z. split; [now right | exact Ez].
  - intros [= ->]. exists x. split; [left | exact Ex].
Qed.

Lemma length_concat_map {A B : Type} (g : A -> list B) (xs : list A) :
  length (List.concat (map g xs)) = sum_list (map (fun x => length (g x)) xs).
Proof.
  induction xs as [|x xs IH]; simpl; [reflexivity |].
  now rewrite length_app, IH.
Qed.


(** *** The loader's contract *)

Lemma load_monthly_listings_unfold (data_folder : list Path) (year : Z) :
  let files := sorted (glob data_folder (listing_pattern year)) in
  load_monthly_listings data_folder year =
  match files with
  | [] => Raise FileNotFoundError
  | _ => for_each load_file files ≫= pd_concat
  end.
Proof. reflexivity. Qed.

Lemma listing_files_spec (data_folder : list Path) (year : Z) :
  let files := sorted (glob data_folder (listing_pattern year)) in
  StronglySorted name_le files /\
  Forall (is_listing year) files /\
  exists rest, data_folder ≡ₚ files ++ rest /\ Forall (fun f => ~ is_listing year f) rest.
Proof.
  intros files. split; [apply sorted_sorted |]. split.
  - apply Forall_forall. intros f Hf. unfold files in Hf. rewrite sorted_perm in Hf.
    now apply glob_spec in Hf.
  - destruct (glob_split data_folder year) as (rest & Hp & Hr).
    exists rest. split; [| exact Hr]. unfold files. now rewrite sorted_perm.
Qed.

Lemma pd_concat_nonempty (dfs : list DataFrame) :
  dfs <> [] ->
  pd_concat dfs =
  Ok {| columns := fold_left union_columns (map columns dfs) [];
        rows := List.concat (map rows dfs) |}.
Proof. destruct dfs; [contradiction | reflexivity]. Qed.

(** C3 (amended). When every listing file of the folder parses and has
    the columns [cols], the loader returns a table whose rows are the rows
    of the listing files, file after file in the order of their names and
    in their original order within a file, each row tagged with its file's
    month; the row count is the sum of the files' row counts; and the
    columns are [cols] followed by ["month"] provided [cols] has no column
    of that name (otherwise the existing column is overwritten and no
    column is added). *)
Theorem load_monthly_listings_spec (data_folder : list Path) (year : Z) (cols : list string) :
  (exists f, f ∈ data_folder /\ is_listing year f) ->
  (forall f, f ∈ data_folder -> is_listing year f -> has_schema cols f) ->
  NoDup cols ->
  exists files rest full,
    load_monthly_listings data_folder year = Ok full /\
    data_folder ≡ₚ files ++ rest /\
    Forall (is_listing year) files /\
    Forall (fun f => ~ is_listing year f) rest /\
    StronglySorted name_le files /\
    rows full = List.concat (map tagged_rows files) /\
    df_len full = sum_list (map (fun f => length (csv_rows f)) files) /\
    ("month" ∉ cols -> columns full = (cols ++ ["month"])%list) /\
    ("month" ∈ cols -> columns full = cols).
Proof.
  intros (f0 & Hf0 & Hl0) Hschema Hnd.
  pose proof (listing_files_spec data_folder year) as Hfiles.
  rewrite load_monthly_listings_unfold.
  set (files := sorted (glob data_folder (listing_pattern year))) in *.
  cbv zeta in *. destruct Hfiles as (Hsorted & Hall & rest & Hperm & Hrest).
  assert (Hin : forall f, f ∈ files -> f ∈ data_folder /\ is_listing year f).
  { intros f Hf. unfold files in Hf. rewrite sorted_perm in Hf. now apply glob_spec in Hf. }
  assert (Hne : files <> []).
  { assert (f0 ∈ files) as H.
    { unfold files. rewrite sorted_perm. now apply glob_spec. }
    intros E. rewrite E in H. inversion H. }
  assert (Hloop : for_each load_file files = Ok (map tagged_frame files)).
  { apply for_each_ok. intros f Hf. destruct (Hin f Hf) as [Hd Hl].
    rewrite (load_file_listing f year Hl). unfold tagged_frame.
    destruct (Hschema f Hd Hl) as (df & -> & _). reflexivity. }
  assert (Hrows : map rows (map tagged_frame files) = map tagged_rows files).
  { rewrite map_map. apply map_ext_in. intros f Hf. apply list_elem_of_In in Hf.
    destruct (Hin f Hf) as [Hd Hl]. unfold tagged_frame, tagged_rows, csv_rows.
    destruct (Hschema f Hd Hl) as (df & -> & _). reflexivity. }
  assert (Hcols : Forall (fun cs => cs = add_column "month" cols)
                    (map columns (map tagged_frame files))).
  { rewrite map_map. apply Forall_map, Forall_forall. intros f Hf.
    destruct (Hin f Hf) as [Hd Hl]. unfold tagged_frame.
    destruct (Hschema f Hd Hl) as (df & -> & <-). reflexivity. }
  exists files, rest.
  exists {| columns := add_column "month" cols;
            rows := List.concat (map tagged_rows files) |}.
  split.
  { assert (Hne' : map tagged_frame files <> []).
    { intros E. apply Hne. now apply map_eq_nil in E. }
    destruct files as [|f files'] eqn:Efiles; [contradiction |].
    rewrite <- Efiles in *. rewrite Hloop. cbn [mbind result_bind].
    rewrite (pd_concat_nonempty _ Hne'), Hrows. f_equal. f_equal.
    apply union_columns_repeat; [now apply add_column_NoDup | | exact Hcols].
    intros E. apply Hne'. now apply map_eq_nil in E. }
  repeat split; try assumption.
  - unfold df_len. simpl. unfold tagged_rows.
    rewrite (length_concat_map (fun f => map _ (csv_rows f))).
    f_equal. apply map_ext. intros f. apply length_map.
  - intros H. simpl. now apply add_column_new.
  - intros H. simpl. now apply add_column_old.
Qed.


Lemma is_listing_fnmatch (year : Z) (f : Path) :
  is_listing year f <-> fnmatch (listing_pattern year) (name f) = true.
Proof. unfold is_listing. now rewrite listing_pattern_spec. Qed.

Lemma load_monthly_listings_spec_witness :
  exists files rest full,
    load_monthly_listings sample_folder 2025 = Ok full /\
    sample_folder ≡ₚ files ++ rest /\
    Forall (is_listing 2025) files /\
    Forall (fun f => ~ is_listing 2025 f) rest /\
    StronglySorted name_le files /\
    rows full = List.concat (map tagged_rows files) /\
    df_len full = sum_list (map (fun f => length (csv_rows f)) files) /\
    ("month" ∉ ["id"; "price"] -> columns full = (["id"; "price"] ++ ["month"])%list) /\
    ("month" ∈ ["id"; "price"] -> columns full = ["id"; "price"]).
Proof.
  apply (load_monthly_listings_spec sample_folder 2025 ["id"; "price"]).
  - exists (mkPath "listings_May_2025.csv" (Csv may_2025)). split; [left |].
    apply is_listing_fnmatch. reflexivity.
  - intros f Hf Hl. apply is_listing_fnmatch in Hl.
    unfold sample_folder in Hf.
    repeat (apply elem_of_cons in Hf as [-> | Hf]); try discriminate Hl;
      try (eexists; split; reflexivity).
    inversion Hf.
  - apply (bool_decide_unpack _). vm_compute. exact I.
Defined.

(** The sample folder loads to three rows: April's two, then May's one. *)
Example load_sample_folder :
  (fun df => (columns df, map (row_get "month") (rows df), map (row_get "price") (rows df)))
    <$> load_monthly_listings sample_folder 2025 =
  Ok (["id"; "price"; "month"],
      [CStr "April"; CStr "April"; CStr "May"],
      [CStr "$100.00"; CStr "$2,500.00"; CStr "$120.00"]).
Proof. vm_compute. reflexivity. Qed.

(** C3, counterexample. A snapshot that already has a column named
    [month] is loaded without any added column: the assignment overwrites
    the existing one. *)
Lemma loader_overwrites_month_column :
  exists full,
    load_monthly_listings folder_with_month 2025 = Ok full /\
    columns full = columns june_with_month /\
    map (row_get "month") (rows full) = [CStr "June"] /\
    ~ one_added_column (columns june_with_month) (columns full).
Proof.
  eexists. split; [vm_compute; reflexivity |]. cbn [columns rows].
  split; [reflexivity |]. split; [vm_compute; reflexivity |].
  intros (c & _ & Hp). apply Permutation_length in Hp. discriminate Hp.
Qed.

(** ** The errors of the loader *)

Section LoaderOutcome.

Lemma readable_or_not (f : Path) : readable f \/ ~ readable f.
Proof.
  unfold readable. destruct (content f) as [df | |]; [left; eauto | right ..];
    intros (df & H); discriminate H.
Qed.

(** Every file can be read, or there is a first one that cannot. *)
Lemma first_unreadable_split (files : list Path) :
  Forall readable files \/ exists f, first_unreadable files f.
Proof.
  induction files as [|g files IH]; [left; constructor |].
  destruct (readable_or_not g) as [Hg | Hg].
  - destruct IH as [Hall | (f & before & after & -> & Hb & Hf)].
    + left. now constructor.
    + right. exists f, (g :: before), after. repeat split; [now constructor | exact Hf].
  - right. exists g, [], files. repeat split; [constructor | exact Hg].
Qed.

Lemma first_unreadable_not_all (files : list Path) (f : Path) :
  first_unreadable files f -> Forall readable files -> False.
Proof.
  intros (before & after & -> & _ & Hf) Hall. apply Hf.
  rewrite Forall_forall in Hall. apply Hall. apply elem_of_app. right. left.
Qed.

(** The loop stops at the first file that cannot be read, with the error
    of [pd.read_csv]. *)
Lemma for_each_load_file (files : list Path) (year : Z) :
  Forall (is_listing year) files ->
  (Forall readable files ->
   exists dfs, for_each load_file files = Ok dfs /\ length dfs = length files) /\
  (forall f, first_unreadable files f ->
   for_each load_file files =
   Raise (match content f with Malformed => ParserError | _ => FileNotFoundError end)).
Proof.
  intros Hl. split.
  - intros Hr. induction files as [|g files IH]; [exists []; split; reflexivity |].
    apply Forall_cons in Hl as [Hg Hl], Hr as [(df & Hdf) Hr].
    destruct (IH Hl Hr) as (dfs & Hdfs & Hlen).
    eexists (_ :: dfs). cbn [for_each]. rewrite (load_file_listing g year Hg), Hdf, Hdfs.
    split; [reflexivity |]. cbn [length]. now rewrite Hlen.
  - intros f (before & after & -> & Hb & Hf).
    induction before as [|g before IH]; cbn [app for_each] in *.
    + apply Forall_cons in Hl as [Hg _]. rewrite (load_file_listing f year Hg).
      destruct (content f) as [df | |] eqn:Ec; [| reflexivity ..].
      exfalso. apply Hf. now exists df.
    + apply Forall_cons in Hl as [Hg Hl], Hb as [(df & Hdf) Hb].
      rewrite (load_file_listing g year Hg), Hdf, (IH Hl Hb). reflexivity.
Qed.

Lemma listing_files_listings (data_folder : list Path) (year : Z) :
  Forall (is_listing year) (listing_files data_folder year).
Proof.
  apply Forall_forall. intros f Hf. unfold listing_files in Hf.
  rewrite sorted_perm in Hf. now apply glob_spec in Hf.
Qed.


(** The four ways in which a call of the loader ends. *)
Lemma load_monthly_listings_outcome (data_folder : list Path) (year : Z) :
  (listing_files data_folder year = [] /\
   load_monthly_listings data_folder year = Raise FileNotFoundError) \/
  (listing_files data_folder year <> [] /\ Forall readable (listing_files data_folder year) /\
   exists df, load_monthly_listings data_folder year = Ok df) \/
  (exists f, first_unreadable (listing_files data_folder year) f /\
             load_monthly_listings data_folder year =
             Raise (match content f with Malformed => ParserError | _ => FileNotFoundError end)).
Proof.
  rewrite load_monthly_listings_unfold. cbv zeta.
  pose proof (for_each_load_file _ year (listing_files_listings data_folder year)) as [Hok Hraise].
  unfold listing_files in *.
  destruct (sorted (glob data_folder (listing_pattern year))) as [|g files] eqn:E;
    [now left | right].
  destruct (first_unreadable_split (g :: files)) as [Hall | (f & Hf)]; [left | right].
  - split; [discriminate |]. split; [exact Hall |].
    destruct (Hok Hall) as (dfs & -> & Hlen). cbn [mbind result_bind].
    destruct dfs as [|d dfs]; [discriminate Hlen |]. eexists. reflexivity.
  - exists f. split; [exact Hf |]. now rewrite (Hraise f Hf).
Qed.

End LoaderOutcome.



Example load_other_year : load_monthly_listings sample_folder 2023 = Raise FileNotFoundError.
Proof. reflexivity. Qed.


(** ** Printing and reading numbers *)

Section NumberText.


Lemma digits_no_other (c : ascii) (d : Decimal.uint) :
  is_digit c = false -> str_contains c (NilEmpty.string_of_uint d) = false.
Proof.
  intros Hc. induction d; simpl; rewrite ?IHd, ?orb_false_r; try reflexivity;
    destruct c as [[] [] [] [] [] [] [] []]; try reflexivity; discriminate Hc.
Qed.

Lemma digits_no_other_nz (c : ascii) :
  is_digit c = false -> forall d, str_contains c (NilZero.string_of_uint d) = false.
Proof.
  intros Hc d. destruct d; try exact (digits_no_other c _ Hc).
  simpl. rewrite orb_false_r.
  destruct c as [[] [] [] [] [] [] [] []]; try reflexivity; discriminate Hc.
Qed.

Lemma str_replace_absent (old : ascii) (new s : string) :
  str_contains old s = false -> str_replace old new s = s.
Proof.
  induction s as [|a s IH]; simpl; [reflexivity |].
  intros H. apply orb_false_iff in H as [Ha Hs]. now rewrite Ha, IH.
Qed.

Lemma uint_of_string_dot (a b : string) :
  NilEmpty.uint_of_string (a ++ String "." b) = None.
Proof.
  induction a as [|c a IH]; simpl.
  - now destruct (NilEmpty.uint_of_string b).
  - now rewrite IH.
Qed.

Lemma split_dot_app (a b : string) :
  str_contains "." a = false -> split_dot (a ++ String "." b) = (a, Some b).
Proof.
  induction a as [|c a IH]; simpl; [reflexivity |].
  intros H. apply orb_false_iff in H as [Hc Ha]. now rewrite Hc, IH.
Qed.

Lemma nz_string_of_uint (d : Decimal.uint) :
  d <> Decimal.Nil -> NilZero.string_of_uint d = NilEmpty.string_of_uint d.
Proof. destruct d; [contradiction | reflexivity ..]. Qed.

Lemma to_uint_nonnil (n : N) : N.to_uint n <> Decimal.Nil.
Proof. destruct n; [discriminate | apply DecimalPos.Unsigned.to_uint_nonnil]. Qed.

Lemma frac_uint_nonnil (f : N) : frac_uint f <> Decimal.Nil.
Proof. unfold frac_uint. intros H. apply rev_nil_inv in H. now apply to_uint_nonnil in H. Qed.

(** A digit string that stands at the front is not taken for a sign, for
    ["nan"] or for ["inf"]. *)
Lemma digits_head (d : Decimal.uint) (t : string) :
  d <> Decimal.Nil ->
  split_sign (NilEmpty.string_of_uint d ++ t) = (false, NilEmpty.string_of_uint d ++ t) /\
  String.eqb (NilEmpty.string_of_uint d ++ t) "nan" = false /\
  String.eqb (NilEmpty.string_of_uint d ++ t) "inf" = false /\
  NilEmpty.string_of_uint d <> "".
Proof. destruct d; [contradiction | repeat split; discriminate || reflexivity ..]. Qed.

Lemma str_N_spec (n : N) :
  exists d, d <> Decimal.Nil /\ str_N n = NilEmpty.string_of_uint d /\ N.of_uint d = n.
Proof.
  exists (N.to_uint n). split; [apply to_uint_nonnil |]. split.
  - apply nz_string_of_uint, to_uint_nonnil.
  - apply DecimalN.Unsigned.of_to.
Qed.

(** Reading back what [str] printed. *)
Lemma int_of_str_int (z : Z) : int_of_string (str_int z) = Some z.
Proof.
  unfold str_int, int_of_string.
  destruct z as [|p|p]; [reflexivity | |]; cbn [Z.to_int NilZero.string_of_int].
  - pose proof (DecimalPos.Unsigned.to_uint_nonnil p) as Hn.
    rewrite (nz_string_of_uint _ Hn).
    destruct (digits_head (Pos.to_uint p) "" Hn) as (Hs & _ & _ & Hne).
    rewrite str_app_nil_r in Hs. rewrite Hs.
    destruct (NilEmpty.string_of_uint (Pos.to_uint p)) eqn:E; [contradiction |].
    rewrite <- E, NilEmpty.usu.
    pose proof (DecimalN.Unsigned.of_to (N.pos p)) as Hp. cbn [N.to_uint] in Hp.
    now rewrite Hp.
  - pose proof (DecimalPos.Unsigned.to_uint_nonnil p) as Hn.
    rewrite (nz_string_of_uint _ Hn). cbn [split_sign].
    destruct (digits_head (Pos.to_uint p) "" Hn) as (_ & _ & _ & Hne).
    destruct (NilEmpty.string_of_uint (Pos.to_uint p)) eqn:E; [contradiction |].
    rewrite <- E, NilEmpty.usu.
    pose proof (DecimalN.Unsigned.of_to (N.pos p)) as Hp. cbn [N.to_uint] in Hp.
    now rewrite Hp.
Qed.

Lemma float_of_str_float (x : float64) : float_of_string (str_float x) = Some x.
Proof.
  destruct x as [|[]|s i f]; try reflexivity.
  unfold str_float, float_of_string.
  destruct (str_N_spec i) as (di & Hdi & -> & Hi).
  rewrite (nz_string_of_uint _ (frac_uint_nonnil f)).
  destruct (digits_head di ("." ++ NilEmpty.string_of_uint (frac_uint f)) Hdi)
    as (Hsign & Hnan & Hinf & Hne).
  pose proof (NilEmpty.usu di) as Hui.
  pose proof (NilEmpty.usu (frac_uint f)) as Huf.
  pose proof (digits_no_other "." di eq_refl) as Hdot.
  remember (NilEmpty.string_of_uint di) as si.
  remember (NilEmpty.string_of_uint (frac_uint f)) as sf.
  assert (Hbody : split_sign ((if s then "-" else "") ++ si ++ "." ++ sf) = (s, si ++ "." ++ sf)).
  { destruct s; [reflexivity | exact Hsign]. }
  rewrite Hbody, Hnan, Hinf.
  change ("." ++ sf) with (String "." sf).
  rewrite (split_dot_app si sf Hdot), Hui, Huf.
  destruct si; [contradiction |].
  unfold frac_uint. now rewrite rev_rev, DecimalN.Unsigned.of_to, Hi.
Qed.

Lemma int_of_str_float (x : float64) : int_of_string (str_float x) = None.
Proof.
  destruct x as [|[]|s i f]; try reflexivity.
  unfold str_float, int_of_string.
  destruct (str_N_spec i) as (di & Hdi & -> & Hi).
  set (sf := NilZero.string_of_uint (frac_uint f)).
  set (si := NilEmpty.string_of_uint di).
  destruct (digits_head di ("." ++ sf) Hdi) as (Hsign & _).
  assert (Hbody : split_sign ((if s then "-" else "") ++ si ++ "." ++ sf) = (s, si ++ "." ++ sf)).
  { destruct s; [reflexivity | exact Hsign]. }
  rewrite Hbody. change ("." ++ sf) with (String "." sf).
  destruct (si ++ String "." sf) eqn:E; [reflexivity |].
  now rewrite <- E, uint_of_string_dot.
Qed.

(** Neither printed form contains a currency sign or a thousands separator. *)
Lemma str_int_plain (c : ascii) (z : Z) :
  is_digit c = false -> c <> "-"%char -> str_contains c (str_int z) = false.
Proof.
  intros Hc Hm. unfold str_int.
  pose proof (digits_no_other_nz c Hc) as Hnz.
  destruct (Z.to_int z) as [d|d]; unfold NilZero.string_of_int; [apply Hnz |].
  cbn [str_contains]. rewrite Hnz, orb_false_r. apply Ascii.eqb_neq. congruence.
Qed.

Lemma str_float_plain (c : ascii) (x : float64) :
  is_digit c = false -> str_contains c "-.nanif" = false ->
  str_contains c (str_float x) = false.
Proof.
  intros Hc Hx.
  pose proof (digits_no_other_nz c Hc) as Hnz.
  destruct x as [|[]|s i f]; simpl;
    try (destruct c as [[] [] [] [] [] [] [] []]; try reflexivity; cbv in Hx; discriminate Hx).
  rewrite !str_contains_app. unfold str_N. rewrite !Hnz.
  cbn [str_contains]. rewrite Hnz.
  destruct s; destruct c as [[] [] [] [] [] [] [] []]; try reflexivity; cbv in Hx; discriminate Hx.
Qed.

End NumberText.


(** ** Tables: reading back what was assigned *)

Section TableFacts.

Lemma getitem_Ok (df : DataFrame) (c : string) (s : Series) :
  getitem df c = Ok s <-> c ∈ columns df /\ s = map (row_get c) (rows df).
Proof.
  unfold getitem. destruct (has_column c (columns df)) eqn:E.
  - apply has_column_spec in E. split; [intros [= <-]; now split | intros [_ ->]; reflexivity].
  - split; [discriminate |]. intros [H _]. apply has_column_spec in H. congruence.
Qed.

Lemma getitem_length (df : DataFrame) (c : string) (s : Series) :
  getitem df c = Ok s -> length s = df_len df.
Proof. intros H. apply getitem_Ok in H as [_ ->]. apply length_map. Qed.

Lemma setitem_Ok (df : DataFrame) (c : string) (s : Series) :
  length s = df_len df -> setitem df c s = Ok (set_column df c s).
Proof. intros H. unfold setitem. now rewrite H, Nat.eqb_refl. Qed.

Lemma add_column_has (c : string) (cols : list string) : c ∈ add_column c cols.
Proof.
  unfold add_column. destruct (has_column c cols) eqn:E.
  - now apply has_column_spec.
  - apply elem_of_app. right. left.
Qed.

Lemma add_column_keeps (c c' : string) (cols : list string) :
  c' ∈ cols -> c' ∈ add_column c cols.
Proof.
  intros H. unfold add_column. destruct (has_column c cols); [exact H |].
  apply elem_of_app. now left.
Qed.

Lemma add_column_twice (c : string) (cols : list string) :
  add_column c (add_column c cols) = add_column c cols.
Proof. apply add_column_old, add_column_has. Qed.

Lemma zip_insert_read (c : string) (rs : list (gmap string cell)) (s : Series) :
  length s = length rs ->
  map (row_get c) (zip_with (fun r v => <[c := v]> r) rs s) = s.
Proof.
  revert s. induction rs as [|r rs IH]; intros [|v s] H; try discriminate; [reflexivity |].
  simpl. f_equal.
  - unfold row_get. now rewrite lookup_insert_eq.
  - apply IH. now injection H.
Qed.

Lemma zip_insert_other (c c' : string) (rs : list (gmap string cell)) (s : Series) :
  c <> c' -> length s = length rs ->
  map (row_get c') (zip_with (fun r v => <[c := v]> r) rs s) = map (row_get c') rs.
Proof.
  intros Hne. revert s. induction rs as [|r rs IH]; intros [|v s] H; try discriminate; [reflexivity |].
  simpl. f_equal.
  - unfold row_get. now rewrite lookup_insert_ne.
  - apply IH. now injection H.
Qed.

Lemma zip_insert_twice (c : string) (rs : list (gmap string cell)) (s1 s2 : Series) :
  length s1 = length rs ->
  zip_with (fun r v => <[c := v]> r) (zip_with (fun r v => <[c := v]> r) rs s1) s2 =
  zip_with (fun r v => <[c := v]> r) rs s2.
Proof.
  revert s1 s2. induction rs as [|r rs IH]; intros [|v1 s1] [|v2 s2] H; try discriminate;
    try reflexivity.
  simpl. f_equal.
  - apply insert_insert_eq.
  - apply IH. now injection H.
Qed.

Lemma zip_insert_length (c : string) (rs : list (gmap string cell)) (s : Series) :
  length s = length rs ->
  length (zip_with (fun r v => <[c := v]> r) rs s) = length rs.
Proof. intros H. rewrite length_zip_with. lia. Qed.

Lemma set_column_len (df : DataFrame) (c : string) (s : Series) :
  length s = df_len df -> df_len (set_column df c s) = df_len df.
Proof. intros H. unfold df_len, set_column. simpl. now apply zip_insert_length. Qed.

Lemma set_column_twice (df : DataFrame) (c : string) (s1 s2 : Series) :
  length s1 = df_len df ->
  set_column (set_column df c s1) c s2 = set_column df c s2.
Proof.
  intros H. unfold set_column. simpl. f_equal.
  - apply add_column_twice.
  - now apply zip_insert_twice.
Qed.

Lemma getitem_set_column (df : DataFrame) (c : string) (s : Series) :
  length s = df_len df -> getitem (set_column df c s) c = Ok s.
Proof.
  intros H. apply getitem_Ok. split; [apply add_column_has |].
  symmetry. now apply zip_insert_read.
Qed.

Lemma getitem_set_column_other (df : DataFrame) (c c' : string) (s s' : Series) :
  c <> c' -> length s = df_len df -> getitem df c' = Ok s' ->
  getitem (set_column df c s) c' = Ok s'.
Proof.
  intros Hne H Hg. apply getitem_Ok in Hg as [Hc ->]. apply getitem_Ok.
  split; [now apply add_column_keeps |]. symmetry. now apply zip_insert_other.
Qed.

End TableFacts.

(** ** Running a computation on the store *)

Section StoreFacts.

Lemma bind_run {A B : Type} (m : M A) (f : A -> M B) (h : heap) :
  (m ≫= f) h =
  match m h with
  | (Ok a, h') => f a h'
  | (Raise e, h') => (Raise e, h')
  end.
Proof. reflexivity. Qed.

Lemma bind_run_Ok {A B : Type} (m : M A) (f : A -> M B) (h h' : heap) (a : A) :
  m h = (Ok a, h') -> (m ≫= f) h = f a h'.
Proof. intros H. now rewrite bind_run, H. Qed.

Lemma deref_run (h : heap) (l : loc) (df : DataFrame) :
  h !! l = Some df -> deref l h = (Ok df, h).
Proof. intros H. unfold deref. now rewrite H. Qed.

Lemma df_copy_run (h : heap) (l : loc) (df : DataFrame) :
  h !! l = Some df -> df_copy l h = (Ok (length h), (h ++ [df])%list).
Proof. intros H. unfold df_copy. now rewrite (bind_run_Ok _ _ _ _ _ (deref_run h l df H)). Qed.

Lemma df_getitem_run (h : heap) (l : loc) (df : DataFrame) (c : string) :
  h !! l = Some df -> df_getitem l c h = (getitem df c, h).
Proof. intros H. unfold df_getitem. now rewrite (bind_run_Ok _ _ _ _ _ (deref_run h l df H)). Qed.

Lemma df_setitem_run (h : heap) (l : loc) (df : DataFrame) (c : string) (s : Series) :
  h !! l = Some df -> length s = df_len df ->
  df_setitem l c s h = (Ok tt, <[l := set_column df c s]> h).
Proof.
  intros H Hlen. unfold df_setitem.
  rewrite (bind_run_Ok _ _ _ _ _ (deref_run h l df H)).
  rewrite bind_run. unfold lift. now rewrite (setitem_Ok df c s Hlen).
Qed.

Lemma py_len_run (h : heap) (l : loc) (df : DataFrame) :
  h !! l = Some df -> py_len l h = (Ok (df_len df), h).
Proof. intros H. unfold py_len. now rewrite (bind_run_Ok _ _ _ _ _ (deref_run h l df H)). Qed.

Lemma df_getitem_mask_run (h : heap) (l : loc) (df : DataFrame) (mask : list bool) :
  h !! l = Some df -> length mask = df_len df ->
  df_getitem_mask l mask h =
  (Ok (length h), (h ++ [{| columns := columns df; rows := select mask (rows df) |}])%list).
Proof.
  intros H Hlen. unfold df_getitem_mask.
  rewrite (bind_run_Ok _ _ _ _ _ (deref_run h l df H)).
  rewrite bind_run. unfold lift, getitem_mask. now rewrite Hlen, Nat.eqb_refl.
Qed.

Lemma lookup_fresh (h : heap) (df : DataFrame) : (h ++ [df])%list !! length h = Some df.
Proof. apply list_lookup_middle. reflexivity. Qed.

Lemma insert_fresh (h : heap) (df df' : DataFrame) :
  <[length h := df']> (h ++ [df])%list = (h ++ [df'])%list.
Proof. rewrite insert_app_r_alt by lia. now rewrite Nat.sub_diag. Qed.

End StoreFacts.


(** ** Facts about series *)

Section SeriesFacts.

Lemma to_numeric_str_numeric (t : string) : is_str (to_numeric_str t) = false.
Proof.
  unfold to_numeric_str. destruct (int_of_string t); [reflexivity |].
  destruct (float_of_string t); reflexivity.
Qed.

Lemma clean_price_numeric (c : cell) : is_str (clean_price c) = false.
Proof. apply to_numeric_str_numeric. Qed.

Lemma unify_numeric_length (s : Series) : length (unify_numeric s) = length s.
Proof. unfold unify_numeric. destruct (forallb is_int s); [reflexivity | apply length_map]. Qed.

Lemma series_map_length (d : gmap string Z) (s : Series) : length (series_map d s) = length s.
Proof. unfold series_map. now rewrite unify_numeric_length, length_map. Qed.

(** Converting an integer to a float does not change its value. *)
Lemma below_to_float_cell (x : float64) (c : cell) :
  is_str c = false -> below x (to_float_cell c) = below x c.
Proof. destruct c; [discriminate | reflexivity ..]. Qed.

Lemma to_float_cell_numeric (c : cell) : is_str (to_float_cell c) = false.
Proof. now destruct c. Qed.

Lemma unify_numeric_no_str (s : Series) :
  forallb (fun c => negb (is_str c)) (unify_numeric s) = true.
Proof.
  unfold unify_numeric. destruct (forallb is_int s) eqn:E.
  - apply forallb_forall. intros c Hc.
    rewrite forallb_forall in E. specialize (E c Hc). now destruct c.
  - apply forallb_forall. intros c Hc. apply in_map_iff in Hc as (c0 & <- & _).
    now rewrite to_float_cell_numeric.
Qed.

Lemma map_below_unify (x : float64) (s : Series) :
  forallb (fun c => negb (is_str c)) s = true ->
  map (below x) (unify_numeric s) = map (below x) s.
Proof.
  intros H. unfold unify_numeric. destruct (forallb is_int s); [reflexivity |].
  rewrite map_map. apply map_ext_in. intros c Hc.
  rewrite forallb_forall in H. specialize (H c Hc).
  apply below_to_float_cell. now destruct (is_str c).
Qed.

Lemma map_clean_price_no_str (s : Series) :
  forallb (fun c => negb (is_str c)) (map clean_price s) = true.
Proof.
  apply forallb_forall. intros c Hc. apply in_map_iff in Hc as (c0 & <- & _).
  now rewrite clean_price_numeric.
Qed.

(** Comparing a numeric column with a float never raises. *)
Lemma series_lt_numeric (s : Series) (x : float64) :
  forallb (fun c => negb (is_str c)) s = true ->
  series_lt s x = Ok (map (below x) s).
Proof.
  intros H. unfold series_lt. apply for_each_ok. intros c Hc.
  rewrite forallb_forall in H. specialize (H c (proj1 (list_elem_of_In _ _) Hc)).
  unfold cell_lt, below. destruct c; [discriminate | reflexivity ..].
Qed.

Lemma series_lt_length (s : Series) (x : float64) (mask : list bool) :
  series_lt s x = Ok mask -> length mask = length s.
Proof.
  unfold series_lt. revert mask. induction s as [|c s IH]; simpl; intros mask.
  - now intros [= <-].
  - destruct (cell_lt x c); [| discriminate].
    destruct (for_each (cell_lt x) s); [| discriminate].
    intros [= <-]. simpl. f_equal. now apply IH.
Qed.

(** A string is below no number, and so is the NaN that it turns into
    in a float column. *)
Lemma below_to_float_cell_any (x : float64) (c : cell) :
  below x (to_float_cell c) = below x c.
Proof.
  destruct c as [t | z | y]; [| reflexivity ..].
  unfold below. cbn [to_float_cell cell_value NaN float_value].
  now destruct (float_value x) as [|[]|].
Qed.

Lemma map_below_unify_any (x : float64) (s : Series) :
  map (below x) (unify_numeric s) = map (below x) s.
Proof.
  unfold unify_numeric. destruct (forallb is_int s); [reflexivity |].
  rewrite map_map. apply map_ext. intros c. apply below_to_float_cell_any.
Qed.

End SeriesFacts.

(** ** Cleaning, whatever the reader of numbers *)

Section ReaderFacts.

Context `{R : NumericReader}.

Lemma cleaned_prices_length (s : Series) : length (cleaned_prices s) = length s.
Proof. unfold cleaned_prices. now rewrite unify_numeric_length, length_map. Qed.

Lemma to_numeric_of_strings (s : Series) :
  to_numeric_coerce (series_str_replace "," "" (series_str_replace "$" "" (astype_str s))) =
  cleaned_prices s.
Proof.
  unfold to_numeric_coerce, cleaned_prices, series_str_replace, astype_str.
  rewrite !map_map. reflexivity.
Qed.

Lemma below_cleaned_prices (x : float64) (s : Series) :
  map (below x) (cleaned_prices s) = map (fun c => below x (clean_price c)) s.
Proof. unfold cleaned_prices. now rewrite map_below_unify_any, map_map. Qed.

End ReaderFacts.

(** ** The preprocessing steps in closed form *)

Section PreprocessingRuns.

Context `{R : NumericReader}.

Lemma clean_price_column_run (h : heap) (l : loc) (df : DataFrame) (c : string) (s : Series) :
  h !! l = Some df -> getitem df c = Ok s ->
  clean_price_column l c h =
  (Ok (length h), (h ++ [set_column df c (cleaned_prices s)])%list).
Proof.
  intros Hl Hs. unfold clean_price_column.
  pose proof (getitem_length df c s Hs) as Hlen.
  rewrite (bind_run_Ok _ _ _ _ _ (df_copy_run h l df Hl)).
  rewrite bind_run, (df_getitem_run _ _ df) by apply lookup_fresh. rewrite Hs.
  set (s1 := series_str_replace "," "" (series_str_replace "$" "" (astype_str s))).
  assert (Hlen1 : length s1 = df_len df).
  { unfold s1, series_str_replace, astype_str. now rewrite !length_map. }
  rewrite bind_run, (df_setitem_run _ _ df) by (apply lookup_fresh || exact Hlen1).
  rewrite insert_fresh.
  rewrite bind_run, (df_getitem_run _ _ (set_column df c s1)) by apply lookup_fresh.
  rewrite (getitem_set_column df c s1 Hlen1).
  rewrite bind_run, (df_setitem_run _ _ (set_column df c s1)); [| apply lookup_fresh |].
  - rewrite insert_fresh. unfold s1. rewrite to_numeric_of_strings.
    now rewrite set_column_twice.
  - rewrite set_column_len by exact Hlen1. unfold to_numeric_coerce.
    now rewrite unify_numeric_length, length_map.
Qed.

Lemma add_month_number_run (h : heap) (l : loc) (df : DataFrame)
    (month_col month_num_col : string) (s : Series) :
  h !! l = Some df -> getitem df month_col = Ok s ->
  add_month_number l month_col month_num_col h =
  (Ok (length h), (h ++ [set_column df month_num_col (series_map MONTH_MAPPING s)])%list).
Proof.
  intros Hl Hs. unfold add_month_number.
  pose proof (getitem_length df month_col s Hs) as Hlen.
  rewrite (bind_run_Ok _ _ _ _ _ (df_copy_run h l df Hl)).
  rewrite bind_run, (df_getitem_run _ _ df) by apply lookup_fresh. rewrite Hs.
  rewrite bind_run, (df_setitem_run _ _ df); [| apply lookup_fresh |].
  - now rewrite insert_fresh.
  - now rewrite series_map_length.
Qed.

Lemma filter_price_outliers_run (h : heap) (l : loc) (df : DataFrame) (max_price : float64)
    (c : string) (verbose : bool) (s : Series) (mask : list bool) :
  h !! l = Some df -> getitem df c = Ok s -> series_lt s max_price = Ok mask ->
  filter_price_outliers l max_price c verbose h =
  ((if verbose && Nat.eqb (df_len df) 0 then Raise ZeroDivisionError
    else Ok (S (length h))),
   (h ++ [selected df mask; selected df mask])%list).
Proof.
  intros Hl Hs Hm. unfold filter_price_outliers.
  pose proof (getitem_length df c s Hs) as Hlen.
  pose proof (series_lt_length s max_price mask Hm) as Hmlen.
  rewrite (bind_run_Ok _ _ _ _ _ (py_len_run h l df Hl)).
  rewrite bind_run, (df_getitem_run _ _ df c Hl), Hs.
  rewrite bind_run. unfold lift at 1. rewrite Hm.
  rewrite bind_run, (df_getitem_mask_run _ _ df) by (exact Hl || lia).
  fold (selected df mask).
  rewrite bind_run, (df_copy_run _ _ (selected df mask)) by apply lookup_fresh.
  rewrite bind_run, (py_len_run _ (length (h ++ [selected df mask])) (selected df mask))
    by apply lookup_fresh.
  rewrite <- app_assoc. cbn [app]. rewrite length_app. cbn [length]. rewrite Nat.add_1_r.
  destruct verbose; cbn [andb]; [| reflexivity].
  rewrite bind_run. unfold print_filter_report. rewrite bind_run. unfold lift, int_truediv.
  destruct (df_len df); reflexivity.
Qed.

End PreprocessingRuns.


(** ** The pipeline *)

Section Pipeline.

Context `{R : NumericReader}.

Lemma xlt_asym (x y : xQ) : xlt x y = true -> xlt y x = false.
Proof.
  destruct x as [|[]|p], y as [|[]|q]; simpl; try reflexivity; try discriminate.
  rewrite <- (Qcompare_antisym p q). destruct (Qcompare p q); simpl; discriminate || reflexivity.
Qed.

Lemma below_not_above (x : float64) (c : cell) : below x c = true -> above x c = false.
Proof.
  unfold below, above. destruct (cell_value c); [apply xlt_asym | discriminate].
Qed.

Lemma select_length {A : Type} (mask : list bool) (xs : list A) :
  (length (select mask xs) <= length xs)%nat.
Proof.
  revert xs. induction mask as [|b mask IH]; intros [|x xs]; simpl; try lia.
  specialize (IH xs). destruct b; simpl; lia.
Qed.

Lemma select_map_all {A : Type} (p : A -> bool) (xs : list A) :
  length (select (map p xs) xs) = length xs <-> Forall (fun x => p x = true) xs.
Proof.
  induction xs as [|x xs IH]; simpl.
  - split; [constructor | reflexivity].
  - pose proof (select_length (map p xs) xs) as Hle.
    destruct (p x) eqn:E; simpl.
    + rewrite Forall_cons. split.
      * intros H. split; [exact E |]. apply IH. lia.
      * intros [_ H]. f_equal. now apply IH.
    + split; [lia |]. intros H. apply Forall_cons in H as [H _]. congruence.
Qed.

Lemma select_map_In {A : Type} (p : A -> bool) (xs : list A) (x : A) :
  x ∈ select (map p xs) xs <-> x ∈ xs /\ p x = true.
Proof.
  induction xs as [|y xs IH]; simpl.
  - split; [intros H; inversion H | intros [H _]; inversion H].
  - destruct (p y) eqn:E.
    + rewrite !elem_of_cons, IH. split.
      * intros [-> | [H1 H2]]; auto.
      * intros [[-> | H1] H2]; auto.
    + rewrite elem_of_cons, IH. split.
      * intros [H1 H2]. auto.
      * intros [[-> | H1] H2]; [congruence | auto].
Qed.

(** The pipeline allocates four tables after the existing ones: the
    cleaned copy, the copy with month numbers, the selection and its copy. *)
Lemma preprocess_data_run (h : heap) (l : loc) (df : DataFrame) (max_price : float64)
    (verbose : bool) (s m : Series) :
  h !! l = Some df -> getitem df "price" = Ok s -> getitem df "month" = Ok m ->
  let df1 := set_column df "price" (cleaned_prices s) in
  let df2 := set_column df1 "month_num" (series_map MONTH_MAPPING m) in
  let out := selected df2 (map (fun r => below max_price (clean_price (price_of r))) (rows df)) in
  preprocess_data l max_price verbose h =
  ((if verbose && Nat.eqb (df_len df) 0 then Raise ZeroDivisionError
    else Ok (length h + 3)%nat),
   (h ++ [df1; df2; out; out])%list).
Proof.
  intros Hl Hs Hm df1 df2 out. unfold preprocess_data.
  pose proof (getitem_length df "price" s Hs) as Hslen.
  pose proof (getitem_length df "month" m Hm) as Hmlen.
  assert (Hlen1 : length (cleaned_prices s) = df_len df) by now rewrite cleaned_prices_length.
  assert (Hlen2 : length (series_map MONTH_MAPPING m) = df_len df1).
  { rewrite series_map_length. unfold df1. now rewrite set_column_len. }
  rewrite (bind_run_Ok _ _ _ _ _ (clean_price_column_run h l df "price" s Hl Hs)).
  fold df1.
  assert (Hm1 : getitem df1 "month" = Ok m).
  { apply getitem_set_column_other; [discriminate | exact Hlen1 | exact Hm]. }
  rewrite (bind_run_Ok _ _ _ _ _
             (add_month_number_run _ (length h) df1 "month" "month_num" m (lookup_fresh h df1) Hm1)).
  fold df2.
  assert (Hp2 : getitem df2 "price" = Ok (cleaned_prices s)).
  { apply getitem_set_column_other; [discriminate | exact Hlen2 |].
    now apply getitem_set_column. }
  assert (Hlt : series_lt (cleaned_prices s) max_price =
                Ok (map (fun r => below max_price (clean_price (price_of r))) (rows df))).
  { rewrite series_lt_numeric by apply unify_numeric_no_str.
    rewrite below_cleaned_prices.
    apply getitem_Ok in Hs as [_ ->]. now rewrite map_map. }
  rewrite bind_run.
  rewrite (filter_price_outliers_run _ (length (h ++ [df1])) df2 max_price "price" verbose
             _ _ (lookup_fresh _ df2) Hp2 Hlt).
  fold out.
  assert (Hlen : df_len df2 = df_len df).
  { unfold df2. rewrite set_column_len by exact Hlen2. unfold df1. now rewrite set_column_len. }
  rewrite Hlen, <- !app_assoc. cbn [app]. rewrite !length_app. cbn [length].
  destruct (verbose && Nat.eqb (df_len df) 0); [reflexivity |].
  unfold mret, M_ret. do 2 f_equal. lia.
Qed.

Lemma select_map {A B : Type} (f : A -> B) (mask : list bool) (xs : list A) :
  map f (select mask xs) = select mask (map f xs).
Proof.
  revert xs. induction mask as [|b mask IH]; intros [|x xs]; simpl; try reflexivity.
  destruct b; simpl; now rewrite IH.
Qed.

Lemma select_length_eq {A B : Type} (mask : list bool) (xs : list A) (ys : list B) :
  length xs = length ys -> length (select mask xs) = length (select mask ys).
Proof.
  revert xs ys. induction mask as [|b mask IH]; intros [|x xs] [|y ys] H;
    try discriminate; try reflexivity.
  injection H as H. destruct b; simpl; [f_equal |]; now apply IH.
Qed.

End Pipeline.


Lemma getitem_of_column (df : DataFrame) (c : string) :
  c ∈ columns df -> getitem df c = Ok (map (row_get c) (rows df)).
Proof. intros H. now apply getitem_Ok. Qed.

Lemma lookup_beyond (h k : heap) (i : nat) : (h ++ k)%list !! (length h + i)%nat = k !! i.
Proof. rewrite lookup_app_r by lia. f_equal. lia. Qed.

Lemma lookup_kept (h k : heap) (l : loc) (df : DataFrame) :
  h !! l = Some df -> (h ++ k)%list !! l = Some df.
Proof. apply lookup_app_l_Some. Qed.

Section RowCount.

Context `{R : NumericReader}.

(** C1 (amended). On a table with a price and a month column that is not
    empty (or with the report switched off) the pipeline returns a table
    with at most as many rows as the input, and with as many exactly when
    every input price cleans to a number strictly below the ceiling; in
    that case no price exceeds the ceiling.  The number that a price text
    cleans to is the one that the reader of [pd.to_numeric] gives it,
    whichever reader that is. *)
Theorem preprocess_data_row_count (h : heap) (l : loc) (df : DataFrame)
    (max_price : float64) (verbose : bool) :
  h !! l = Some df ->
  "price" ∈ columns df -> "month" ∈ columns df ->
  verbose = false \/ rows df <> [] ->
  exists l' out h',
    preprocess_data l max_price verbose h = (Ok l', h') /\
    h' !! l' = Some out /\
    (df_len out <= df_len df)%nat /\
    (df_len out = df_len df <->
     Forall (fun r => below max_price (clean_price (price_of r)) = true) (rows df)) /\
    (df_len out = df_len df ->
     Forall (fun r => above max_price (clean_price (price_of r)) = false) (rows df)).
Proof.
  intros Hl Hp Hm Hv.
  pose proof (preprocess_data_run h l df max_price verbose _ _ Hl
                (getitem_of_column df "price" Hp) (getitem_of_column df "month" Hm)) as Hrun.
  cbv zeta in Hrun.
  set (s := map (row_get "price") (rows df)) in *.
  set (m := map (row_get "month") (rows df)) in *.
  set (p := fun r => below max_price (clean_price (price_of r))) in *.
  set (df2 := set_column (set_column df "price" (cleaned_prices s)) "month_num"
                (series_map MONTH_MAPPING m)) in *.
  assert (Hno : verbose && Nat.eqb (df_len df) 0 = false).
  { destruct Hv as [-> | Hne]; [reflexivity |].
    unfold df_len. destruct (rows df); [contradiction | apply andb_false_r]. }
  rewrite Hno in Hrun.
  eexists (length h + 3)%nat, (selected df2 (map p (rows df))), _.
  split; [exact Hrun |].
  assert (Hlen : df_len (selected df2 (map p (rows df))) =
                 length (select (map p (rows df)) (rows df))).
  { unfold df_len, selected. cbn [rows]. apply select_length_eq.
    change (df_len df2 = df_len df). unfold df2.
    rewrite !set_column_len; try reflexivity.
    - unfold s. now rewrite cleaned_prices_length, length_map.
    - rewrite series_map_length, set_column_len; unfold m, s;
        now rewrite ?cleaned_prices_length, length_map. }
  assert (Hiff : df_len (selected df2 (map p (rows df))) = df_len df <->
                 Forall (fun r => p r = true) (rows df)).
  { rewrite Hlen. apply select_map_all. }
  split; [| split; [| split]].
  - now rewrite lookup_beyond.
  - rewrite Hlen. apply select_length.
  - exact Hiff.
  - intros H. apply Hiff in H. eapply Forall_impl; [exact H |].
    intros r Hr. now apply below_not_above.
Qed.

End RowCount.

Lemma preprocess_data_row_count_witness :
  exists l' out h',
    preprocess_data 0 default_max_price true [raw_listings] = (Ok l', h') /\
    h' !! l' = Some out /\
    (df_len out <= df_len raw_listings)%nat /\
    (df_len out = df_len raw_listings <->
     Forall (fun r => below default_max_price (clean_price (price_of r)) = true)
       (rows raw_listings)) /\
    (df_len out = df_len raw_listings ->
     Forall (fun r => above default_max_price (clean_price (price_of r)) = false)
       (rows raw_listings)).
Proof.
  apply (preprocess_data_row_count [raw_listings] 0 raw_listings default_max_price true).
  - reflexivity.
  - set_solver.
  - set_solver.
  - right. discriminate.
Defined.

(** The specification's own example: of the prices $100, $2,500 and
    $6,000 the first two are retained, as 100 and 2500; the row priced
    "on request" is dropped with the outlier. *)
Example preprocess_raw_listings :
  match preprocess_data 0 default_max_price true [raw_listings] with
  | (Ok l', h') => (fun out => (map price_of (rows out), map (row_get "month_num") (rows out))) <$> h' !! l'
  | (Raise _, _) => None
  end =
  Some ([CFloat (FFin false 100 0); CFloat (FFin false 2500 0)], [CInt 5; CInt 6]).
Proof. vm_compute. reflexivity. Qed.

(** C1, counterexample. A listing priced exactly at the ceiling does not
    exceed it, and is removed all the same. *)
Lemma preprocess_at_ceiling :
  exists out h',
    preprocess_data 0 default_max_price true [at_ceiling] = (Ok 4%nat, h') /\
    h' !! 4%nat = Some out /\
    df_len out = 0%nat /\
    ~ row_count_claim default_max_price at_ceiling out.
Proof.
  eexists. eexists. split; [vm_compute; reflexivity |].
  split; [reflexivity |]. split; [reflexivity |].
  intros [_ [_ H]].
  assert (Hf : Forall (fun r => above default_max_price (clean_price (price_of r)) = false)
                 (rows at_ceiling)).
  { repeat constructor. }
  apply H in Hf. discriminate Hf.
Qed.

Section PipelinePrices.

Context `{R : NumericReader}.

(** The prices that leave the pipeline are the cleaned prices strictly
    below the ceiling, in their order: a price that did not parse is NaN
    after cleaning and does not get through.  This holds whichever reader
    of numbers [pd.to_numeric] uses. *)
Lemma preprocess_data_prices (h : heap) (l : loc) (df : DataFrame)
    (max_price : float64) (verbose : bool) (s : Series) :
  h !! l = Some df ->
  getitem df "price" = Ok s -> "month" ∈ columns df ->
  verbose = false \/ rows df <> [] ->
  exists l' out h',
    preprocess_data l max_price verbose h = (Ok l', h') /\
    h' !! l' = Some out /\
    map price_of (rows out) =
      select (map (below max_price) (cleaned_prices s)) (cleaned_prices s) /\
    Forall (fun r => below max_price (price_of r) = true /\ price_of r <> NaN) (rows out).
Proof.
  intros Hl Hs Hm Hv.
  pose proof (preprocess_data_run h l df max_price verbose _ _ Hl Hs
                (getitem_of_column df "month" Hm)) as Hrun.
  cbv zeta in Hrun.
  set (m := map (row_get "month") (rows df)) in *.
  set (df2 := set_column (set_column df "price" (cleaned_prices s)) "month_num"
                (series_map MONTH_MAPPING m)) in *.
  assert (Hno : verbose && Nat.eqb (df_len df) 0 = false).
  { destruct Hv as [-> | Hne]; [reflexivity |].
    unfold df_len. destruct (rows df); [contradiction | apply andb_false_r]. }
  rewrite Hno in Hrun.
  pose proof (getitem_length df "price" s Hs) as Hslen.
  assert (Hp2 : getitem df2 "price" = Ok (cleaned_prices s)).
  { apply getitem_set_column_other; [discriminate | |].
    - rewrite series_map_length, set_column_len; unfold m;
        now rewrite ?cleaned_prices_length, ?length_map.
    - apply getitem_set_column. now rewrite cleaned_prices_length. }
  assert (Hmask : map (fun r => below max_price (clean_price (price_of r))) (rows df) =
                  map (below max_price) (cleaned_prices s)).
  { rewrite below_cleaned_prices. apply getitem_Ok in Hs as [_ ->]. now rewrite map_map. }
  rewrite Hmask in Hrun.
  assert (Hprices : map price_of (rows (selected df2 (map (below max_price) (cleaned_prices s)))) =
                    select (map (below max_price) (cleaned_prices s)) (cleaned_prices s)).
  { cbn [selected rows]. rewrite select_map. f_equal.
    apply getitem_Ok in Hp2 as [_ Hp2]. symmetry. exact Hp2. }
  eexists (length h + 3)%nat, _, _. split; [exact Hrun |].
  split; [now rewrite lookup_beyond |]. split; [exact Hprices |].
  apply Forall_forall. intros r Hr.
  assert (Hc : price_of r ∈ map price_of (rows (selected df2 (map (below max_price) (cleaned_prices s))))).
  { apply list_elem_of_In, in_map, list_elem_of_In, Hr. }
  rewrite Hprices in Hc. apply select_map_In in Hc as [_ Hb].
  split; [exact Hb |]. intros E. rewrite E in Hb. discriminate Hb.
Qed.

End PipelinePrices.

(** C10. Whenever a table with a numeric price column has a row whose
    price is NaN, outlier filtering returns the rows whose price is
    strictly below the ceiling, in their order: the row with the NaN price
    is not among them, and no returned row has a NaN price. *)
Theorem filter_price_outliers_drops_missing (h : heap) (l : loc) (df : DataFrame)
    (max_price : float64) (c : string) (verbose : bool) (s : Series) (i : nat) :
  h !! l = Some df ->
  getitem df c = Ok s ->
  forallb (fun x => negb (is_str x)) s = true ->
  s !! i = Some NaN ->
  exists out mask,
    filter_price_outliers l max_price c verbose h =
      (Ok (S (length h)), (h ++ [out; out])%list) /\
    columns out = columns df /\
    rows out = select mask (rows df) /\
    mask = map (fun r => below max_price (row_get c r)) (rows df) /\
    mask !! i = Some false /\
    Forall (fun r => row_get c r <> NaN) (rows out).
Proof.
  intros Hl Hs Hnum Hi.
  pose proof (series_lt_numeric s max_price Hnum) as Hlt.
  pose proof (filter_price_outliers_run h l df max_price c verbose s _ Hl Hs Hlt) as Hrun.
  apply getitem_Ok in Hs as [Hc Hs'].
  assert (Hne : verbose && Nat.eqb (df_len df) 0 = false).
  { unfold df_len. subst s. destruct (rows df); [| apply andb_false_r].
    destruct i; discriminate Hi. }
  rewrite Hne in Hrun.
  assert (Hmask : map (below max_price) s = map (fun r => below max_price (row_get c r)) (rows df)).
  { rewrite Hs'. apply map_map. }
  exists (selected df (map (below max_price) s)), (map (below max_price) s).
  split; [exact Hrun |]. split; [reflexivity |]. split; [reflexivity |].
  split; [exact Hmask |]. split.
  - change (map (below max_price) s) with (below max_price <$> s).
    rewrite list_lookup_fmap, Hi. reflexivity.
  - cbn [selected rows]. rewrite Hmask. apply Forall_forall. intros r Hr.
    apply select_map_In in Hr as [_ Hb]. intros E. rewrite E in Hb. discriminate Hb.
Qed.

Lemma filter_price_outliers_drops_missing_witness :
  exists out mask,
    filter_price_outliers 0 default_max_price "price" true [numeric_listings] =
      (Ok 2%nat, [numeric_listings; out; out]) /\
    columns out = columns numeric_listings /\
    rows out = select mask (rows numeric_listings) /\
    mask = map (fun r => below default_max_price (row_get "price" r)) (rows numeric_listings) /\
    mask !! 1%nat = Some false /\
    Forall (fun r => row_get "price" r <> NaN) (rows out).
Proof.
  refine (filter_price_outliers_drops_missing [numeric_listings] 0 numeric_listings
            default_max_price "price" true
            [CFloat (FFin false 100 0); CFloat FNaN; CFloat (FFin false 2500 5)] 1 _ _ _ _).
  - reflexivity.
  - vm_compute. reflexivity.
  - reflexivity.
  - reflexivity.
Defined.


(** ** Cleaning a clean column *)

Section Idempotence.

Lemma clean_price_int (z : Z) : clean_price (CInt z) = CInt z.
Proof.
  unfold clean_price. cbn [cell_str].
  rewrite (str_replace_absent "$") by (apply str_int_plain; [reflexivity | discriminate]).
  rewrite (str_replace_absent ",") by (apply str_int_plain; [reflexivity | discriminate]).
  unfold read_number, plain_reader, to_numeric_str. now rewrite int_of_str_int.
Qed.

Lemma clean_price_float (x : float64) : clean_price (CFloat x) = CFloat x.
Proof.
  unfold clean_price. cbn [cell_str].
  rewrite (str_replace_absent "$") by (apply str_float_plain; reflexivity).
  rewrite (str_replace_absent ",") by (apply str_float_plain; reflexivity).
  unfold read_number, plain_reader, to_numeric_str. now rewrite int_of_str_float, float_of_str_float.
Qed.

Lemma clean_price_number (c : cell) : is_str c = false -> clean_price c = c.
Proof. destruct c; [discriminate | intros _ ..]; [apply clean_price_int | apply clean_price_float]. Qed.

Lemma map_id_on {A : Type} (f : A -> A) (xs : list A) :
  (forall x, In x xs -> f x = x) -> map f xs = xs.
Proof.
  induction xs as [|x xs IH]; intros H; simpl; [reflexivity |].
  rewrite H by now left. f_equal. apply IH. intros y Hy. apply H. now right.
Qed.

Lemma unify_numeric_fixed (s : Series) : numeric_series s -> unify_numeric s = s.
Proof.
  intros [Hi | Hf]; unfold unify_numeric.
  - now rewrite Hi.
  - destruct (forallb is_int s); [reflexivity |].
    apply map_id_on. intros c Hc. rewrite forallb_forall in Hf. specialize (Hf c Hc).
    destruct c; try discriminate. reflexivity.
Qed.

Lemma unify_numeric_numeric (s : Series) : numeric_series (unify_numeric s).
Proof.
  unfold unify_numeric. destruct (forallb is_int s) eqn:E; [now left | right].
  apply forallb_forall. intros c Hc. apply in_map_iff in Hc as (c0 & <- & _). now destruct c0.
Qed.

Lemma numeric_series_no_str (s : Series) (c : cell) :
  numeric_series s -> In c s -> is_str c = false.
Proof.
  intros [H | H] Hc; rewrite forallb_forall in H; specialize (H c Hc); now destruct c.
Qed.

(** A column that is already numeric is left as it is. *)
Lemma cleaned_prices_numeric (s : Series) : numeric_series s -> cleaned_prices s = s.
Proof.
  intros H. unfold cleaned_prices.
  rewrite (map_id_on clean_price s).
  - now apply unify_numeric_fixed.
  - intros c Hc. apply clean_price_number. now apply (numeric_series_no_str s).
Qed.

Lemma cleaned_prices_idempotent (s : Series) :
  cleaned_prices (cleaned_prices s) = cleaned_prices s.
Proof. apply cleaned_prices_numeric, unify_numeric_numeric. Qed.

Lemma getitem_set_column_same_columns (df : DataFrame) (c c' : string) (s : Series) :
  c ∈ columns df -> c <> c' -> length s = df_len df ->
  getitem (set_column df c s) c' = getitem df c'.
Proof.
  intros Hc Hne Hlen. unfold getitem, set_column. cbn [columns rows].
  rewrite (add_column_old c (columns df) Hc).
  destruct (has_column c' (columns df)); [| reflexivity].
  f_equal. now apply zip_insert_other.
Qed.

(** C5. Cleaning the price column of a table and then cleaning the
    result again yields the same table as cleaning once; and when the
    price column is already numeric (integers, or floats with NaN for
    missing prices), cleaning returns a table whose columns all hold the
    values they held before. *)
Theorem clean_price_column_idempotent (h : heap) (l : loc) (df : DataFrame)
    (c : string) (s : Series) :
  h !! l = Some df ->
  getitem df c = Ok s ->
  exists once,
    clean_price_column l c h = (Ok (length h), (h ++ [once])%list) /\
    clean_price_column (length h) c (h ++ [once])%list =
      (Ok (S (length h)), (h ++ [once; once])%list) /\
    (numeric_series s -> forall c', getitem once c' = getitem df c').
Proof.
  intros Hl Hs. exists (set_column df c (cleaned_prices s)).
  pose proof (getitem_length df c s Hs) as Hlen.
  assert (Hclen : length (cleaned_prices s) = df_len df) by now rewrite cleaned_prices_length.
  split; [now apply clean_price_column_run |]. split.
  - rewrite (clean_price_column_run (h ++ [set_column df c (cleaned_prices s)]) (length h)
               (set_column df c (cleaned_prices s)) c (cleaned_prices s)).
    + rewrite set_column_twice by exact Hclen. rewrite cleaned_prices_idempotent.
      rewrite length_app, <- app_assoc. cbn [length app]. now rewrite Nat.add_1_r.
    + apply lookup_fresh.
    + now apply getitem_set_column.
  - intros Hnum c'. rewrite (cleaned_prices_numeric s Hnum).
    destruct (String.eqb_spec c c') as [<- | Hne].
    + rewrite Hs. now apply getitem_set_column.
    + apply getitem_set_column_same_columns; try assumption.
      now apply getitem_Ok in Hs as [Hc _].
Qed.

Lemma clean_price_column_idempotent_witness :
  exists once,
    clean_price_column 0 "price" [numeric_listings] = (Ok 1%nat, [numeric_listings; once]) /\
    clean_price_column 1 "price" [numeric_listings; once] =
      (Ok 2%nat, [numeric_listings; once; once]) /\
    (numeric_series [CFloat (FFin false 100 0); CFloat FNaN; CFloat (FFin false 2500 5)] ->
     forall c', getitem once c' = getitem numeric_listings c').
Proof.
  refine (clean_price_column_idempotent [numeric_listings] 0 numeric_listings "price"
            [CFloat (FFin false 100 0); CFloat FNaN; CFloat (FFin false 2500 5)] _ _).
  - reflexivity.
  - vm_compute. reflexivity.
Defined.

(** Cleaning the specification's three prices, and cleaning them again. *)
Example clean_raw_listings_twice :
  cleaned_prices [CStr "$100"; CStr "$2,500.50"; CStr "on request"] =
    [CFloat (FFin false 100 0); CFloat (FFin false 2500 5); CFloat FNaN] /\
  cleaned_prices [CFloat (FFin false 100 0); CFloat (FFin false 2500 5); CFloat FNaN] =
    [CFloat (FFin false 100 0); CFloat (FFin false 2500 5); CFloat FNaN].
Proof. split; reflexivity. Qed.

End Idempotence.


(** ** The caller's table *)

Section Frame.

Lemma fresh_result_keeps (h : heap) (r : result loc * heap) (l : loc) (df : DataFrame) :
  fresh_result h r -> h !! l = Some df -> r.2 !! l = Some df.
Proof. intros [(k & ->) _] H. now apply lookup_kept. Qed.

Lemma fresh_result_raise (h : heap) (k : heap) (e : exn) :
  fresh_result h (Raise e, (h ++ k)%list).
Proof. split; [now exists k | discriminate]. Qed.

Lemma fresh_result_ok (h : heap) (k : heap) (l' : loc) :
  (length h <= l' < length h + length k)%nat -> fresh_result h (Ok l', (h ++ k)%list).
Proof.
  intros H. split; [now exists k |]. intros l'' [= <-]. cbn [snd]. rewrite length_app. exact H.
Qed.

Lemma fresh_result_here (h : heap) (e : exn) : fresh_result h (Raise e, h).
Proof. rewrite <- (app_nil_r h) at 2. apply fresh_result_raise. Qed.

Lemma fresh_result_bind (h : heap) (m : M loc) (f : loc -> M loc) :
  fresh_result h (m h) ->
  (forall l1 h1, m h = (Ok l1, h1) -> fresh_result h1 (f l1 h1)) ->
  fresh_result h ((m ≫= f) h).
Proof.
  intros Hm Hf. rewrite bind_run. destruct (m h) as [[l1|e] h1] eqn:E.
  - destruct Hm as [(k1 & Hk1) _]. cbn [snd] in Hk1. subst h1.
    destruct (Hf l1 _ eq_refl) as [(k2 & Hk2) Hl].
    split.
    + exists (k1 ++ k2)%list. now rewrite Hk2, app_assoc.
    + intros l' Hl'. specialize (Hl l' Hl'). rewrite length_app in Hl. lia.
  - destruct Hm as [(k1 & Hk1) _]. cbn [snd] in Hk1. subst h1. apply fresh_result_raise.
Qed.

Lemma bind_mret {A : Type} (m : M A) (h : heap) : (m ≫= mret) h = m h.
Proof. rewrite bind_run. now destruct (m h) as [[a|e] h']. Qed.

Lemma df_copy_raises (h : heap) (l : loc) :
  h !! l = None -> df_copy l h = (Raise ReferenceError, h).
Proof. intros H. unfold df_copy. rewrite bind_run. unfold deref. now rewrite H. Qed.

Lemma py_len_raises (h : heap) (l : loc) :
  h !! l = None -> py_len l h = (Raise ReferenceError, h).
Proof. intros H. unfold py_len. rewrite bind_run. unfold deref. now rewrite H. Qed.

Lemma clean_price_column_frame (h : heap) (l : loc) (c : string) :
  fresh_result h (clean_price_column l c h).
Proof.
  destruct (h !! l) as [df|] eqn:Hl.
  - destruct (getitem df c) as [s|e] eqn:Hs.
    + rewrite (clean_price_column_run h l df c s Hl Hs).
      apply fresh_result_ok. cbn. lia.
    + unfold clean_price_column.
      rewrite (bind_run_Ok _ _ _ _ _ (df_copy_run h l df Hl)).
      rewrite bind_run, (df_getitem_run _ _ df) by apply lookup_fresh. rewrite Hs.
      apply fresh_result_raise.
  - unfold clean_price_column. rewrite bind_run, (df_copy_raises h l Hl).
    apply fresh_result_here.
Qed.

Lemma add_month_number_frame (h : heap) (l : loc) (month_col month_num_col : string) :
  fresh_result h (add_month_number l month_col month_num_col h).
Proof.
  destruct (h !! l) as [df|] eqn:Hl.
  - destruct (getitem df month_col) as [s|e] eqn:Hs.
    + rewrite (add_month_number_run h l df month_col month_num_col s Hl Hs).
      apply fresh_result_ok. cbn. lia.
    + unfold add_month_number.
      rewrite (bind_run_Ok _ _ _ _ _ (df_copy_run h l df Hl)).
      rewrite bind_run, (df_getitem_run _ _ df) by apply lookup_fresh. rewrite Hs.
      apply fresh_result_raise.
  - unfold add_month_number. rewrite bind_run, (df_copy_raises h l Hl).
    apply fresh_result_here.
Qed.

Lemma filter_price_outliers_frame (h : heap) (l : loc) (max_price : float64) (c : string)
    (verbose : bool) :
  fresh_result h (filter_price_outliers l max_price c verbose h).
Proof.
  destruct (h !! l) as [df|] eqn:Hl.
  - destruct (getitem df c) as [s|e] eqn:Hs.
    + destruct (series_lt s max_price) as [mask|e] eqn:Hm.
      * rewrite (filter_price_outliers_run h l df max_price c verbose s mask Hl Hs Hm).
        destruct (verbose && Nat.eqb (df_len df) 0); [apply fresh_result_raise |].
        apply fresh_result_ok. cbn. lia.
      * unfold filter_price_outliers.
        rewrite (bind_run_Ok _ _ _ _ _ (py_len_run h l df Hl)).
        rewrite bind_run, (df_getitem_run _ _ df c Hl), Hs.
        rewrite bind_run. unfold lift at 1. rewrite Hm. apply fresh_result_here.
    + unfold filter_price_outliers.
      rewrite (bind_run_Ok _ _ _ _ _ (py_len_run h l df Hl)).
      rewrite bind_run, (df_getitem_run _ _ df c Hl), Hs. apply fresh_result_here.
  - unfold filter_price_outliers. rewrite bind_run, (py_len_raises h l Hl).
    apply fresh_result_here.
Qed.

Lemma preprocess_data_frame (h : heap) (l : loc) (max_price : float64) (verbose : bool) :
  fresh_result h (preprocess_data l max_price verbose h).
Proof.
  unfold preprocess_data.
  apply fresh_result_bind; [apply clean_price_column_frame |]. intros l1 h1 _.
  apply fresh_result_bind; [apply add_month_number_frame |]. intros l2 h2 _.
  rewrite bind_mret. apply filter_price_outliers_frame.
Qed.

(** No step of the pipeline writes to a table that existed before the
    call, whatever the outcome; a table that a step returns did not exist
    before. *)
Lemma preprocessing_frame (h : heap) (l l0 : loc) (df0 : DataFrame) (c c' : string)
    (max_price : float64) (verbose : bool) :
  h !! l0 = Some df0 ->
  (clean_price_column l c h).2 !! l0 = Some df0 /\
  (add_month_number l c c' h).2 !! l0 = Some df0 /\
  (filter_price_outliers l max_price c verbose h).2 !! l0 = Some df0 /\
  (preprocess_data l max_price verbose h).2 !! l0 = Some df0 /\
  (forall l', (clean_price_column l c h).1 = Ok l' \/
              (add_month_number l c c' h).1 = Ok l' \/
              (filter_price_outliers l max_price c verbose h).1 = Ok l' \/
              (preprocess_data l max_price verbose h).1 = Ok l' ->
              h !! l' = None).
Proof.
  intros H0.
  pose proof (clean_price_column_frame h l c) as H1.
  pose proof (add_month_number_frame h l c c') as H2.
  pose proof (filter_price_outliers_frame h l max_price c verbose) as H3.
  pose proof (preprocess_data_frame h l max_price verbose) as H4.
  repeat split; try (eapply fresh_result_keeps; eassumption).
  intros l' Hl'. apply lookup_ge_None.
  destruct Hl' as [E | [E | [E | E]]];
    [apply H1 in E | apply H2 in E | apply H3 in E | apply H4 in E]; lia.
Qed.

(** C6, failing input. On a table without rows the report of
    [filter_price_outliers] divides by the row count: with [verbose] left
    at its default the filter, and with it the pipeline, raises
    [ZeroDivisionError] instead of returning a table; with the report off
    both return. *)
Theorem preprocessing_raises_on_empty_table :
  (filter_price_outliers 0 default_max_price "price" true [no_listings]).1 =
    Raise ZeroDivisionError /\
  (preprocess_data 0 default_max_price true [no_listings]).1 = Raise ZeroDivisionError /\
  (filter_price_outliers 0 default_max_price "price" false [no_listings]).1 = Ok 2%nat /\
  (preprocess_data 0 default_max_price false [no_listings]).1 = Ok 4%nat /\
  (clean_price_column 0 "price" [no_listings]).1 = Ok 1%nat /\
  (add_month_number 0 "month" "month_num" [no_listings]).1 = Ok 1%nat.
Proof. repeat split; vm_compute; reflexivity. Qed.

End Frame.


(** ** Means of finite prices *)

Section Means.

Lemma xsum_from (qs : list Q) (a : Q) :
  exists q, fold_left xadd (map XFin qs) (XFin a) = XFin q /\ (q == a + Qsum qs)%Q.
Proof.
  revert a. induction qs as [|p qs IH]; intros a; simpl.
  - exists a. split; [reflexivity | ring].
  - destruct (IH (Qred (a + p))) as (q & Hq & Eq). exists q. split; [exact Hq |].
    rewrite Eq, Qred_correct. ring.
Qed.

Lemma xsum_finite (qs : list Q) : exists q, xsum (map XFin qs) = XFin q /\ (q == Qsum qs)%Q.
Proof.
  destruct (xsum_from qs 0) as (q & Hq & Eq). exists q. split; [exact Hq |].
  rewrite Eq. ring.
Qed.

Lemma Qzero_b_spec (q : Q) : Qzero_b q = true <-> Qeq q 0.
Proof.
  unfold Qzero_b. rewrite Qeq_alt. destruct (Qcompare q 0); split; congruence.
Qed.

Lemma Qzero_b_false (q : Q) : ~ Qeq q 0 -> Qzero_b q = false.
Proof. intros H. destruct (Qzero_b q) eqn:E; [| reflexivity]. now apply Qzero_b_spec in E. Qed.

Lemma count_nonzero (n : nat) : n <> O -> ~ Qeq (inject_Z (Z.of_nat n)) 0.
Proof. intros Hn E. unfold Qeq in E. simpl in E. lia. Qed.

Lemma xdiv_finite (p q : Q) :
  ~ Qeq q 0 -> exists r, xdiv (XFin p) (XFin q) = XFin r /\ (r == p / q)%Q.
Proof.
  intros Hq. exists (Qred (p / q)). split; [| apply Qred_correct].
  simpl. now rewrite (Qzero_b_false q Hq).
Qed.

Lemma numeric_values_finite (s : Series) (qs : list Q) :
  finite_values s = Some qs ->
  exists xs, numeric_values s = Ok xs /\ dropna xs = map XFin qs.
Proof.
  unfold numeric_values. revert qs. induction s as [|c s IH]; simpl; intros qs.
  - intros [= <-]. now exists [].
  - destruct (cell_value c) as [[| |q]|]; try discriminate;
      destruct (finite_values s) as [qs'|]; try discriminate; intros [= <-];
      destruct (IH qs' eq_refl) as (xs & -> & Hd).
    + exists (XNaN :: xs). split; [reflexivity | exact Hd].
    + exists (XFin q :: xs). split; [reflexivity |]. unfold dropna in *. simpl. now rewrite Hd.
Qed.

Lemma values_mean_finite (xs : list xQ) (qs : list Q) :
  dropna xs = map XFin qs -> qs <> [] ->
  exists m, values_mean xs = XFin m /\ (m == Qmean qs)%Q.
Proof.
  intros Hd Hne. unfold values_mean. rewrite Hd.
  destruct qs as [|q0 qs']; [contradiction |].
  cbn [map]. change (XFin q0 :: map XFin qs') with (map XFin (q0 :: qs')).
  destruct (xsum_finite (q0 :: qs')) as (t & Ht & Et).
  rewrite Ht, length_map. unfold x_of_nat.
  destruct (xdiv_finite t (inject_Z (Z.of_nat (length (q0 :: qs'))))) as (m & Hm & Em).
  { apply count_nonzero. discriminate. }
  exists m. split; [exact Hm |]. unfold Qmean. now rewrite Em, Et.
Qed.

Lemma series_mean_finite (s : Series) (qs : list Q) :
  finite_values s = Some qs -> qs <> [] ->
  exists m, series_mean s = Ok (XFin m) /\ (m == Qmean qs)%Q.
Proof.
  intros Hf Hne. destruct (numeric_values_finite s qs Hf) as (xs & Hxs & Hd).
  destruct (values_mean_finite xs qs Hd Hne) as (m & Hm & Em).
  exists m. split; [| exact Em]. unfold series_mean. rewrite Hxs. cbn. now rewrite Hm.
Qed.

Lemma getitem_selected (df : DataFrame) (mask : list bool) (c : string) (s : Series) :
  getitem df c = Ok s -> getitem (selected df mask) c = Ok (select mask s).
Proof.
  intros H. apply getitem_Ok in H as [Hc ->]. apply getitem_Ok.
  split; [exact Hc |]. cbn [selected rows]. symmetry. apply select_map.
Qed.

Lemma getitem_mask_Ok (df : DataFrame) (mask : list bool) :
  length mask = df_len df -> getitem_mask df mask = Ok (selected df mask).
Proof. intros H. unfold getitem_mask. now rewrite H, Nat.eqb_refl. Qed.

End Means.

(** ** Borough comparison *)

(** C8. Let the target rows have the finite prices [ts] and the other
    rows the finite prices [os] (NaN prices left out), both non-empty and
    with non-zero means.  Then the comparison returns the mean of [ts], the
    mean of [os], and as ratio exactly the quotient of the two means it
    returns. *)
Theorem compare_boroughs_spec (df : DataFrame) (borough_col target_borough price_col : string)
    (b p : Series) (ts os : list Q) :
  getitem df borough_col = Ok b ->
  getitem df price_col = Ok p ->
  finite_values (select (series_eq_str b target_borough) p) = Some ts ->
  finite_values (select (map negb (series_eq_str b target_borough)) p) = Some os ->
  ts <> [] -> os <> [] ->
  ~ Qeq (Qmean ts) 0 -> ~ Qeq (Qmean os) 0 ->
  exists r t o q,
    compare_boroughs df borough_col target_borough price_col = Ok r /\
    target_avg_price r = XFin t /\ (t == Qmean ts)%Q /\
    other_avg_price r = XFin o /\ (o == Qmean os)%Q /\
    ratio r = XFin q /\ (q == t / o)%Q /\
    ratio r = xdiv (target_avg_price r) (other_avg_price r).
Proof.
  intros Hb Hp Hts Hos Htne Hone Htz Hoz.
  destruct (series_mean_finite _ ts Hts Htne) as (t & Ht & Et).
  destruct (series_mean_finite _ os Hos Hone) as (o & Ho & Eo).
  assert (Hoz' : ~ Qeq o 0) by now rewrite Eo.
  destruct (xdiv_finite t o Hoz') as (q & Hq & Eq).
  pose proof (getitem_length df borough_col b Hb) as Hlen.
  assert (Hm1 : length (series_eq_str b target_borough) = df_len df).
  { unfold series_eq_str. now rewrite length_map. }
  assert (Hm2 : length (map negb (series_eq_str b target_borough)) = df_len df).
  { now rewrite length_map. }
  eexists _, t, o, q. split.
  - unfold compare_boroughs. rewrite Hb. cbn [mbind result_bind].
    rewrite (getitem_mask_Ok df _ Hm1).
    cbn [mbind result_bind].
    rewrite (getitem_selected df _ price_col p Hp). cbn [mbind result_bind].
    rewrite Ht. cbn [mbind result_bind].
    rewrite (getitem_mask_Ok df _ Hm2).
    cbn [mbind result_bind].
    rewrite (getitem_selected df _ price_col p Hp). cbn [mbind result_bind].
    rewrite Ho. cbn [mbind result_bind]. reflexivity.
  - cbn [target_avg_price other_avg_price ratio]. repeat split; assumption || reflexivity.
Qed.

Lemma compare_boroughs_spec_witness :
  exists r t o q,
    compare_boroughs boroughs "neighbourhood_group_cleansed" "Manhattan" "price" = Ok r /\
    target_avg_price r = XFin t /\ (t == Qmean [150; 250])%Q /\
    other_avg_price r = XFin o /\ (o == Qmean [80])%Q /\
    ratio r = XFin q /\ (q == t / o)%Q /\
    ratio r = xdiv (target_avg_price r) (other_avg_price r).
Proof.
  refine (compare_boroughs_spec boroughs "neighbourhood_group_cleansed" "Manhattan" "price"
            [CStr "Manhattan"; CStr "Bronx"; CStr "Manhattan"; CStr "Queens"]
            [price 150; price 80; price 250; CFloat FNaN] [150; 250]%Q [80]%Q _ _ _ _ _ _ _ _);
    try (vm_compute; reflexivity); try discriminate.
Defined.

(** Manhattan at 150 and 250 against the Bronx at 80 (the Queens listing
    has no price): means 200 and 80, ratio 5/2. *)
Example compare_boroughs_sample :
  compare_boroughs boroughs "neighbourhood_group_cleansed" "Manhattan" "price" =
  Ok {| comparison_columns := ["Manhattan_avg_price"; "Other_boroughs_avg_price"; "Ratio"];
        target_avg_price := XFin 200;
        other_avg_price := XFin 80;
        ratio := XFin (5 # 2) |}.
Proof. vm_compute. reflexivity. Qed.


(** ** Seasonal range *)

Section SeasonalRange.

Lemma xlt_finite (p q : Q) : xlt (XFin p) (XFin q) = true <-> (p < q)%Q.
Proof. simpl. rewrite Qlt_alt. destruct (Qcompare p q); split; congruence. Qed.

Lemma fold_min_finite (qs : list Q) (a : Q) :
  exists m,
    fold_left (fun x y => if xlt y x then y else x) (map XFin qs) (XFin a) = XFin m /\
    In m (a :: qs) /\ (forall q, In q (a :: qs) -> (m <= q)%Q).
Proof.
  revert a. induction qs as [|b qs IH]; intros a; cbn [map fold_left].
  - exists a. split; [reflexivity |]. split; [now left |].
    intros q [<- | []]. apply Qle_refl.
  - destruct (xlt (XFin b) (XFin a)) eqn:E.
    + apply xlt_finite in E. destruct (IH b) as (m & Hm & Hin & Hle).
      exists m. split; [exact Hm |]. split; [now right |].
      intros q [<- | Hq]; [| now apply Hle].
      apply Qle_trans with b; [apply Hle; now left | now apply Qlt_le_weak].
    + assert (Hab : (a <= b)%Q).
      { apply Qnot_lt_le. intros H. apply xlt_finite in H. congruence. }
      destruct (IH a) as (m & Hm & Hin & Hle).
      exists m. split; [exact Hm |]. split.
      * destruct Hin as [<- | Hin]; [now left | now right; right].
      * intros q [<- | [<- | Hq]].
        -- apply Hle. now left.
        -- apply Qle_trans with a; [apply Hle; now left | exact Hab].
        -- apply Hle. now right.
Qed.

Lemma fold_max_finite (qs : list Q) (a : Q) :
  exists m,
    fold_left (fun x y => if xlt x y then y else x) (map XFin qs) (XFin a) = XFin m /\
    In m (a :: qs) /\ (forall q, In q (a :: qs) -> (q <= m)%Q).
Proof.
  revert a. induction qs as [|b qs IH]; intros a; cbn [map fold_left].
  - exists a. split; [reflexivity |]. split; [now left |].
    intros q [<- | []]. apply Qle_refl.
  - destruct (xlt (XFin a) (XFin b)) eqn:E.
    + apply xlt_finite in E. destruct (IH b) as (m & Hm & Hin & Hle).
      exists m. split; [exact Hm |]. split; [now right |].
      intros q [<- | Hq]; [| now apply Hle].
      apply Qle_trans with b; [now apply Qlt_le_weak | apply Hle; now left].
    + assert (Hab : (b <= a)%Q).
      { apply Qnot_lt_le. intros H. apply xlt_finite in H. congruence. }
      destruct (IH a) as (m & Hm & Hin & Hle).
      exists m. split; [exact Hm |]. split.
      * destruct Hin as [<- | Hin]; [now left | now right; right].
      * intros q [<- | [<- | Hq]].
        -- apply Hle. now left.
        -- apply Qle_trans with a; [exact Hab | apply Hle; now left].
        -- apply Hle. now right.
Qed.

Lemma values_min_finite (xs : list xQ) (qs : list Q) :
  dropna xs = map XFin qs -> qs <> [] ->
  exists lo, values_min xs = XFin lo /\ In lo qs /\ (forall q, In q qs -> (lo <= q)%Q).
Proof.
  intros Hd Hne. unfold values_min. rewrite Hd.
  destruct qs as [|a qs]; [contradiction |]. cbn [map]. apply fold_min_finite.
Qed.

Lemma values_max_finite (xs : list xQ) (qs : list Q) :
  dropna xs = map XFin qs -> qs <> [] ->
  exists hi, values_max xs = XFin hi /\ In hi qs /\ (forall q, In q qs -> (q <= hi)%Q).
Proof.
  intros Hd Hne. unfold values_max. rewrite Hd.
  destruct qs as [|a qs]; [contradiction |]. cbn [map]. apply fold_max_finite.
Qed.

Lemma xsub_finite (p q : Q) : exists d, xsub (XFin p) (XFin q) = XFin d /\ (d == p - q)%Q.
Proof.
  eexists. split; [reflexivity |]. rewrite !Qred_correct. reflexivity.
Qed.

Lemma xmul_finite (p q : Q) : exists r, xmul (XFin p) (XFin q) = XFin r /\ (r == p * q)%Q.
Proof. eexists. split; [reflexivity | apply Qred_correct]. Qed.

Lemma series_mean_no_finite (s : Series) :
  finite_values s = Some [] -> series_mean s = Ok XNaN.
Proof.
  intros Hf. destruct (numeric_values_finite s [] Hf) as (xs & Hxs & Hd).
  unfold series_mean. rewrite Hxs. cbn. unfold values_mean. now rewrite Hd.
Qed.

(** The means of the groups of a table.  [groups] gives every key the
    finite prices of its rows; the means that are not NaN are then the
    means of the groups that have a finite price. *)
Lemma group_means_finite (keys prices : Series) (groups : list (cell * list Q)) :
  Forall (fun g => finite_values (group_of g.1 keys prices) = Some g.2) groups ->
  exists avg qs,
    for_each (fun g : cell * Series => m ← series_mean g.2; Ok (g.1, m))
      (map (fun k => (k, group_of k keys prices)) (map fst groups)) = Ok avg /\
    dropna (map snd avg) = map XFin qs /\
    (forall q, In q qs -> exists g, In g groups /\ g.2 <> [] /\ (q == Qmean g.2)%Q) /\
    (forall g, In g groups -> g.2 <> [] -> exists q, In q qs /\ (q == Qmean g.2)%Q).
Proof.
  intros H. induction H as [|g groups Hg _ (avg & qs & Havg & Hd & Hfrom & Hto)].
  - exists [], []. repeat split; intros ? [].
  - destruct g as [k ps]. cbn [fst snd] in Hg. cbn [map for_each fst snd].
    destruct ps as [|p0 ps'].
    + exists ((k, XNaN) :: avg), qs.
      rewrite (series_mean_no_finite _ Hg). cbn [mbind result_bind]. rewrite Havg.
      split; [reflexivity |]. split; [exact Hd |]. split.
      * intros q Hq. destruct (Hfrom q Hq) as (g & Hin & Hne & E).
        exists g. split; [now right | now split].
      * intros g [<- | Hin] Hne; [now contradiction Hne | now apply Hto].
    + destruct (series_mean_finite _ (p0 :: ps') Hg) as (m & Hm & Em); [discriminate |].
      exists ((k, XFin m) :: avg), (m :: qs).
      rewrite Hm. cbn [mbind result_bind]. rewrite Havg.
      split; [reflexivity |]. split.
      { unfold dropna in *. cbn [map List.filter snd xnan negb]. now rewrite Hd. }
      split.
      * intros q [<- | Hq].
        -- exists (k, p0 :: ps'). split; [now left |]. split; [discriminate | exact Em].
        -- destruct (Hfrom q Hq) as (g & Hin & Hne & E).
           exists g. split; [now right | now split].
      * intros g [<- | Hin] Hne.
        -- exists m. split; [now left | exact Em].
        -- destruct (Hto g Hin Hne) as (q & Hq & E). exists q. split; [now right | exact E].
Qed.

(** C9. Let [groups] give each group key of the table the finite prices
    of its rows (NaN prices left out), and let one group or more have such
    a price.  Then the seasonal range returns as minimum the least and as
    maximum the greatest of the means of the groups that have a price,
    their difference [hi - lo] and, when the minimum is not zero,
    [(hi - lo) / lo * 100]. *)
Theorem calculate_seasonal_range_spec (df : DataFrame) (groupby_col price_col : string)
    (keys prices : Series) (groups : list (cell * list Q)) :
  getitem df groupby_col = Ok keys ->
  getitem df price_col = Ok prices ->
  map fst groups = group_keys keys ->
  Forall (fun g => finite_values (group_of g.1 keys prices) = Some g.2) groups ->
  Exists (fun g => g.2 <> []) groups ->
  exists r lo hi d,
    calculate_seasonal_range df groupby_col price_col = Ok r /\
    min_price r = XFin lo /\
    (exists g, In g groups /\ g.2 <> [] /\ (lo == Qmean g.2)%Q) /\
    (forall g, In g groups -> g.2 <> [] -> (lo <= Qmean g.2)%Q) /\
    max_price r = XFin hi /\
    (exists g, In g groups /\ g.2 <> [] /\ (hi == Qmean g.2)%Q) /\
    (forall g, In g groups -> g.2 <> [] -> (Qmean g.2 <= hi)%Q) /\
    range r = XFin d /\ (d == hi - lo)%Q /\
    (~ Qeq lo 0 -> exists p, pct_range r = XFin p /\ (p == (hi - lo) / lo * 100)%Q).
Proof.
  intros Hk Hp Hkeys Hall Hex.
  destruct (group_means_finite keys prices groups Hall) as (avg & qs & Havg & Hd & Hfrom & Hto).
  assert (Hne : qs <> []).
  { apply Exists_exists in Hex as (g & Hg & Hgne).
    destruct (Hto g (proj1 (list_elem_of_In _ _) Hg) Hgne) as (q & Hq & _).
    intros ->. destruct Hq. }
  assert (Hg : group_means df groupby_col price_col = Ok avg).
  { unfold group_means, groupby. rewrite Hk, Hp. cbn [mbind result_bind].
    now rewrite <- Hkeys. }
  destruct (values_min_finite _ qs Hd Hne) as (lo & Hlo & Hlo_in & Hlo_le).
  destruct (values_max_finite _ qs Hd Hne) as (hi & Hhi & Hhi_in & Hhi_le).
  destruct (xsub_finite hi lo) as (d & Hsub & Ed).
  eexists _, lo, hi, d. split.
  - unfold calculate_seasonal_range. rewrite Hg. cbn [mbind result_bind]. reflexivity.
  - cbn [min_price max_price range pct_range]. rewrite Hlo, Hhi, Hsub.
    split; [reflexivity |]. split; [now apply Hfrom |]. split.
    { intros g Hin Hgne. destruct (Hto g Hin Hgne) as (q & Hq & E).
      rewrite <- E. now apply Hlo_le. }
    split; [reflexivity |]. split; [now apply Hfrom |]. split.
    { intros g Hin Hgne. destruct (Hto g Hin Hgne) as (q & Hq & E).
      rewrite <- E. now apply Hhi_le. }
    split; [reflexivity |]. split; [exact Ed |].
    intros Hz. destruct (xdiv_finite d lo Hz) as (t & Ht & Et).
    destruct (xmul_finite t 100) as (p & Hp' & Ep).
    exists p. rewrite Ht. split; [exact Hp' |]. now rewrite Ep, Et, Ed.
Qed.

Lemma calculate_seasonal_range_spec_witness :
  exists r lo hi d,
    calculate_seasonal_range three_months "month_num" "price" = Ok r /\
    min_price r = XFin lo /\
    (exists g, In g [(CInt 1, [120; 80]%Q); (CInt 2, [150]%Q); (CInt 3, [90]%Q)] /\
               g.2 <> [] /\ (lo == Qmean g.2)%Q) /\
    (forall g, In g [(CInt 1, [120; 80]%Q); (CInt 2, [150]%Q); (CInt 3, [90]%Q)] ->
               g.2 <> [] -> (lo <= Qmean g.2)%Q) /\
    max_price r = XFin hi /\
    (exists g, In g [(CInt 1, [120; 80]%Q); (CInt 2, [150]%Q); (CInt 3, [90]%Q)] /\
               g.2 <> [] /\ (hi == Qmean g.2)%Q) /\
    (forall g, In g [(CInt 1, [120; 80]%Q); (CInt 2, [150]%Q); (CInt 3, [90]%Q)] ->
               g.2 <> [] -> (Qmean g.2 <= hi)%Q) /\
    range r = XFin d /\ (d == hi - lo)%Q /\
    (~ Qeq lo 0 -> exists p, pct_range r = XFin p /\ (p == (hi - lo) / lo * 100)%Q).
Proof.
  refine (calculate_seasonal_range_spec three_months "month_num" "price"
            [CInt 2; CInt 1; CInt 3; CInt 1] [price 150; price 120; price 90; price 80]
            [(CInt 1, [120; 80]%Q); (CInt 2, [150]%Q); (CInt 3, [90]%Q)] _ _ _ _ _).
  - reflexivity.
  - reflexivity.
  - reflexivity.
  - repeat constructor.
  - left. discriminate.
Defined.

(** The specification's example: monthly means 100, 150 and 90 give the
    minimum 90, the maximum 150, the range 60 and 200/3 per cent, which is
    66.67 to two decimal places. *)
Example seasonal_range_three_months :
  calculate_seasonal_range three_months "month_num" "price" =
    Ok {| min_price := XFin 90; max_price := XFin 150; range := XFin 60;
          pct_range := XFin (200 # 3) |} /\
  (66665 # 1000 < 200 # 3)%Q /\ (200 # 3 < 66675 # 1000)%Q.
Proof. repeat split; vm_compute; reflexivity. Qed.

End SeasonalRange.


(** ** Grouped statistics *)

Section RentalStats.

Lemma xle_total (x y : xQ) : xle x y = true \/ xle y x = true.
Proof.
  unfold xle. destruct (xlt y x) eqn:E; [right | now left].
  now rewrite (xlt_asym y x E).
Qed.

Lemma key_leb_total (a b : cell) : key_leb a b = true \/ key_leb b a = true.
Proof.
  destruct a as [s|z|x], b as [t|w|y]; simpl; auto;
    try apply String.leb_total; apply xle_total.
Qed.

Lemma insert_row_sorted (r : stats_row) (rs : list stats_row) :
  Sorted row_le rs -> Sorted row_le (insert_row r rs).
Proof.
  induction 1 as [|r' rs Hs IH Hr']; simpl.
  - repeat constructor.
  - destruct (key_leb (stat_key r) (stat_key r')) eqn:E.
    + constructor; [now constructor | now constructor].
    + constructor; [exact IH |].
      destruct rs as [|r'' rs]; simpl.
      * constructor. destruct (key_leb_total (stat_key r) (stat_key r')); [congruence | assumption].
      * destruct (key_leb (stat_key r) (stat_key r'')).
        -- constructor. destruct (key_leb_total (stat_key r) (stat_key r')); [congruence | assumption].
        -- constructor. now inversion Hr'.
Qed.

(** The rows come out in ascending order of their keys. *)
Lemma sort_index_sorted (rs : list stats_row) : Sorted row_le (sort_index rs).
Proof.
  induction rs as [|r rs IH]; simpl; [constructor | now apply insert_row_sorted].
Qed.

Lemma insert_row_perm (r : stats_row) (rs : list stats_row) : insert_row r rs ≡ₚ r :: rs.
Proof.
  induction rs as [|r' rs IH]; simpl; [reflexivity |].
  destruct (key_leb (stat_key r) (stat_key r')); [reflexivity |].
  rewrite IH. apply perm_swap.
Qed.

Lemma sort_index_perm (rs : list stats_row) : sort_index rs ≡ₚ rs.
Proof.
  induction rs as [|r rs IH]; simpl; [reflexivity |].
  now rewrite insert_row_perm, IH.
Qed.

(** Count and mean of a group of finite prices. *)
Lemma aggregate_finite (k : cell) (g : Series) (qs : list Q) :
  finite_values g = Some qs ->
  exists r,
    aggregate (k, g) = Ok r /\ stat_key r = k /\ stat_count r = length qs /\
    (qs <> [] -> exists m, stat_mean r = XFin m /\ (m == Qmean qs)%Q).
Proof.
  intros Hf. destruct (numeric_values_finite g qs Hf) as (xs & Hxs & Hd).
  eexists. unfold aggregate. cbn [fst snd]. rewrite Hxs. cbn [mbind result_bind].
  split; [reflexivity |]. cbn [stat_key stat_count stat_mean].
  split; [reflexivity |]. split.
  - unfold values_count. now rewrite Hd, length_map.
  - intros Hne. now apply values_mean_finite.
Qed.

(** An integer month number gets its English name. *)
Lemma month_name_int (z : Z) :
  (1 <= z <= 12)%Z -> month_name (CInt z) = Ok (nth (Z.to_nat z - 1) month_names "").
Proof.
  intros H.
  assert (z = 1 \/ z = 2 \/ z = 3 \/ z = 4 \/ z = 5 \/ z = 6 \/ z = 7 \/ z = 8 \/ z = 9 \/
          z = 10 \/ z = 11 \/ z = 12)%Z as Hz by lia.
  repeat (destruct Hz as [-> | Hz]; [reflexivity |]). now subst z.
Qed.

(** The text of a float is never a month number: it has a fractional part
    or is [nan] or [inf]. *)
Lemma uint_of_str_float (x : float64) : NilEmpty.uint_of_string (str_float x) = None.
Proof.
  destruct x as [|[]|s i f]; try reflexivity.
  unfold str_float. destruct s.
  - cbn [NilEmpty.uint_of_string append].
    now destruct (NilEmpty.uint_of_string _).
  - change ("" ++ str_N i ++ "." ++ NilZero.string_of_uint (frac_uint f))
      with (str_N i ++ String "." (NilZero.string_of_uint (frac_uint f))).
    apply uint_of_string_dot.
Qed.

Lemma month_name_float (x : float64) : month_name (CFloat x) = Raise ValueError.
Proof.
  unfold month_name, strptime_m. cbn [cell_str].
  destruct (str_float x) eqn:E; [reflexivity |].
  now rewrite <- E, uint_of_str_float.
Qed.

(** The specification's example: group A with prices 10, 20 and 30 and
    group B with price 100. *)
Example rental_stats_two_groups :
  calculate_rental_stats two_groups "group" "price" =
  Ok [ {| stat_key := CStr "A"; stat_count := 3; stat_mean := XFin 20;
          stat_median := XFin 20; stat_std := Sqrt (XFin 100); stat_month := None |};
       {| stat_key := CStr "B"; stat_count := 1; stat_mean := XFin 100;
          stat_median := XFin 100; stat_std := Sqrt XNaN; stat_month := None |} ].
Proof. vm_compute. reflexivity. Qed.

(** Grouping by an integer month number attaches the month names. *)
Example rental_stats_three_months :
  (fun rs => map (fun r => (stat_key r, stat_count r, stat_mean r, stat_month r)) rs)
    <$> calculate_rental_stats three_months "month_num" "price" =
  Ok [ (CInt 1, 2%nat, XFin 100, Some "January");
       (CInt 2, 1%nat, XFin 150, Some "February");
       (CInt 3, 1%nat, XFin 90, Some "March") ].
Proof. vm_compute. reflexivity. Qed.

(** C7, failing input. A snapshot whose month tag is not in
    [MONTH_MAPPING] gets NaN as month number, which makes the month
    numbers of the processed table floats: [5.0] for May.  Grouped
    statistics with the default grouping column then raise [ValueError],
    because ["5.0"] does not match the format [%m]; grouping the same table
    by the month name succeeds. *)
Theorem rental_stats_raises_after_unknown_month :
  exists out h',
    preprocess_data 0 default_max_price true [sept_listings] = (Ok 4%nat, h') /\
    h' !! 4%nat = Some out /\
    map (row_get "month_num") (rows out) = [CFloat (FFin false 5 0); CFloat FNaN] /\
    calculate_rental_stats out "month_num" "price" = Raise ValueError /\
    (fun rs => map (fun r => (stat_key r, stat_count r, stat_mean r)) rs)
      <$> calculate_rental_stats out "month" "price" =
    Ok [(CStr "May", 1%nat, XFin 100); (CStr "Sept", 1%nat, XFin 120)].
Proof.
  eexists. eexists. split; [vm_compute; reflexivity |].
  split; [reflexivity |]. repeat split; vm_compute; reflexivity.
Qed.

End RentalStats.


(** ** The neighbourhood bar chart *)

Section BarChart.

(** [descending] is not a parameter of [Series.sort_values]. *)
Lemma sort_values_descending (flag : bool) (s : list (cell * xQ)) :
  series_sort_values [("descending", flag)] s = Raise TypeError.
Proof. reflexivity. Qed.

Lemma sort_values_ascending (flag : bool) (s : list (cell * xQ)) :
  exists sorted, series_sort_values [("ascending", flag)] s = Ok sorted.
Proof. eexists. reflexivity. Qed.

(** C2, failing input: every table.  The call never gets past
    [sort_values(descending=True)]: it raises, and on a table that has the
    three columns and numeric prices the exception is the [TypeError] for
    the unexpected keyword; no chart is rendered. *)
Theorem plot_manhattan_neighborhood_prices_raises (df : DataFrame)
    (borough_col neighborhood_col price_col : string) (top_n : option Z)
    (figsize : nat * nat) (save_path : option string) :
  (exists e,
     plot_manhattan_neighborhood_prices df borough_col neighborhood_col price_col
       top_n figsize save_path = Raise e) /\
  (forall b manhattan_df means,
     getitem df borough_col = Ok b ->
     getitem_mask df (series_eq_str b "Manhattan") = Ok manhattan_df ->
     group_means manhattan_df neighborhood_col price_col = Ok means ->
     plot_manhattan_neighborhood_prices df borough_col neighborhood_col price_col
       top_n figsize save_path = Raise TypeError).
Proof.
  unfold plot_manhattan_neighborhood_prices. split.
  - destruct (getitem df borough_col) as [b|e]; [| now exists e]. cbn [mbind result_bind].
    destruct (getitem_mask df (series_eq_str b "Manhattan")) as [m|e]; [| now exists e].
    cbn [mbind result_bind].
    destruct (group_means m neighborhood_col price_col) as [means|e]; [| now exists e].
    cbn [mbind result_bind]. rewrite sort_values_descending. now exists TypeError.
  - intros b m means -> Hm Hg. cbn [mbind result_bind]. rewrite Hm. cbn [mbind result_bind].
    rewrite Hg. cbn [mbind result_bind]. now rewrite sort_values_descending.
Qed.

Example plot_manhattan_listings :
  plot_manhattan_neighborhood_prices manhattan_listings "neighbourhood_group_cleansed"
    "neighbourhood_cleansed" "price" (Some 20%Z) (14, 10)%nat None = Raise TypeError /\
  group_means (selected manhattan_listings [true; true; false])
    "neighbourhood_cleansed" "price" = Ok [(CStr "Harlem", XFin 120); (CStr "SoHo", XFin 400)] /\
  series_sort_values [("ascending", false)] [(CStr "Harlem", XFin 120); (CStr "SoHo", XFin 400)] =
    Ok [(CStr "SoHo", XFin 400); (CStr "Harlem", XFin 120)].
Proof. repeat split; vm_compute; reflexivity. Qed.

End BarChart.


(** ** Groups in closed form *)

Section Groups.

Lemma numeric_values_Ok (s : Series) : no_strings s -> numeric_values s = Ok (values_of s).
Proof.
  unfold no_strings, numeric_values, values_of. intros H. apply for_each_ok.
  intros c Hc. rewrite forallb_forall in H. specialize (H c (proj1 (list_elem_of_In _ _) Hc)).
  destruct c; [discriminate | reflexivity ..].
Qed.

Lemma group_of_In (k : cell) (keys values : Series) (v : cell) :
  In v (group_of k keys values) -> In v values.
Proof.
  revert values. induction keys as [|k' keys IH]; intros [|w values]; simpl; try tauto.
  destruct (negb (cell_isna k') && key_eqb k' k); simpl; intros H.
  - destruct H as [-> | H]; [now left | right; now apply IH].
  - right. now apply IH.
Qed.

Lemma group_of_no_strings (k : cell) (keys values : Series) :
  no_strings values -> no_strings (group_of k keys values).
Proof.
  unfold no_strings. rewrite !forallb_forall. intros H v Hv.
  apply H. now apply (group_of_In k keys).
Qed.

Lemma groupby_Ok (df : DataFrame) (key_col col : string) (keys values : Series) :
  getitem df key_col = Ok keys -> getitem df col = Ok values ->
  groupby df key_col col = Ok (map (fun k => (k, group_of k keys values)) (group_keys keys)).
Proof. intros Hk Hv. unfold groupby. now rewrite Hk, Hv. Qed.

Lemma aggregate_Ok (keys prices : Series) (k : cell) :
  no_strings prices ->
  aggregate (k, group_of k keys prices) = Ok (group_stats keys prices k).
Proof.
  intros H. unfold aggregate. cbn [fst snd].
  now rewrite (numeric_values_Ok _ (group_of_no_strings k keys prices H)).
Qed.

(** The per-group means of a table with numeric prices: one entry per
    distinct key, in ascending order of the keys. *)
Lemma group_means_Ok (df : DataFrame) (key_col col : string) (keys prices : Series) :
  getitem df key_col = Ok keys -> getitem df col = Ok prices -> no_strings prices ->
  group_means df key_col col =
  Ok (map (fun k => (k, values_mean (values_of (group_of k keys prices)))) (group_keys keys)).
Proof.
  intros Hk Hv Hn. unfold group_means. rewrite (groupby_Ok df key_col col keys prices Hk Hv).
  cbn [mbind result_bind].
  rewrite (for_each_ok _ (fun g : cell * Series => (g.1, values_mean (values_of g.2)))).
  - now rewrite map_map.
  - intros g Hg. apply list_elem_of_In, in_map_iff in Hg as (k & <- & _). cbn [fst snd].
    unfold series_mean. now rewrite (numeric_values_Ok _ (group_of_no_strings k keys prices Hn)).
Qed.

Lemma insert_key_In (k : cell) (ks : list cell) (x : cell) :
  In x (insert_key k ks) -> x = k \/ In x ks.
Proof.
  induction ks as [|k' ks IH]; simpl.
  - intros [<- | []]. now left.
  - destruct (key_eqb k k'); [now right |].
    destruct (key_leb k k'); simpl.
    + intros [<- | H]; [now left | now right].
    + intros [<- | H]; [right; now left |].
      destruct (IH H) as [-> | H']; [now left | right; now right].
Qed.

Lemma insert_key_nonempty (k : cell) (ks : list cell) : insert_key k ks <> [].
Proof.
  destruct ks as [|k' ks]; simpl; [discriminate |].
  destruct (key_eqb k k'); [discriminate |]. destruct (key_leb k k'); discriminate.
Qed.

Lemma group_keys_In (keys : Series) (k : cell) :
  In k (group_keys keys) -> In k keys /\ cell_isna k = false.
Proof.
  unfold group_keys. induction keys as [|k' keys IH]; simpl; [tauto |].
  destruct (cell_isna k') eqn:E; simpl.
  - intros H. destruct (IH H). split; [now right | assumption].
  - intros H. apply insert_key_In in H as [-> | H].
    + split; [now left | exact E].
    + destruct (IH H). split; [now right | assumption].
Qed.

Lemma group_keys_nonempty (keys : Series) (k : cell) :
  In k keys -> cell_isna k = false -> group_keys keys <> [].
Proof.
  unfold group_keys. induction keys as [|k' keys IH]; simpl; [tauto |].
  intros [-> | H] Hk.
  - rewrite Hk. simpl. apply insert_key_nonempty.
  - destruct (cell_isna k'); simpl; [now apply IH | apply insert_key_nonempty].
Qed.

End Groups.

(** ** Grouped statistics in general *)

Section RentalStatsSpec.

Variables (df : DataFrame) (groupby_col price_col : string) (keys prices : Series).
Hypothesis Hkeys : getitem df groupby_col = Ok keys.
Hypothesis Hprices : getitem df price_col = Ok prices.
Hypothesis Hnumeric : no_strings prices.

Lemma rental_stats_groups :
  (groupby df groupby_col price_col ≫= for_each aggregate) =
  Ok (map (group_stats keys prices) (group_keys keys)).
Proof.
  rewrite (groupby_Ok df groupby_col price_col keys prices Hkeys Hprices).
  cbn [mbind result_bind].
  rewrite (for_each_ok _ (fun g : cell * Series => group_stats keys prices g.1)).
  - now rewrite map_map.
  - intros g Hg. apply list_elem_of_In, in_map_iff in Hg as (k & <- & _). cbn [fst].
    now apply aggregate_Ok.
Qed.

Lemma rental_stats_sorted :
  calculate_rental_stats df groupby_col price_col =
  if String.eqb groupby_col "month_num" then
    for_each (fun r => m ← month_name (stat_key r); Ok (with_month (Some m) r))
      (plain_stats keys prices)
  else Ok (plain_stats keys prices).
Proof.
  pose proof rental_stats_groups as Hrun.
  unfold calculate_rental_stats. revert Hrun. unfold mbind at 1. unfold result_bind at 1.
  destruct (groupby df groupby_col price_col) as [groups|e]; [| discriminate].
  cbn [mbind result_bind]. intros ->. reflexivity.
Qed.

Lemma plain_stats_sorted : Sorted row_le (plain_stats keys prices).
Proof. apply sort_index_sorted. Qed.

Lemma plain_stats_perm :
  plain_stats keys prices ≡ₚ map (group_stats keys prices) (group_keys keys).
Proof. apply sort_index_perm. Qed.

Lemma plain_stats_keys (r : stats_row) :
  In r (plain_stats keys prices) -> In (stat_key r) keys /\ cell_isna (stat_key r) = false.
Proof.
  intros H. apply list_elem_of_In in H. rewrite plain_stats_perm in H.
  apply list_elem_of_In, in_map_iff in H as (k & <- & Hk). cbn [group_stats stat_key].
  now apply group_keys_In.
Qed.

(** Grouping by any column other than [month_num]: one row per distinct
    key with the count, mean, median and standard deviation of the group's
    prices, in ascending order of the keys. *)
Lemma calculate_rental_stats_plain :
  groupby_col <> "month_num" ->
  calculate_rental_stats df groupby_col price_col = Ok (plain_stats keys prices).
Proof.
  intros Hne. rewrite rental_stats_sorted. apply String.eqb_neq in Hne. now rewrite Hne.
Qed.

(** Grouping by integer month numbers: the rows of the plain statistics,
    each with the name of its month. *)
Lemma calculate_rental_stats_int_months :
  groupby_col = "month_num" ->
  Forall (fun k => cell_isna k = false -> int_month k) keys ->
  calculate_rental_stats df groupby_col price_col =
  Ok (map (fun r => with_month (Some (month_of_key (stat_key r))) r) (plain_stats keys prices)).
Proof.
  intros E Hint. rewrite rental_stats_sorted, E, String.eqb_refl.
  apply for_each_ok. intros r Hr.
  apply list_elem_of_In, plain_stats_keys in Hr as [Hin Hna].
  rewrite Forall_forall in Hint.
  destruct (Hint _ (proj2 (list_elem_of_In _ _) Hin) Hna) as (z & Hz & Hrange).
  rewrite Hz, (month_name_int z Hrange). reflexivity.
Qed.

(** Grouping by float month numbers, which is what the month numbers are
    as soon as one month name was not recognised: the first month name
    cannot be computed. *)
Lemma calculate_rental_stats_float_months :
  groupby_col = "month_num" ->
  forallb is_float keys = true ->
  (exists k, In k keys /\ cell_isna k = false) ->
  calculate_rental_stats df groupby_col price_col = Raise ValueError.
Proof.
  intros E Hfloat (k & Hk & Hna). rewrite rental_stats_sorted, E, String.eqb_refl.
  assert (Hne : plain_stats keys prices <> []).
  { intros E0. apply (group_keys_nonempty keys k Hk Hna).
    pose proof plain_stats_perm as Hp.
    rewrite E0 in Hp. apply Permutation_nil in Hp. now apply map_eq_nil in Hp. }
  pose proof plain_stats_keys as Hkeys_of.
  destruct (plain_stats keys prices) as [|r rs]; [contradiction |].
  destruct (Hkeys_of r (or_introl eq_refl)) as [Hin _].
  rewrite forallb_forall in Hfloat. specialize (Hfloat _ Hin).
  destruct (stat_key r) as [| |x] eqn:Ek; try discriminate.
  cbn [for_each]. rewrite Ek, month_name_float. reflexivity.
Qed.

End RentalStatsSpec.


(** ** More on the loader *)

Section LoaderErrors.

Lemma listing_files_In (data_folder : list Path) (year : Z) (f : Path) :
  f ∈ sorted (glob data_folder (listing_pattern year)) <->
  f ∈ data_folder /\ is_listing year f.
Proof. rewrite sorted_perm. apply glob_spec. Qed.

(** The only exceptions of the loader are the missing-input error and the
    errors of [pd.read_csv].  When one or more of the files of the year
    cannot be read, the loader raises what [pd.read_csv] raises on the
    first of them in the order of the names, and it raises the parser
    error exactly when that file is malformed.  In particular taking the
    month out of a file name never fails. *)
Theorem load_monthly_listings_errors (data_folder : list Path) (year : Z) :
  ((exists f, f ∈ data_folder /\ is_listing year f /\ ~ readable f) <->
   exists f e, first_unreadable (listing_files data_folder year) f /\
               read_csv f = Raise e /\
               load_monthly_listings data_folder year = Raise e) /\
  (load_monthly_listings data_folder year = Raise ParserError <->
   exists f, first_unreadable (listing_files data_folder year) f /\ content f = Malformed) /\
  (forall e, load_monthly_listings data_folder year = Raise e ->
             e = FileNotFoundError \/ e = ParserError).
Proof.
  pose proof (listing_files_In data_folder year) as Hin.
  fold (listing_files data_folder year) in Hin.
  assert (Hfirst : forall f, first_unreadable (listing_files data_folder year) f ->
            read_csv f = Raise (match content f with
                                | Malformed => ParserError | _ => FileNotFoundError end) /\
            load_monthly_listings data_folder year =
            Raise (match content f with Malformed => ParserError | _ => FileNotFoundError end)).
  { intros f Hf. split.
    - destruct Hf as (_ & _ & _ & _ & Hn). unfold read_csv.
      destruct (content f) as [df | |] eqn:Ec; [| reflexivity ..].
      exfalso. apply Hn. now exists df.
    - destruct (load_monthly_listings_outcome data_folder year)
        as [[E _] | [(_ & Hall & _) | (g & Hg & Hr)]].
      + exfalso. destruct Hf as (before & after & Hfiles & _). rewrite E in Hfiles.
        now destruct before.
      + exfalso. eapply first_unreadable_not_all; eassumption.
      + pose proof (for_each_load_file _ year (listing_files_listings data_folder year))
          as [_ Hraise].
        rewrite load_monthly_listings_unfold. cbv zeta. fold (listing_files data_folder year).
        destruct (listing_files data_folder year) as [|x xs] eqn:E.
        * exfalso. destruct Hf as (before & after & Hfiles & _). now destruct before.
        * now rewrite (Hraise f Hf). }
  split; [| split].
  - split.
    + intros (f & Hd & Hl & Hn).
      destruct (first_unreadable_split (listing_files data_folder year)) as [Hall | (g & Hg)].
      * exfalso. apply Hn. rewrite Forall_forall in Hall. apply Hall, Hin. now split.
      * destruct (Hfirst g Hg) as [Hread Hload]. eauto.
    + intros (f & e & (before & after & Hfiles & _ & Hn) & _).
      exists f. assert (Hf : f ∈ listing_files data_folder year).
      { rewrite Hfiles. apply elem_of_app. right. left. }
      apply Hin in Hf as [Hd Hl]. now repeat split.
  - split.
    + intros Hr.
      destruct (load_monthly_listings_outcome data_folder year)
        as [[_ H] | [(_ & _ & df & H) | (f & Hf & H)]]; rewrite H in Hr; try discriminate Hr.
      exists f. split; [exact Hf |]. destruct (content f); [discriminate Hr | reflexivity | discriminate Hr].
    + intros (f & Hf & Hm). destruct (Hfirst f Hf) as [_ Hload]. now rewrite Hm in Hload.
  - intros e Hr.
    destruct (load_monthly_listings_outcome data_folder year)
      as [[_ H] | [(_ & _ & df & H) | (f & Hf & H)]]; rewrite H in Hr; try discriminate Hr.
    + injection Hr as <-. now left.
    + injection Hr as <-. destruct (content f); [now left | now right | now left].
Qed.

End LoaderErrors.

Section LoaderOrder.

Lemma str_leb_antisym (s t : string) :
  String.leb s t = true -> String.leb t s = true -> s = t.
Proof.
  rewrite !str_leb_spec. intros [E | H1] [E' | H2]; try congruence.
  exfalso. pose proof (String_as_OT.lt_trans _ _ _ H1 H2) as H.
  apply String_as_OT.lt_not_eq in H. now apply H.
Qed.

(** Two sorted lists of files with the same elements and distinct names
    are the same list. *)
Lemma sorted_unique (fs gs : list Path) :
  StronglySorted name_le fs -> StronglySorted name_le gs ->
  fs ≡ₚ gs -> NoDup (map name fs) -> fs = gs.
Proof.
  revert gs. induction fs as [|f fs IH]; intros gs Hf Hg Hp Hnd.
  - now apply Permutation_nil in Hp.
  - destruct gs as [|g gs]; [symmetry in Hp; now apply Permutation_nil in Hp |].
    apply StronglySorted_inv in Hf as [Hf Hfall], Hg as [Hg Hgall].
    rewrite List.Forall_forall in Hfall, Hgall.
    assert (Hfg : f = g).
    { assert (Hf_in : In f (g :: gs)).
      { apply (Permutation_in f Hp). now left. }
      assert (Hg_in : In g (f :: fs)).
      { apply (Permutation_in g (Permutation_sym Hp)). now left. }
      destruct Hf_in as [-> | Hf_in]; [reflexivity |].
      destruct Hg_in as [-> | Hg_in]; [reflexivity |].
      pose proof (str_leb_antisym _ _ (Hfall g Hg_in) (Hgall f Hf_in)) as Hname.
      simpl in Hnd. apply NoDup_cons in Hnd as [Hnotin _]. exfalso. apply Hnotin.
      rewrite Hname. apply list_elem_of_In, in_map, Hg_in. }
    subst g. f_equal. apply IH; try assumption.
    + now apply Permutation_cons_inv in Hp.
    + simpl in Hnd. now apply NoDup_cons in Hnd as [_ Hnd].
Qed.

Lemma glob_perm (fs gs : list Path) (pattern : string) :
  fs ≡ₚ gs -> glob fs pattern ≡ₚ glob gs pattern.
Proof. intros H. unfold glob. now rewrite H. Qed.

Lemma glob_names (fs : list Path) (pattern : string) :
  NoDup (map name fs) -> NoDup (map name (glob fs pattern)).
Proof.
  unfold glob. induction fs as [|f fs IH]; intros H; [constructor |].
  simpl in H. apply NoDup_cons in H as [Hf Hfs].
  rewrite filter_cons. destruct (decide _); [| now apply IH].
  simpl. apply NoDup_cons. split; [| now apply IH].
  intros Hin. apply Hf. apply list_elem_of_In, in_map_iff in Hin as (g & Hg & Hin).
  rewrite <- Hg. apply list_elem_of_In, in_map.
  apply list_elem_of_In in Hin. apply list_elem_of_In.
  now apply list_elem_of_filter in Hin as [_ Hin].
Qed.

(** The loaded table does not depend on the order in which the folder
    lists its files: [sorted] fixes the order by the file names, which are
    distinct within a folder. *)
Theorem load_monthly_listings_order (data_folder data_folder' : list Path) (year : Z) :
  data_folder ≡ₚ data_folder' ->
  NoDup (map name data_folder) ->
  load_monthly_listings data_folder year = load_monthly_listings data_folder' year.
Proof.
  intros Hp Hnd. rewrite !load_monthly_listings_unfold. cbv zeta.
  assert (E : sorted (glob data_folder (listing_pattern year)) =
              sorted (glob data_folder' (listing_pattern year))).
  { apply sorted_unique; try apply sorted_sorted.
    - rewrite !sorted_perm. now apply glob_perm.
    - rewrite sorted_perm. now apply glob_names. }
  now rewrite E.
Qed.

Lemma load_monthly_listings_order_witness :
  load_monthly_listings sample_folder 2025 = load_monthly_listings (rev sample_folder) 2025.
Proof.
  apply (load_monthly_listings_order sample_folder (rev sample_folder) 2025).
  - apply Permutation_rev.
  - apply (bool_decide_unpack _). vm_compute. reflexivity.
Defined.

End LoaderOrder.

Section LoaderMonth.

(** The month of a file [listings_<mid>_<year>.csv] is the part of [mid]
    before its first underscore, and so all of [mid] only when [mid] has no
    underscore: [listings_New_York_2025.csv] is loaded as month [New]. *)
Theorem load_month_tag (year : Z) (mid : string) (df : DataFrame) :
  (exists full,
     load_monthly_listings [mkPath (listing_name year mid) (Csv df)] year = Ok full /\
     rows full = map (fun r => <["month" := CStr (str_before "_" mid)]> r) (rows df)) /\
  (str_contains "_" mid = false -> str_before "_" mid = mid).
Proof.
  split.
  - set (f := mkPath (listing_name year mid) (Csv df)).
    assert (Hl : is_listing year f) by (now exists mid).
    rewrite load_monthly_listings_unfold. cbv zeta.
    assert (Hglob : glob [f] (listing_pattern year) = [f]).
    { unfold glob. rewrite filter_cons. destruct (decide _) as [_ | Hn]; [reflexivity |].
      exfalso. apply Hn. now apply is_listing_fnmatch. }
    rewrite Hglob. cbn [sorted fold_right insort for_each].
    rewrite (load_file_listing f year Hl). cbn [content f name].
    rewrite month_token_listing. cbn [mbind result_bind pd_concat].
    eexists. split; [reflexivity |]. cbn [rows map List.concat setitem_scalar].
    apply app_nil_r.
  - induction mid as [|a mid IH]; [reflexivity |]. simpl.
    destruct (Ascii.eqb a "_"); [discriminate |]. simpl. intros H. now rewrite IH.
Qed.

End LoaderMonth.


(** ** More on price cleaning and month numbers *)

Section CleaningOutcome.

Lemma getitem_missing (df : DataFrame) (c : string) :
  c ∉ columns df -> getitem df c = Raise KeyError.
Proof.
  intros H. unfold getitem. destruct (has_column c (columns df)) eqn:E; [| reflexivity].
  apply has_column_spec in E. contradiction.
Qed.

Lemma clean_price_column_missing (h : heap) (l : loc) (df : DataFrame) (c : string) :
  h !! l = Some df -> c ∉ columns df ->
  clean_price_column l c h = (Raise KeyError, (h ++ [df])%list).
Proof.
  intros Hl Hc. unfold clean_price_column.
  rewrite (bind_run_Ok _ _ _ _ _ (df_copy_run h l df Hl)).
  rewrite bind_run, (df_getitem_run _ _ df) by apply lookup_fresh.
  now rewrite getitem_missing.
Qed.

Lemma add_month_number_missing (h : heap) (l : loc) (df : DataFrame)
    (month_col month_num_col : string) :
  h !! l = Some df -> month_col ∉ columns df ->
  add_month_number l month_col month_num_col h = (Raise KeyError, (h ++ [df])%list).
Proof.
  intros Hl Hc. unfold add_month_number.
  rewrite (bind_run_Ok _ _ _ _ _ (df_copy_run h l df Hl)).
  rewrite bind_run, (df_getitem_run _ _ df) by apply lookup_fresh.
  now rewrite getitem_missing.
Qed.

(** Price cleaning fails only for want of the column, with [KeyError];
    whatever the cells hold, it returns a table with the same columns and
    as many rows, in which the price column has one numeric dtype and every
    other column is as before. *)
Theorem clean_price_column_outcome (h : heap) (l : loc) (df : DataFrame) (c : string) :
  h !! l = Some df ->
  (c ∉ columns df -> (clean_price_column l c h).1 = Raise KeyError) /\
  (c ∈ columns df ->
   exists out s',
     clean_price_column l c h = (Ok (length h), (h ++ [out])%list) /\
     columns out = columns df /\
     df_len out = df_len df /\
     getitem out c = Ok s' /\ numeric_series s' /\
     forall c', c' <> c -> getitem out c' = getitem df c').
Proof.
  intros Hl. split; intros Hc.
  - now rewrite (clean_price_column_missing h l df c Hl Hc).
  - pose proof (getitem_of_column df c Hc) as Hs.
    set (s := map (row_get c) (rows df)) in *.
    assert (Hlen : length (cleaned_prices s) = df_len df).
    { rewrite cleaned_prices_length. unfold s. now rewrite length_map. }
    exists (set_column df c (cleaned_prices s)), (cleaned_prices s).
    split; [now apply clean_price_column_run |].
    split; [cbn [set_column columns]; now apply add_column_old |].
    split; [now apply set_column_len |].
    split; [now apply getitem_set_column |].
    split; [apply unify_numeric_numeric |].
    intros c' Hne. apply getitem_set_column_same_columns; [assumption | congruence | assumption].
Qed.

Lemma clean_price_column_outcome_witness :
  ("price" ∉ columns raw_listings ->
   (clean_price_column 0 "price" [raw_listings]).1 = Raise KeyError) /\
  ("price" ∈ columns raw_listings ->
   exists out s',
     clean_price_column 0 "price" [raw_listings] = (Ok 1%nat, [raw_listings; out]) /\
     columns out = columns raw_listings /\
     df_len out = df_len raw_listings /\
     getitem out "price" = Ok s' /\ numeric_series s' /\
     forall c', c' <> "price" -> getitem out c' = getitem raw_listings c').
Proof. apply (clean_price_column_outcome [raw_listings] 0 raw_listings "price"). reflexivity. Defined.

Lemma clean_price_printed (t : string) (x : float64) :
  str_replace "," "" (str_replace "$" "" t) = str_float x -> clean_price (CStr t) = CFloat x.
Proof.
  intros H. unfold clean_price. cbn [cell_str]. rewrite H. unfold read_number, plain_reader, to_numeric_str.
  now rewrite int_of_str_float, float_of_str_float.
Qed.

Lemma unify_numeric_floats (xs : list float64) : unify_numeric (map CFloat xs) = map CFloat xs.
Proof.
  unfold unify_numeric. destruct (forallb is_int (map CFloat xs)); [reflexivity |].
  rewrite map_map. reflexivity.
Qed.

(** Reading back what was printed: a price text which, with every [$] and
    [,] taken out, is the printed form of a float is cleaned to that
    float. *)
Theorem clean_price_column_reads_amounts (h : heap) (l : loc) (df : DataFrame) (c : string)
    (ts : list string) (xs : list float64) :
  h !! l = Some df ->
  getitem df c = Ok (map CStr ts) ->
  Forall2 (fun t x => str_replace "," "" (str_replace "$" "" t) = str_float x) ts xs ->
  exists out,
    clean_price_column l c h = (Ok (length h), (h ++ [out])%list) /\
    getitem out c = Ok (map CFloat xs).
Proof.
  intros Hl Hs Hts.
  assert (Hclean : cleaned_prices (map CStr ts) = map CFloat xs).
  { unfold cleaned_prices. rewrite <- unify_numeric_floats. f_equal. clear Hs.
    induction Hts as [|t x ts xs Htx _ IH]; [reflexivity |].
    cbn [map]. now rewrite (clean_price_printed t x Htx), IH. }
  exists (set_column df c (cleaned_prices (map CStr ts))). split.
  - now apply clean_price_column_run.
  - rewrite <- Hclean. apply getitem_set_column. rewrite cleaned_prices_length.
    now apply getitem_length with (c := c).
Qed.

Lemma clean_price_column_reads_amounts_witness :
  exists out,
    clean_price_column 0 "price" [printed_prices] = (Ok 1%nat, [printed_prices; out]) /\
    getitem out "price" = Ok (map CFloat [FFin false 1234 5; FFin false 80 0]).
Proof.
  apply (clean_price_column_reads_amounts [printed_prices] 0 printed_prices "price"
           ["$1,234.5"; "$80.0"] [FFin false 1234 5; FFin false 80 0]).
  - reflexivity.
  - reflexivity.
  - repeat constructor.
Defined.

End CleaningOutcome.

Section MonthNumbers.

(** The month numbers of [MONTH_MAPPING] and the month names that
    [to_datetime(..., format='%m').month_name()] computes are inverse to
    each other. *)
Lemma month_number_name (m : string) :
  In m month_names ->
  exists n, MONTH_MAPPING !! m = Some n /\ (1 <= n <= 12)%Z /\ month_name (CInt n) = Ok m.
Proof.
  intros H. unfold month_names in H.
  repeat (destruct H as [<- | H];
          [eexists; split; [vm_compute; reflexivity | split; [lia | vm_compute; reflexivity]] |]).
  destruct H.
Qed.

Lemma unify_numeric_ints (ns : list Z) : unify_numeric (map CInt ns) = map CInt ns.
Proof.
  unfold unify_numeric.
  assert (H : forallb is_int (map CInt ns) = true).
  { apply forallb_forall. intros c Hc. apply in_map_iff in Hc as (n & <- & _). reflexivity. }
  now rewrite H.
Qed.

(** Numbering the months of a table in which every month is an English
    month name: the new column holds integers, and the month name that the
    grouped statistics compute from each of them is the month it came
    from. *)
Theorem add_month_number_round_trip (h : heap) (l : loc) (df : DataFrame)
    (month_col month_num_col : string) (ms : list string) :
  h !! l = Some df ->
  getitem df month_col = Ok (map CStr ms) ->
  Forall (fun m => In m month_names) ms ->
  exists out nums,
    add_month_number l month_col month_num_col h = (Ok (length h), (h ++ [out])%list) /\
    getitem out month_num_col = Ok nums /\
    forallb is_int nums = true /\
    for_each month_name nums = Ok ms.
Proof.
  intros Hl Hs Hms.
  assert (Hnums : exists ns, series_map MONTH_MAPPING (map CStr ms) = map CInt ns /\
                             for_each month_name (map CInt ns) = Ok ms).
  { unfold series_map. rewrite map_map.
    assert (H : exists ns,
              map (fun m => match MONTH_MAPPING !! m with
                            | Some n => CInt n
                            | None => NaN
                            end) ms = map CInt ns /\
              for_each month_name (map CInt ns) = Ok ms).
    { clear - Hms. induction Hms as [|m ms Hm _ IH]; [now exists [] |].
      destruct IH as (ns & IH1 & IH2).
      destruct (month_number_name m Hm) as (n & Hn & _ & Hname).
      exists (n :: ns). cbn [map for_each]. now rewrite Hn, IH1, Hname, IH2. }
    destruct H as (ns & H1 & H2). exists ns. now rewrite H1, unify_numeric_ints. }
  destruct Hnums as (ns & Hmap & Hnames).
  exists (set_column df month_num_col (map CInt ns)), (map CInt ns).
  rewrite <- Hmap at 1.
  split; [now apply add_month_number_run |].
  split.
  { apply getitem_set_column. rewrite <- Hmap, series_map_length.
    now apply getitem_length with (c := month_col). }
  split; [| exact Hnames].
  apply forallb_forall. intros c Hc. apply in_map_iff in Hc as (n & <- & _). reflexivity.
Qed.

Lemma add_month_number_round_trip_witness :
  exists out nums,
    add_month_number 0 "month" "month_num" [raw_listings] = (Ok 1%nat, [raw_listings; out]) /\
    getitem out "month_num" = Ok nums /\
    forallb is_int nums = true /\
    for_each month_name nums = Ok ["May"; "June"; "June"; "May"].
Proof.
  apply (add_month_number_round_trip [raw_listings] 0 raw_listings "month" "month_num"
           ["May"; "June"; "June"; "May"]).
  - reflexivity.
  - reflexivity.
  - repeat constructor; simpl; tauto.
Defined.

Lemma unify_numeric_with_nan (s : Series) (i : nat) :
  s !! i = Some NaN ->
  unify_numeric s !! i = Some NaN /\ forallb is_float (unify_numeric s) = true.
Proof.
  intros Hi. unfold unify_numeric.
  assert (H : forallb is_int s = false).
  { destruct (forallb is_int s) eqn:E; [| reflexivity].
    rewrite forallb_forall in E. apply list_elem_of_lookup_2, list_elem_of_In, E in Hi.
    discriminate Hi. }
  rewrite H. split.
  - now rewrite list_lookup_fmap, Hi.
  - apply forallb_forall. intros c Hc. apply in_map_iff in Hc as (c0 & <- & _). now destruct c0.
Qed.

(** One month that is not a key of [MONTH_MAPPING] is numbered NaN and
    turns the whole column into floats, and of a float month number that
    is not NaN the month name cannot be computed. *)
Theorem add_month_number_unknown_month (h : heap) (l : loc) (df : DataFrame)
    (month_col month_num_col : string) (s : Series) (i : nat) (m : string) :
  h !! l = Some df ->
  getitem df month_col = Ok s ->
  s !! i = Some (CStr m) ->
  MONTH_MAPPING !! m = None ->
  exists out nums,
    add_month_number l month_col month_num_col h = (Ok (length h), (h ++ [out])%list) /\
    getitem out month_num_col = Ok nums /\
    nums !! i = Some NaN /\
    forallb is_float nums = true /\
    Forall (fun n => n = NaN \/ month_name n = Raise ValueError) nums.
Proof.
  intros Hl Hs Hi Hm.
  exists (set_column df month_num_col (series_map MONTH_MAPPING s)), (series_map MONTH_MAPPING s).
  split; [now apply add_month_number_run |].
  split.
  { apply getitem_set_column. rewrite series_map_length.
    now apply getitem_length with (c := month_col). }
  assert (H : series_map MONTH_MAPPING s !! i = Some NaN /\
              forallb is_float (series_map MONTH_MAPPING s) = true).
  { unfold series_map. apply unify_numeric_with_nan.
    rewrite list_lookup_fmap, Hi. cbn [fmap option_fmap option_map]. now rewrite Hm. }
  destruct H as [H1 H2]. repeat split; try assumption.
  apply Forall_forall. intros c Hc. rewrite forallb_forall in H2.
  apply list_elem_of_In, H2 in Hc. destruct c as [| |x]; try discriminate.
  right. apply month_name_float.
Qed.

Lemma add_month_number_unknown_month_witness :
  exists out nums,
    add_month_number 0 "month" "month_num" [sept_listings] = (Ok 1%nat, [sept_listings; out]) /\
    getitem out "month_num" = Ok nums /\
    nums !! 1%nat = Some NaN /\
    forallb is_float nums = true /\
    Forall (fun n => n = NaN \/ month_name n = Raise ValueError) nums.
Proof.
  apply (add_month_number_unknown_month [sept_listings] 0 sept_listings "month" "month_num"
           [CStr "May"; CStr "Sept"] 1 "Sept").
  - reflexivity.
  - reflexivity.
  - reflexivity.
  - vm_compute. reflexivity.
Defined.

End MonthNumbers.


(** ** More on the outlier filter and on the pipeline *)

Section FilterOutcome.

(** Comparing a column with a number: the mask, or [TypeError] when the
    column holds a string. *)
Lemma series_lt_outcome (s : Series) (x : float64) :
  (Forall (fun c => is_str c = false) s /\ series_lt s x = Ok (map (below x) s)) \/
  (Exists (fun c => is_str c = true) s /\ series_lt s x = Raise TypeError).
Proof.
  unfold series_lt. induction s as [|c s IH].
  - left. split; [constructor | reflexivity].
  - destruct c as [t | z | y].
    + right. split; [now left | reflexivity].
    + destruct IH as [[H1 H2] | [H1 H2]]; [left | right].
      * split; [now constructor |]. cbn [for_each map]. now rewrite H2.
      * split; [now right |]. cbn [for_each]. now rewrite H2.
    + destruct IH as [[H1 H2] | [H1 H2]]; [left | right].
      * split; [now constructor |]. cbn [for_each map]. now rewrite H2.
      * split; [now right |]. cbn [for_each]. now rewrite H2.
Qed.

Lemma filter_price_outliers_missing (h : heap) (l : loc) (df : DataFrame)
    (max_price : float64) (c : string) (verbose : bool) :
  h !! l = Some df -> c ∉ columns df ->
  filter_price_outliers l max_price c verbose h = (Raise KeyError, h).
Proof.
  intros Hl Hc. unfold filter_price_outliers.
  rewrite (bind_run_Ok _ _ _ _ _ (py_len_run h l df Hl)).
  rewrite bind_run, (df_getitem_run _ _ df c Hl). now rewrite getitem_missing.
Qed.

Lemma filter_price_outliers_strings (h : heap) (l : loc) (df : DataFrame)
    (max_price : float64) (c : string) (verbose : bool) (s : Series) :
  h !! l = Some df -> getitem df c = Ok s -> series_lt s max_price = Raise TypeError ->
  filter_price_outliers l max_price c verbose h = (Raise TypeError, h).
Proof.
  intros Hl Hs Hlt. unfold filter_price_outliers.
  rewrite (bind_run_Ok _ _ _ _ _ (py_len_run h l df Hl)).
  rewrite bind_run, (df_getitem_run _ _ df c Hl), Hs.
  rewrite bind_run. unfold lift at 1. now rewrite Hlt.
Qed.

Lemma Forall_Exists_str (c : string) (rs : list (gmap string cell)) :
  Forall (fun r => is_str (row_get c r) = false) rs ->
  Exists (fun r => is_str (row_get c r) = true) rs -> False.
Proof.
  intros Hf He. apply Exists_exists in He as (r & Hr & Hs).
  rewrite Forall_forall in Hf. specialize (Hf r Hr). congruence.
Qed.

(** The outcomes of the outlier filter: [KeyError] for want of the price
    column, [TypeError] when the column holds a string (a price column
    that was not cleaned), [ZeroDivisionError] when the table has no rows
    and the report is on, and a new table in every other case. *)
Theorem filter_price_outliers_outcome (h : heap) (l : loc) (df : DataFrame)
    (max_price : float64) (c : string) (verbose : bool) :
  h !! l = Some df ->
  ((filter_price_outliers l max_price c verbose h).1 = Raise KeyError <->
   c ∉ columns df) /\
  ((filter_price_outliers l max_price c verbose h).1 = Raise TypeError <->
   c ∈ columns df /\ Exists (fun r => is_str (row_get c r) = true) (rows df)) /\
  ((filter_price_outliers l max_price c verbose h).1 = Raise ZeroDivisionError <->
   c ∈ columns df /\ Forall (fun r => is_str (row_get c r) = false) (rows df) /\
   rows df = [] /\ verbose = true) /\
  ((filter_price_outliers l max_price c verbose h).1 = Ok (S (length h)) <->
   c ∈ columns df /\ Forall (fun r => is_str (row_get c r) = false) (rows df) /\
   (verbose = false \/ rows df <> [])).
Proof.
  intros Hl. destruct (decide (c ∈ columns df)) as [Hc | Hc].
  2: { rewrite (filter_price_outliers_missing h l df max_price c verbose Hl Hc). cbn [fst].
       repeat split; try discriminate; try tauto. }
  pose proof (getitem_of_column df c Hc) as Hs.
  destruct (series_lt_outcome (map (row_get c) (rows df)) max_price) as [[Hn Hlt] | [Hn Hlt]].
  - apply Forall_map in Hn.
    rewrite (filter_price_outliers_run h l df max_price c verbose _ _ Hl Hs Hlt). cbn [fst].
    unfold df_len. destruct verbose, (rows df) as [|r rs] eqn:Er; cbn [andb length Nat.eqb].
    all: repeat split; try discriminate; try tauto; try (intros; intuition congruence).
    all: intros [_ He]; exfalso; eapply Forall_Exists_str; eassumption.
  - apply Exists_map in Hn.
    rewrite (filter_price_outliers_strings h l df max_price c verbose _ Hl Hs Hlt). cbn [fst].
    repeat split; try discriminate; try tauto.
    all: intros (_ & Hf & _); exfalso; eapply Forall_Exists_str; eassumption.
Qed.

Lemma filter_price_outliers_outcome_witness :
  ((filter_price_outliers 0 default_max_price "price" true [raw_listings]).1 = Raise KeyError <->
   "price" ∉ columns raw_listings) /\
  ((filter_price_outliers 0 default_max_price "price" true [raw_listings]).1 = Raise TypeError <->
   "price" ∈ columns raw_listings /\
   Exists (fun r => is_str (row_get "price" r) = true) (rows raw_listings)) /\
  ((filter_price_outliers 0 default_max_price "price" true [raw_listings]).1 =
     Raise ZeroDivisionError <->
   "price" ∈ columns raw_listings /\
   Forall (fun r => is_str (row_get "price" r) = false) (rows raw_listings) /\
   rows raw_listings = [] /\ true = true) /\
  ((filter_price_outliers 0 default_max_price "price" true [raw_listings]).1 = Ok 2%nat <->
   "price" ∈ columns raw_listings /\
   Forall (fun r => is_str (row_get "price" r) = false) (rows raw_listings) /\
   (true = false \/ rows raw_listings <> [])).
Proof.
  apply (filter_price_outliers_outcome [raw_listings] 0 raw_listings default_max_price
           "price" true).
  reflexivity.
Defined.

End FilterOutcome.


Section FilterTwice.

Lemma frame_eq (df df' : DataFrame) :
  columns df = columns df' -> rows df = rows df' -> df = df'.
Proof. destruct df, df'. simpl. now intros -> ->. Qed.

Lemma select_filter {A : Type} (p : A -> bool) (xs : list A) :
  select (map p xs) xs = List.filter p xs.
Proof. induction xs as [|x xs IH]; [reflexivity |]. simpl. now rewrite IH. Qed.

Lemma filter_filter_and {A : Type} (p q : A -> bool) (xs : list A) :
  List.filter q (List.filter p xs) = List.filter (fun x => p x && q x) xs.
Proof.
  induction xs as [|x xs IH]; [reflexivity |]. simpl.
  destruct (p x); simpl; [destruct (q x) |]; now rewrite IH.
Qed.

Lemma filter_nonempty {A : Type} (p : A -> bool) (xs : list A) :
  Exists (fun x => p x = true) xs -> List.filter p xs <> [].
Proof.
  intros H E. apply Exists_exists in H as (x & Hx & Hp).
  assert (Hin : In x (List.filter p xs)) by (apply filter_In; split; [now apply list_elem_of_In | exact Hp]).
  rewrite E in Hin. destruct Hin.
Qed.

Lemma selected_rows (df : DataFrame) (c : string) (x : float64) :
  rows (selected df (map (below x) (map (row_get c) (rows df)))) =
  List.filter (fun r => below x (row_get c r)) (rows df).
Proof. cbn [selected rows]. rewrite map_map. apply select_filter. Qed.

Lemma no_str_column (c : string) (rs : list (gmap string cell)) :
  Forall (fun r => is_str (row_get c r) = false) rs ->
  forallb (fun x => negb (is_str x)) (map (row_get c) rs) = true.
Proof.
  intros H. apply forallb_forall. intros x Hx. apply in_map_iff in Hx as (r & <- & Hr).
  rewrite Forall_forall in H. apply list_elem_of_In, H in Hr. now rewrite Hr.
Qed.

(** Filtering twice, with the ceilings [a] and [b], keeps exactly the rows
    priced below both, in their order, whichever ceiling comes first; with
    the same ceiling the second filter changes nothing. *)
Theorem filter_price_outliers_twice (h : heap) (l : loc) (df : DataFrame) (a b : float64)
    (c : string) (v1 v2 : bool) :
  h !! l = Some df ->
  c ∈ columns df ->
  Forall (fun r => is_str (row_get c r) = false) (rows df) ->
  v1 = false \/ rows df <> [] ->
  v2 = false \/ Exists (fun r => below a (row_get c r) = true) (rows df) ->
  exists out1 out2 h1 h2,
    filter_price_outliers l a c v1 h = (Ok (S (length h)), h1) /\
    h1 !! S (length h) = Some out1 /\
    filter_price_outliers (S (length h)) b c v2 h1 = (Ok (S (length h1)), h2) /\
    h2 !! S (length h1) = Some out2 /\
    columns out2 = columns df /\
    rows out2 =
      List.filter (fun r => below a (row_get c r) && below b (row_get c r)) (rows df) /\
    rows out2 =
      List.filter (fun r => below b (row_get c r) && below a (row_get c r)) (rows df) /\
    (a = b -> out2 = out1).
Proof.
  intros Hl Hc Hn Hv1 Hv2.
  pose proof (getitem_of_column df c Hc) as Hs.
  set (s := map (row_get c) (rows df)) in *.
  pose proof (series_lt_numeric s a (no_str_column c _ Hn)) as Hlt1.
  set (out1 := selected df (map (below a) s)).
  pose proof (selected_rows df c a) as Hrows1. fold s in Hrows1. fold out1 in Hrows1.
  assert (Hrun1 : filter_price_outliers l a c v1 h = (Ok (S (length h)), (h ++ [out1; out1])%list)).
  { rewrite (filter_price_outliers_run h l df a c v1 _ _ Hl Hs Hlt1). fold out1.
    assert (E : v1 && Nat.eqb (df_len df) 0 = false).
    { destruct Hv1 as [-> | Hne]; [reflexivity |]. unfold df_len.
      destruct (rows df); [contradiction | apply andb_false_r]. }
    now rewrite E. }
  assert (Hl1 : (h ++ [out1; out1])%list !! S (length h) = Some out1).
  { replace (S (length h)) with (length h + 1)%nat by lia. now rewrite lookup_beyond. }
  assert (Hn1 : Forall (fun r => is_str (row_get c r) = false) (rows out1)).
  { rewrite Hrows1. apply Forall_forall. intros r Hr.
    apply list_elem_of_In, filter_In in Hr as [Hr _].
    rewrite Forall_forall in Hn. now apply Hn, list_elem_of_In. }
  assert (Hc1 : c ∈ columns out1) by exact Hc.
  pose proof (getitem_of_column out1 c Hc1) as Hs1.
  pose proof (series_lt_numeric _ b (no_str_column c _ Hn1)) as Hlt2.
  set (out2 := selected out1 (map (below b) (map (row_get c) (rows out1)))).
  pose proof (selected_rows out1 c b) as Hrows2. fold out2 in Hrows2.
  assert (Hrun2 : filter_price_outliers (S (length h)) b c v2 (h ++ [out1; out1])%list =
                  (Ok (S (length (h ++ [out1; out1])%list)),
                   ((h ++ [out1; out1]) ++ [out2; out2])%list)).
  { rewrite (filter_price_outliers_run _ _ out1 b c v2 _ _ Hl1 Hs1 Hlt2). fold out2.
    assert (E : v2 && Nat.eqb (df_len out1) 0 = false).
    { destruct Hv2 as [-> | He]; [reflexivity |]. unfold df_len. rewrite Hrows1.
      pose proof (filter_nonempty (fun r => below a (row_get c r)) (rows df) He) as Hne.
      destruct (List.filter _ (rows df)); [contradiction | apply andb_false_r]. }
    now rewrite E. }
  assert (Hboth : rows out2 =
                  List.filter (fun r => below a (row_get c r) && below b (row_get c r)) (rows df)).
  { now rewrite Hrows2, Hrows1, filter_filter_and. }
  exists out1, out2, (h ++ [out1; out1])%list, ((h ++ [out1; out1]) ++ [out2; out2])%list.
  split; [exact Hrun1 |]. split; [exact Hl1 |]. split; [exact Hrun2 |].
  split.
  { replace (S (length (h ++ [out1; out1])%list)) with (length (h ++ [out1; out1])%list + 1)%nat
      by lia.
    now rewrite lookup_beyond. }
  split; [reflexivity |]. split; [exact Hboth |]. split.
  - rewrite Hboth. apply filter_ext. intros r. apply andb_comm.
  - intros <-. apply frame_eq; [reflexivity |].
    rewrite Hboth, Hrows1. apply filter_ext. intros r. apply andb_diag.
Qed.

Lemma filter_price_outliers_twice_witness :
  exists out1 out2 h1 h2,
    filter_price_outliers 0 default_max_price "price" true [numeric_listings] =
      (Ok 2%nat, h1) /\
    h1 !! 2%nat = Some out1 /\
    filter_price_outliers 2 default_price_threshold "price" true h1 = (Ok (S (length h1)), h2) /\
    h2 !! S (length h1) = Some out2 /\
    columns out2 = columns numeric_listings /\
    rows out2 =
      List.filter (fun r => below default_max_price (row_get "price" r) &&
                            below default_price_threshold (row_get "price" r))
        (rows numeric_listings) /\
    rows out2 =
      List.filter (fun r => below default_price_threshold (row_get "price" r) &&
                            below default_max_price (row_get "price" r))
        (rows numeric_listings) /\
    (default_max_price = default_price_threshold -> out2 = out1).
Proof.
  apply (filter_price_outliers_twice [numeric_listings] 0 numeric_listings default_max_price
           default_price_threshold "price" true true).
  - reflexivity.
  - apply (bool_decide_unpack _). vm_compute. reflexivity.
  - repeat constructor.
  - right. discriminate.
  - right. left. vm_compute. reflexivity.
Defined.

End FilterTwice.


Section PipelineOutcome.

Lemma preprocess_data_no_price (h : heap) (l : loc) (df : DataFrame)
    (max_price : float64) (verbose : bool) :
  h !! l = Some df -> "price" ∉ columns df ->
  (preprocess_data l max_price verbose h).1 = Raise KeyError.
Proof.
  intros Hl Hc. unfold preprocess_data.
  now rewrite bind_run, (clean_price_column_missing h l df "price" Hl Hc).
Qed.

Lemma preprocess_data_no_month (h : heap) (l : loc) (df : DataFrame)
    (max_price : float64) (verbose : bool) :
  h !! l = Some df -> "price" ∈ columns df -> "month" ∉ columns df ->
  (preprocess_data l max_price verbose h).1 = Raise KeyError.
Proof.
  intros Hl Hp Hm. unfold preprocess_data.
  pose proof (getitem_of_column df "price" Hp) as Hs.
  rewrite (bind_run_Ok _ _ _ _ _ (clean_price_column_run h l df "price" _ Hl Hs)).
  rewrite bind_run, (add_month_number_missing _ (length h) _ "month" "month_num"
                       (lookup_fresh h _)); [reflexivity |].
  cbn [set_column columns]. now rewrite (add_column_old "price" _ Hp).
Qed.

(** The outcomes of the pipeline: [KeyError] for want of the [price] or
    the [month] column, [ZeroDivisionError] on a table without rows when
    the report is on, and a new table in every other case.  The cells never
    make it fail: after cleaning, the prices are numbers. *)
Theorem preprocess_data_outcome (h : heap) (l : loc) (df : DataFrame)
    (max_price : float64) (verbose : bool) :
  h !! l = Some df ->
  ((preprocess_data l max_price verbose h).1 = Raise KeyError <->
   "price" ∉ columns df \/ "month" ∉ columns df) /\
  ((preprocess_data l max_price verbose h).1 = Raise ZeroDivisionError <->
   "price" ∈ columns df /\ "month" ∈ columns df /\ rows df = [] /\ verbose = true) /\
  ((preprocess_data l max_price verbose h).1 = Ok (length h + 3)%nat <->
   "price" ∈ columns df /\ "month" ∈ columns df /\ (verbose = false \/ rows df <> [])) /\
  (forall e, (preprocess_data l max_price verbose h).1 = Raise e ->
             e = KeyError \/ e = ZeroDivisionError).
Proof.
  intros Hl. destruct (decide ("price" ∈ columns df)) as [Hp | Hp].
  2: { rewrite (preprocess_data_no_price h l df max_price verbose Hl Hp).
       repeat split; try discriminate; try tauto. intros e [= <-]. now left. }
  destruct (decide ("month" ∈ columns df)) as [Hm | Hm].
  2: { rewrite (preprocess_data_no_month h l df max_price verbose Hl Hp Hm).
       repeat split; try discriminate; try tauto. intros e [= <-]. now left. }
  pose proof (preprocess_data_run h l df max_price verbose _ _ Hl
                (getitem_of_column df "price" Hp) (getitem_of_column df "month" Hm)) as Hrun.
  cbv zeta in Hrun. rewrite Hrun. cbn [fst]. unfold df_len.
  destruct verbose, (rows df) as [|r rs] eqn:Er; cbn [andb length Nat.eqb].
  all: repeat split; try discriminate; try tauto; try (intros; intuition congruence).
  all: intros e [= <-]; now right.
Qed.

Lemma preprocess_data_outcome_witness :
  ((preprocess_data 0 default_max_price true [raw_listings]).1 = Raise KeyError <->
   "price" ∉ columns raw_listings \/ "month" ∉ columns raw_listings) /\
  ((preprocess_data 0 default_max_price true [raw_listings]).1 = Raise ZeroDivisionError <->
   "price" ∈ columns raw_listings /\ "month" ∈ columns raw_listings /\
   rows raw_listings = [] /\ true = true) /\
  ((preprocess_data 0 default_max_price true [raw_listings]).1 = Ok 4%nat <->
   "price" ∈ columns raw_listings /\ "month" ∈ columns raw_listings /\
   (true = false \/ rows raw_listings <> [])) /\
  (forall e, (preprocess_data 0 default_max_price true [raw_listings]).1 = Raise e ->
             e = KeyError \/ e = ZeroDivisionError).
Proof.
  apply (preprocess_data_outcome [raw_listings] 0 raw_listings default_max_price true).
  reflexivity.
Defined.

End PipelineOutcome.

Section PipelineColumns.

Context `{R : NumericReader}.

(** The pipeline adds the column [month_num] and touches no column but
    [price] and [month_num]: of every other column the result holds the
    cells of the rows that were kept, unchanged and in their order.  The
    rows kept are those whose price cleans to a number below the ceiling,
    the number being the one that the reader of [pd.to_numeric] gives the
    cleaned text, whichever reader that is. *)
Theorem preprocess_data_other_columns (h : heap) (l : loc) (df : DataFrame)
    (max_price : float64) (verbose : bool) :
  h !! l = Some df ->
  "price" ∈ columns df -> "month" ∈ columns df ->
  verbose = false \/ rows df <> [] ->
  exists out h',
    preprocess_data l max_price verbose h = (Ok (length h + 3)%nat, h') /\
    h' !! (length h + 3)%nat = Some out /\
    columns out = add_column "month_num" (columns df) /\
    forall c s, c <> "price" -> c <> "month_num" ->
                getitem df c = Ok s ->
                getitem out c =
                Ok (select (map (fun r => below max_price (clean_price (price_of r))) (rows df)) s).
Proof.
  intros Hl Hp Hm Hv.
  pose proof (getitem_of_column df "price" Hp) as Hs.
  pose proof (getitem_of_column df "month" Hm) as Hms.
  pose proof (preprocess_data_run h l df max_price verbose _ _ Hl Hs Hms) as Hrun.
  cbv zeta in Hrun.
  set (s := map (row_get "price") (rows df)) in *.
  set (m := map (row_get "month") (rows df)) in *.
  set (df1 := set_column df "price" (cleaned_prices s)) in *.
  set (df2 := set_column df1 "month_num" (series_map MONTH_MAPPING m)) in *.
  set (mask := map (fun r => below max_price (clean_price (price_of r))) (rows df)) in *.
  assert (Hno : verbose && Nat.eqb (df_len df) 0 = false).
  { destruct Hv as [-> | Hne]; [reflexivity |].
    unfold df_len. destruct (rows df); [contradiction | apply andb_false_r]. }
  rewrite Hno in Hrun.
  assert (Hlen1 : length (cleaned_prices s) = df_len df).
  { rewrite cleaned_prices_length. unfold s. now rewrite length_map. }
  assert (Hlen2 : length (series_map MONTH_MAPPING m) = df_len df1).
  { rewrite series_map_length. unfold df1. rewrite set_column_len by exact Hlen1.
    unfold m. now rewrite length_map. }
  exists (selected df2 mask), (h ++ [df1; df2; selected df2 mask; selected df2 mask])%list.
  split; [exact Hrun |]. split; [now rewrite lookup_beyond |]. split.
  - cbn [selected columns df2 df1 set_column]. now rewrite (add_column_old "price" _ Hp).
  - intros c x Hc1 Hc2 Hx. apply getitem_selected.
    apply getitem_set_column_other; [congruence | exact Hlen2 |].
    apply getitem_set_column_other; [congruence | exact Hlen1 | exact Hx].
Qed.

End PipelineColumns.

Section PipelineSamples.

Lemma preprocess_data_other_columns_witness :
  exists out h',
    preprocess_data 0 default_max_price true [raw_listings] = (Ok 4%nat, h') /\
    h' !! 4%nat = Some out /\
    columns out = add_column "month_num" (columns raw_listings) /\
    forall c s, c <> "price" -> c <> "month_num" ->
                getitem raw_listings c = Ok s ->
                getitem out c =
                Ok (select (map (fun r => below default_max_price (clean_price (price_of r)))
                              (rows raw_listings)) s).
Proof.
  apply (preprocess_data_other_columns [raw_listings] 0 raw_listings default_max_price true).
  - reflexivity.
  - apply (bool_decide_unpack _). vm_compute. reflexivity.
  - apply (bool_decide_unpack _). vm_compute. reflexivity.
  - right. discriminate.
Defined.

(** The prices that leave the pipeline, on the sample of four raw
    listings. *)
Lemma preprocess_data_prices_witness :
  exists l' out h',
    preprocess_data 0 default_max_price true [raw_listings] = (Ok l', h') /\
    h' !! l' = Some out /\
    map price_of (rows out) =
      select (map (below default_max_price)
                (cleaned_prices (map (row_get "price") (rows raw_listings))))
        (cleaned_prices (map (row_get "price") (rows raw_listings))) /\
    Forall (fun r => below default_max_price (price_of r) = true /\ price_of r <> NaN) (rows out).
Proof.
  apply (preprocess_data_prices [raw_listings] 0 raw_listings default_max_price true).
  - reflexivity.
  - reflexivity.
  - apply (bool_decide_unpack _). vm_compute. reflexivity.
  - right. discriminate.
Defined.

Lemma preprocessing_frame_witness :
  (clean_price_column 0 "price" [raw_listings]).2 !! 0%nat = Some raw_listings /\
  (add_month_number 0 "price" "month_num" [raw_listings]).2 !! 0%nat = Some raw_listings /\
  (filter_price_outliers 0 default_max_price "price" true [raw_listings]).2 !! 0%nat =
    Some raw_listings /\
  (preprocess_data 0 default_max_price true [raw_listings]).2 !! 0%nat = Some raw_listings /\
  (forall l', (clean_price_column 0 "price" [raw_listings]).1 = Ok l' \/
              (add_month_number 0 "price" "month_num" [raw_listings]).1 = Ok l' \/
              (filter_price_outliers 0 default_max_price "price" true [raw_listings]).1 = Ok l' \/
              (preprocess_data 0 default_max_price true [raw_listings]).1 = Ok l' ->
              [raw_listings] !! l' = None).
Proof.
  apply (preprocessing_frame [raw_listings] 0 0 raw_listings "price" "month_num"
           default_max_price true).
  reflexivity.
Defined.

End PipelineSamples.

Section PipelineTwice.

Lemma zip_insert_carries (c : string) (rs : list (gmap string cell)) (s : Series) :
  Forall (fun r => is_Some (r !! c)) (zip_with (fun r v => <[c := v]> r) rs s).
Proof.
  revert s. induction rs as [|r rs IH]; intros [|v s]; cbn [zip_with]; constructor.
  - rewrite lookup_insert_eq. eauto.
  - apply IH.
Qed.

Lemma zip_insert_keeps (c c' : string) (rs : list (gmap string cell)) (s : Series) :
  Forall (fun r => is_Some (r !! c')) rs ->
  Forall (fun r => is_Some (r !! c')) (zip_with (fun r v => <[c := v]> r) rs s).
Proof.
  intros H. revert s. induction H as [|r rs Hr _ IH]; intros [|v s]; cbn [zip_with];
    constructor.
  - destruct (decide (c = c')) as [-> | Hne].
    + rewrite lookup_insert_eq. eauto.
    + now rewrite lookup_insert_ne.
  - apply IH.
Qed.

Lemma select_Forall {A : Type} (P : A -> Prop) (mask : list bool) (xs : list A) :
  Forall P xs -> Forall P (select mask xs).
Proof.
  intros H. revert mask. induction H as [|x xs Hx _ IH]; intros [|b mask]; cbn [select];
    try constructor.
  destruct b; [constructor; [exact Hx | apply IH] | apply IH].
Qed.

(** Assigning to a column the cells it holds changes nothing, provided
    every row carries the column. *)
Lemma set_column_same (df : DataFrame) (c : string) (s : Series) :
  getitem df c = Ok s ->
  Forall (fun r => is_Some (r !! c)) (rows df) ->
  set_column df c s = df.
Proof.
  intros Hs Hrows. apply getitem_Ok in Hs as [Hc ->]. apply frame_eq.
  - cbn [set_column columns]. now apply add_column_old.
  - cbn [set_column rows]. induction Hrows as [|r rs [v Hv] _ IH]; [reflexivity |].
    cbn [map zip_with]. rewrite IH. f_equal.
    unfold row_get. rewrite Hv. cbn [default]. now apply insert_id.
Qed.

Lemma numeric_series_select (mask : list bool) (s : Series) :
  numeric_series s -> numeric_series (select mask s).
Proof.
  intros [H | H]; [left | right]; apply forallb_forall; intros c Hc;
    rewrite forallb_forall in H; apply H;
    revert mask Hc; induction s as [|x s IH]; intros [|b mask] Hc; cbn [select] in Hc;
    try destruct Hc.
  all: destruct b; [destruct Hc as [-> | Hc]; [now left | right] | right].
  all: try (eapply IH; [| exact Hc]; intros y Hy; apply H; now right).
Qed.

Lemma select_all {A : Type} (p : A -> bool) (xs : list A) :
  Forall (fun x => p x = true) xs -> select (map p xs) xs = xs.
Proof.
  intros H. induction H as [|x xs Hx _ IH]; [reflexivity |].
  cbn [map select]. now rewrite Hx, IH.
Qed.

Lemma series_map_months (ms : list string) :
  Forall (fun m => In m month_names) ms ->
  series_map MONTH_MAPPING (map CStr ms) =
  map (fun m => CInt (default 0%Z (MONTH_MAPPING !! m))) ms.
Proof.
  intros H. unfold series_map. rewrite map_map.
  assert (E : map (fun m => match MONTH_MAPPING !! m with
                            | Some n => CInt n
                            | None => NaN
                            end) ms =
              map CInt (map (fun m => default 0%Z (MONTH_MAPPING !! m)) ms)).
  { rewrite map_map. apply map_ext_in. intros m Hm.
    rewrite Forall_forall in H. apply list_elem_of_In, H in Hm.
    destruct (month_number_name m Hm) as (n & -> & _). reflexivity. }
  rewrite E, unify_numeric_ints. now rewrite map_map.
Qed.

(** Running the pipeline on its own result, for a table in which every
    month is an English month name: the second run returns a table equal
    to the first result. *)
Theorem preprocess_data_twice (h : heap) (l : loc) (df : DataFrame)
    (max_price : float64) (verbose : bool) (ms : list string) :
  h !! l = Some df ->
  "price" ∈ columns df ->
  getitem df "month" = Ok (map CStr ms) ->
  Forall (fun m => In m month_names) ms ->
  verbose = false \/
    Exists (fun r => below max_price (clean_price (price_of r)) = true) (rows df) ->
  exists out h1 h2,
    preprocess_data l max_price verbose h = (Ok (length h + 3)%nat, h1) /\
    h1 !! (length h + 3)%nat = Some out /\
    preprocess_data (length h + 3)%nat max_price verbose h1 = (Ok (length h1 + 3)%nat, h2) /\
    h2 !! (length h1 + 3)%nat = Some out.
Proof.
  intros Hl Hp Hm Hms Hv.
  pose proof (getitem_of_column df "price" Hp) as Hs.
  pose proof (preprocess_data_run h l df max_price verbose _ _ Hl Hs Hm) as Hrun.
  cbv zeta in Hrun.
  set (s := map (row_get "price") (rows df)) in *.
  set (cp := cleaned_prices s) in *.
  set (nums := series_map MONTH_MAPPING (map CStr ms)) in *.
  set (df1 := set_column df "price" cp) in *.
  set (df2 := set_column df1 "month_num" nums) in *.
  set (mask := map (fun r => below max_price (clean_price (price_of r))) (rows df)) in *.
  set (out := selected df2 mask) in *.
  assert (Hmask : mask = map (below max_price) cp).
  { unfold mask, cp. rewrite below_cleaned_prices. unfold s. now rewrite map_map. }
  assert (Hlen1 : length cp = df_len df).
  { unfold cp. rewrite cleaned_prices_length. unfold s. now rewrite length_map. }
  assert (Hlen2 : length nums = df_len df1).
  { unfold nums. rewrite series_map_length. unfold df1. rewrite set_column_len by exact Hlen1.
    now apply getitem_length with (c := "month"). }
  (* the first run *)
  assert (Hno : verbose && Nat.eqb (df_len df) 0 = false).
  { destruct Hv as [-> | He]; [reflexivity |]. unfold df_len.
    destruct (rows df); [inversion He | apply andb_false_r]. }
  rewrite Hno in Hrun.
  set (h1 := (h ++ [df1; df2; out; out])%list) in *.
  assert (Hl1 : h1 !! (length h + 3)%nat = Some out) by (unfold h1; now rewrite lookup_beyond).
  (* the columns of the first result *)
  assert (Hp2 : getitem df2 "price" = Ok cp).
  { apply getitem_set_column_other; [discriminate | exact Hlen2 |].
    now apply getitem_set_column. }
  assert (Hm2 : getitem df2 "month" = Ok (map CStr ms)).
  { apply getitem_set_column_other; [discriminate | exact Hlen2 |].
    apply getitem_set_column_other; [discriminate | exact Hlen1 | exact Hm]. }
  assert (Hn2 : getitem df2 "month_num" = Ok nums) by now apply getitem_set_column.
  pose proof (getitem_selected df2 mask _ _ Hp2) as Hpo. fold out in Hpo.
  pose proof (getitem_selected df2 mask _ _ Hm2) as Hmo. fold out in Hmo.
  pose proof (getitem_selected df2 mask _ _ Hn2) as Hno'. fold out in Hno'.
  assert (Hcarry_p : Forall (fun r => is_Some (r !! "price")) (rows out)).
  { apply select_Forall. cbn [df2 set_column rows]. apply zip_insert_keeps.
    apply zip_insert_carries. }
  assert (Hcarry_n : Forall (fun r => is_Some (r !! "month_num")) (rows out)).
  { apply select_Forall. cbn [df2 set_column rows]. apply zip_insert_carries. }
  (* the second run *)
  pose proof (preprocess_data_run h1 (length h + 3) out max_price verbose _ _ Hl1 Hpo Hmo)
    as Hrun2.
  cbv zeta in Hrun2.
  assert (Hclean : cleaned_prices (select mask cp) = select mask cp).
  { apply cleaned_prices_numeric, numeric_series_select. apply unify_numeric_numeric. }
  assert (Hnums : series_map MONTH_MAPPING (select mask (map CStr ms)) = select mask nums).
  { rewrite <- select_map. rewrite series_map_months by now apply select_Forall.
    unfold nums. rewrite series_map_months by exact Hms. apply select_map. }
  rewrite Hclean, Hnums in Hrun2.
  rewrite (set_column_same out "price" _ Hpo Hcarry_p) in Hrun2.
  rewrite (set_column_same out "month_num" _ Hno' Hcarry_n) in Hrun2.
  assert (Hall : Forall (fun r => below max_price (clean_price (price_of r)) = true) (rows out)).
  { apply Forall_forall. intros r Hr.
    assert (Hc : price_of r ∈ select mask cp).
    { apply getitem_Ok in Hpo as [_ Hpo]. rewrite Hpo.
      apply list_elem_of_In, in_map, list_elem_of_In, Hr. }
    rewrite Hmask in Hc. apply select_map_In in Hc as [Hin Hb].
    rewrite clean_price_number; [exact Hb |].
    apply numeric_series_no_str with (s := cp);
      [apply unify_numeric_numeric | now apply list_elem_of_In]. }
  assert (Hout : selected out (map (fun r => below max_price (clean_price (price_of r)))
                                 (rows out)) = out).
  { apply frame_eq; [reflexivity |]. cbn [selected rows]. now apply select_all. }
  rewrite Hout in Hrun2.
  assert (Hno2 : verbose && Nat.eqb (df_len out) 0 = false).
  { destruct Hv as [-> | He]; [reflexivity |]. unfold df_len, out. cbn [selected rows].
    assert (Hne : select mask (rows df2) <> []).
    { intros E.
      assert (El : length (select mask (rows df)) = length (select mask (rows df2))).
      { apply select_length_eq. change (df_len df = df_len df2).
        unfold df2. rewrite set_column_len by exact Hlen2.
        unfold df1. now rewrite set_column_len. }
      rewrite E in El. unfold mask in El. rewrite select_filter in El.
      apply (filter_nonempty _ _ He). now apply length_zero_iff_nil. }
    destruct (select mask (rows df2)); [contradiction | apply andb_false_r]. }
  rewrite Hno2 in Hrun2.
  exists out, h1, (h1 ++ [out; out; out; out])%list.
  split; [exact Hrun |]. split; [exact Hl1 |]. split; [exact Hrun2 |].
  now rewrite lookup_beyond.
Qed.

Lemma preprocess_data_twice_witness :
  exists out h1 h2,
    preprocess_data 0 default_max_price true [raw_listings] = (Ok 4%nat, h1) /\
    h1 !! 4%nat = Some out /\
    preprocess_data 4 default_max_price true h1 = (Ok (length h1 + 3)%nat, h2) /\
    h2 !! (length h1 + 3)%nat = Some out.
Proof.
  apply (preprocess_data_twice [raw_listings] 0 raw_listings default_max_price true
           ["May"; "June"; "June"; "May"]).
  - reflexivity.
  - apply (bool_decide_unpack _). vm_compute. reflexivity.
  - reflexivity.
  - repeat constructor; simpl; tauto.
  - right. left. vm_compute. reflexivity.
Defined.

End PipelineTwice.


(** ** More on the borough comparison and on the seasonal range *)

Section ComparisonEdges.

Lemma series_mean_numeric (s : Series) :
  no_strings s -> series_mean s = Ok (values_mean (values_of s)).
Proof. intros H. unfold series_mean. now rewrite numeric_values_Ok. Qed.

Lemma no_strings_select (mask : list bool) (s : Series) :
  no_strings s -> no_strings (select mask s).
Proof.
  unfold no_strings. rewrite !forallb_forall. intros H c Hc. apply H. clear H.
  revert mask Hc. induction s as [|x s IH]; intros [|b mask] Hc; cbn [select] in Hc;
    try destruct Hc.
  destruct b; [destruct Hc as [-> | Hc]; [now left | right] | right]; eapply IH; exact Hc.
Qed.

(** The comparison in closed form, for a price column without strings. *)
Lemma compare_boroughs_numeric (df : DataFrame) (borough_col target_borough price_col : string)
    (b p : Series) :
  getitem df borough_col = Ok b ->
  getitem df price_col = Ok p ->
  no_strings p ->
  let target := values_mean (values_of (select (series_eq_str b target_borough) p)) in
  let other := values_mean (values_of (select (map negb (series_eq_str b target_borough)) p)) in
  compare_boroughs df borough_col target_borough price_col =
  Ok {| comparison_columns :=
          [target_borough ++ "_avg_price"; "Other_boroughs_avg_price"; "Ratio"];
        target_avg_price := target;
        other_avg_price := other;
        ratio := xdiv target other |}.
Proof.
  intros Hb Hp Hn. cbv zeta.
  pose proof (getitem_length df borough_col b Hb) as Hlen.
  assert (Hm1 : length (series_eq_str b target_borough) = df_len df).
  { unfold series_eq_str. now rewrite length_map. }
  assert (Hm2 : length (map negb (series_eq_str b target_borough)) = df_len df).
  { now rewrite length_map. }
  unfold compare_boroughs. rewrite Hb. cbn [mbind result_bind].
  rewrite (getitem_mask_Ok df _ Hm1). cbn [mbind result_bind].
  rewrite (getitem_selected df _ price_col p Hp). cbn [mbind result_bind].
  rewrite series_mean_numeric by now apply no_strings_select. cbn [mbind result_bind].
  rewrite (getitem_mask_Ok df _ Hm2). cbn [mbind result_bind].
  rewrite (getitem_selected df _ price_col p Hp). cbn [mbind result_bind].
  rewrite series_mean_numeric by now apply no_strings_select. reflexivity.
Qed.

Lemma select_none {A : Type} (mask : list bool) (xs : list A) :
  Forall (fun b => b = false) mask -> select mask xs = [].
Proof.
  intros H. revert xs. induction H as [|b mask -> _ IH]; intros [|x xs]; cbn [select]; auto.
Qed.

Lemma select_every {A : Type} (mask : list bool) (xs : list A) :
  Forall (fun b => b = true) mask -> length mask = length xs -> select mask xs = xs.
Proof.
  intros H. revert xs. induction H as [|b mask -> _ IH]; intros [|x xs] Hlen;
    cbn [select]; try discriminate; [reflexivity |].
  f_equal. apply IH. now injection Hlen.
Qed.

(** When no row is of the target borough, nothing is raised: the target
    mean is NaN, the other mean is the mean of all prices, and the ratio is
    NaN. *)
Theorem compare_boroughs_absent_target (df : DataFrame)
    (borough_col target_borough price_col : string) (b p : Series) :
  getitem df borough_col = Ok b ->
  getitem df price_col = Ok p ->
  no_strings p ->
  Forall (fun c => c <> CStr target_borough) b ->
  exists r,
    compare_boroughs df borough_col target_borough price_col = Ok r /\
    target_avg_price r = XNaN /\
    other_avg_price r = values_mean (values_of p) /\
    ratio r = XNaN.
Proof.
  intros Hb Hp Hn Habs.
  pose proof (compare_boroughs_numeric df borough_col target_borough price_col b p Hb Hp Hn)
    as Hrun.
  cbv zeta in Hrun.
  assert (Hmask : Forall (fun x => x = false) (series_eq_str b target_borough)).
  { unfold series_eq_str. apply Forall_map. eapply Forall_impl; [exact Habs |].
    intros [t | z | x] Hc; cbn; try reflexivity.
    apply String.eqb_neq. congruence. }
  assert (Hneg : Forall (fun x => x = true) (map negb (series_eq_str b target_borough))).
  { apply Forall_map. eapply Forall_impl; [exact Hmask |]. now intros x ->. }
  rewrite (select_none _ p Hmask) in Hrun.
  rewrite (select_every _ p Hneg) in Hrun.
  2: { rewrite length_map. unfold series_eq_str. rewrite length_map.
       rewrite (getitem_length df borough_col b Hb).
       symmetry. now apply getitem_length with (c := price_col). }
  eexists. split; [exact Hrun |]. repeat split.
Qed.

Lemma compare_boroughs_absent_target_witness :
  exists r,
    compare_boroughs boroughs "neighbourhood_group_cleansed" "Staten Island" "price" = Ok r /\
    target_avg_price r = XNaN /\
    other_avg_price r =
      values_mean (values_of [price 150; price 80; price 250; CFloat FNaN]) /\
    ratio r = XNaN.
Proof.
  apply (compare_boroughs_absent_target boroughs "neighbourhood_group_cleansed"
           "Staten Island" "price"
           [CStr "Manhattan"; CStr "Bronx"; CStr "Manhattan"; CStr "Queens"]).
  - reflexivity.
  - reflexivity.
  - reflexivity.
  - repeat constructor; discriminate.
Defined.

(** When the other boroughs have the mean price zero, nothing is raised
    either: the ratio is an infinity, or NaN when the target mean is zero
    as well. *)
Theorem compare_boroughs_zero_other_mean (df : DataFrame)
    (borough_col target_borough price_col : string) (b p : Series) (ts os : list Q) :
  getitem df borough_col = Ok b ->
  getitem df price_col = Ok p ->
  finite_values (select (series_eq_str b target_borough) p) = Some ts ->
  finite_values (select (map negb (series_eq_str b target_borough)) p) = Some os ->
  ts <> [] -> os <> [] ->
  Qeq (Qmean os) 0 ->
  exists r,
    compare_boroughs df borough_col target_borough price_col = Ok r /\
    (Qeq (Qmean ts) 0 -> ratio r = XNaN) /\
    (~ Qeq (Qmean ts) 0 -> exists s, ratio r = XInf s).
Proof.
  intros Hb Hp Hts Hos Htne Hone Hoz.
  destruct (series_mean_finite _ ts Hts Htne) as (t & Ht & Et).
  destruct (series_mean_finite _ os Hos Hone) as (o & Ho & Eo).
  assert (Hoz' : Qzero_b o = true) by (apply Qzero_b_spec; now rewrite Eo).
  pose proof (getitem_length df borough_col b Hb) as Hlen.
  assert (Hm1 : length (series_eq_str b target_borough) = df_len df).
  { unfold series_eq_str. now rewrite length_map. }
  assert (Hm2 : length (map negb (series_eq_str b target_borough)) = df_len df).
  { now rewrite length_map. }
  eexists. split.
  - unfold compare_boroughs. rewrite Hb. cbn [mbind result_bind].
    rewrite (getitem_mask_Ok df _ Hm1). cbn [mbind result_bind].
    rewrite (getitem_selected df _ price_col p Hp). cbn [mbind result_bind].
    rewrite Ht. cbn [mbind result_bind].
    rewrite (getitem_mask_Ok df _ Hm2). cbn [mbind result_bind].
    rewrite (getitem_selected df _ price_col p Hp). cbn [mbind result_bind].
    rewrite Ho. cbn [mbind result_bind]. reflexivity.
  - cbn [ratio xdiv]. rewrite Hoz'. split.
    + intros Hz. assert (Htz : Qzero_b t = true) by (apply Qzero_b_spec; now rewrite Et).
      now rewrite Htz.
    + intros Hz. assert (Htz : Qzero_b t = false) by (apply Qzero_b_false; now rewrite Et).
      rewrite Htz. eauto.
Qed.

Lemma compare_boroughs_zero_other_mean_witness :
  exists r,
    compare_boroughs free_elsewhere "neighbourhood_group_cleansed" "Manhattan" "price" = Ok r /\
    (Qeq (Qmean [150%Q]) 0 -> ratio r = XNaN) /\
    (~ Qeq (Qmean [150%Q]) 0 -> exists s, ratio r = XInf s).
Proof.
  apply (compare_boroughs_zero_other_mean free_elsewhere "neighbourhood_group_cleansed"
           "Manhattan" "price" [CStr "Manhattan"; CStr "Bronx"] [price 150; price 0]
           [150%Q] [0%Q]).
  - reflexivity.
  - reflexivity.
  - reflexivity.
  - reflexivity.
  - discriminate.
  - discriminate.
  - reflexivity.
Defined.

End ComparisonEdges.


Section SeasonalEdges.

Lemma group_keys_all_missing (keys : Series) :
  Forall (fun k => cell_isna k = true) keys -> group_keys keys = [].
Proof.
  intros H. unfold group_keys.
  assert (E : List.filter (fun k => negb (cell_isna k)) keys = []).
  { induction H as [|k keys Hk _ IH]; [reflexivity |]. simpl. now rewrite Hk. }
  now rewrite E.
Qed.

(** A table without groups, one in which every month number is missing,
    raises nothing: the four results are NaN. *)
Theorem calculate_seasonal_range_no_groups (df : DataFrame) (groupby_col price_col : string)
    (keys prices : Series) :
  getitem df groupby_col = Ok keys ->
  getitem df price_col = Ok prices ->
  no_strings prices ->
  Forall (fun k => cell_isna k = true) keys ->
  calculate_seasonal_range df groupby_col price_col =
  Ok {| min_price := XNaN; max_price := XNaN; range := XNaN; pct_range := XNaN |}.
Proof.
  intros Hk Hp Hn Hall. unfold calculate_seasonal_range.
  rewrite (group_means_Ok df groupby_col price_col keys prices Hk Hp Hn).
  now rewrite (group_keys_all_missing keys Hall).
Qed.

Lemma calculate_seasonal_range_no_groups_witness :
  calculate_seasonal_range unnumbered_listings "month_num" "price" =
  Ok {| min_price := XNaN; max_price := XNaN; range := XNaN; pct_range := XNaN |}.
Proof.
  apply (calculate_seasonal_range_no_groups unnumbered_listings "month_num" "price"
           [NaN; NaN] [price 100; price 120]).
  - reflexivity.
  - reflexivity.
  - reflexivity.
  - repeat constructor.
Defined.

(** When the smallest group mean is zero, nothing is raised: the
    percentage is an infinity, or NaN when the largest mean is zero as
    well. *)
Theorem calculate_seasonal_range_zero_minimum (df : DataFrame)
    (groupby_col price_col : string) (monthly_avg : list (cell * xQ)) (qs : list Q) :
  group_means df groupby_col price_col = Ok monthly_avg ->
  dropna (map snd monthly_avg) = map XFin qs ->
  Exists (fun q => Qeq q 0) qs ->
  Forall (fun q => (0 <= q)%Q) qs ->
  exists r lo hi,
    calculate_seasonal_range df groupby_col price_col = Ok r /\
    min_price r = XFin lo /\ Qeq lo 0 /\
    max_price r = XFin hi /\
    (Qeq hi 0 -> pct_range r = XNaN) /\
    (~ Qeq hi 0 -> exists s, pct_range r = XInf s).
Proof.
  intros Hg Hd Hz Hpos.
  assert (Hne : qs <> []) by (intros ->; inversion Hz).
  destruct (values_min_finite _ qs Hd Hne) as (lo & Hlo & Hlo_in & Hlo_le).
  destruct (values_max_finite _ qs Hd Hne) as (hi & Hhi & Hhi_in & Hhi_le).
  destruct (xsub_finite hi lo) as (d & Hsub & Ed).
  assert (Hlo0 : Qeq lo 0).
  { apply Exists_exists in Hz as (z & Hz & Ez). apply Qle_antisym.
    - rewrite <- Ez. apply Hlo_le. now apply list_elem_of_In.
    - rewrite Forall_forall in Hpos. now apply Hpos, list_elem_of_In. }
  assert (Hzb : Qzero_b lo = true) by now apply Qzero_b_spec.
  eexists _, lo, hi. split.
  - unfold calculate_seasonal_range. rewrite Hg. cbn [mbind result_bind]. reflexivity.
  - cbn [min_price max_price range pct_range]. rewrite Hlo, Hhi, Hsub.
    repeat split; try assumption; cbn [xdiv]; rewrite Hzb.
    + intros Hh. assert (Hdz : Qzero_b d = true).
      { apply Qzero_b_spec. rewrite Ed, Hh, Hlo0. reflexivity. }
      now rewrite Hdz.
    + intros Hh. assert (Hdz : Qzero_b d = false).
      { apply Qzero_b_false. rewrite Ed, Hlo0. intros E. apply Hh. rewrite <- E. ring. }
      rewrite Hdz. cbn [xmul]. eauto.
Qed.

Lemma calculate_seasonal_range_zero_minimum_witness :
  exists r lo hi,
    calculate_seasonal_range free_month "month_num" "price" = Ok r /\
    min_price r = XFin lo /\ Qeq lo 0 /\
    max_price r = XFin hi /\
    (Qeq hi 0 -> pct_range r = XNaN) /\
    (~ Qeq hi 0 -> exists s, pct_range r = XInf s).
Proof.
  apply (calculate_seasonal_range_zero_minimum free_month "month_num" "price"
           [(CInt 1, XFin 0); (CInt 2, XFin 150)] [0; 150]%Q).
  - reflexivity.
  - reflexivity.
  - left. reflexivity.
  - repeat constructor; discriminate.
Defined.

End SeasonalEdges.


(** ** Counting luxury listings *)

Section LuxuryCount.

Lemma series_gt_outcome (s : Series) (x : float64) :
  (Forall (fun c => is_str c = false) s /\ series_gt s x = Ok (map (above x) s)) \/
  (Exists (fun c => is_str c = true) s /\ series_gt s x = Raise TypeError).
Proof.
  unfold series_gt. induction s as [|c s IH].
  - left. split; [constructor | reflexivity].
  - destruct c as [t | z | y].
    + right. split; [now left | reflexivity].
    + destruct IH as [[H1 H2] | [H1 H2]]; [left | right].
      * split; [now constructor |]. cbn [for_each map]. now rewrite H2.
      * split; [now right |]. cbn [for_each]. now rewrite H2.
    + destruct IH as [[H1 H2] | [H1 H2]]; [left | right].
      * split; [now constructor |]. cbn [for_each map]. now rewrite H2.
      * split; [now right |]. cbn [for_each]. now rewrite H2.
Qed.

Lemma no_strings_Forall (s : Series) :
  no_strings s <-> Forall (fun c => is_str c = false) s.
Proof.
  unfold no_strings. rewrite forallb_forall, Forall_forall. split; intros H c Hc.
  - apply list_elem_of_In, H in Hc. now destruct (is_str c).
  - apply list_elem_of_In, H in Hc. now rewrite Hc.
Qed.

Lemma series_gt_numeric (s : Series) (x : float64) :
  no_strings s -> series_gt s x = Ok (map (above x) s).
Proof.
  intros H. apply no_strings_Forall in H.
  destruct (series_gt_outcome s x) as [[_ E] | [He _]]; [exact E |].
  exfalso. apply Exists_exists in He as (c & Hc & Hs).
  rewrite Forall_forall in H. specialize (H c Hc). congruence.
Qed.

(** The rows above the threshold. *)
Lemma luxury_rows (df : DataFrame) (c : string) (p : Series) (x : float64) :
  getitem df c = Ok p ->
  df_len (selected df (map (above x) p)) = length (List.filter (above x) p).
Proof.
  intros Hp. unfold df_len. cbn [selected rows].
  rewrite <- (select_filter (above x) p). apply select_length_eq.
  symmetry. now apply getitem_length with (c := c).
Qed.

Lemma count_luxury_listings_numeric (df : DataFrame) (x : float64) (g : option string)
    (c : string) (p : Series) :
  getitem df c = Ok p -> no_strings p ->
  count_luxury_listings df x g c =
  if truthy_str g
  then CountBy <$> groupby_size (selected df (map (above x) p)) (default "" g)
  else Ok (Count (length (List.filter (above x) p))).
Proof.
  intros Hp Hn. unfold count_luxury_listings. rewrite Hp. cbn [mbind result_bind].
  rewrite (series_gt_numeric p x Hn). cbn [mbind result_bind].
  rewrite getitem_mask_Ok.
  2: { rewrite length_map. now apply getitem_length with (c := c). }
  cbn [mbind result_bind]. destruct (truthy_str g); [reflexivity |].
  now rewrite (luxury_rows df c p x Hp).
Qed.

(** Without a grouping column (none given, or the empty string) the
    result is the number of rows priced strictly above the threshold; a row
    whose price is missing or equal to the threshold is not counted. *)
Theorem count_luxury_listings_total (df : DataFrame) (price_threshold : float64)
    (groupby_col : option string) (price_col : string) (p : Series) :
  getitem df price_col = Ok p ->
  no_strings p ->
  truthy_str groupby_col = false ->
  count_luxury_listings df price_threshold groupby_col price_col =
    Ok (Count (length (List.filter (above price_threshold) p))) /\
  (length (List.filter (above price_threshold) p) <= df_len df)%nat /\
  (forall c, In c (List.filter (above price_threshold) p) ->
             c <> NaN /\ below price_threshold c = false).
Proof.
  intros Hp Hn Hg. split; [| split].
  - rewrite (count_luxury_listings_numeric df _ _ _ p Hp Hn). now rewrite Hg.
  - rewrite <- (getitem_length df price_col p Hp). apply List.filter_length_le.
  - intros c Hc. apply filter_In in Hc as [_ Hc]. split.
    + intros ->. unfold above in Hc. cbn [NaN cell_value float_value] in Hc.
      destruct (float_value price_threshold) as [|[]|]; discriminate Hc.
    + destruct (below price_threshold c) eqn:E; [| reflexivity].
      apply below_not_above in E. congruence.
Qed.

Lemma count_luxury_listings_total_witness :
  count_luxury_listings luxury_sample default_price_threshold (Some "") "price" =
    Ok (Count (length (List.filter (above default_price_threshold)
                         (map (row_get "price") (rows luxury_sample))))) /\
  (length (List.filter (above default_price_threshold)
             (map (row_get "price") (rows luxury_sample))) <= df_len luxury_sample)%nat /\
  (forall c, In c (List.filter (above default_price_threshold)
                     (map (row_get "price") (rows luxury_sample))) ->
             c <> NaN /\ below default_price_threshold c = false).
Proof.
  apply (count_luxury_listings_total luxury_sample default_price_threshold (Some "") "price").
  - reflexivity.
  - reflexivity.
  - reflexivity.
Defined.

Example count_luxury_sample :
  count_luxury_listings luxury_sample default_price_threshold None "price" = Ok (Count 4) /\
  count_luxury_listings luxury_sample default_price_threshold
    (Some "neighbourhood_group_cleansed") "price" =
    Ok (CountBy [(CStr "Brooklyn", 1%nat); (CStr "Manhattan", 2%nat)]).
Proof. split; vm_compute; reflexivity. Qed.

(** The exceptions of the count: [KeyError] for want of the price column
    or of the grouping column, [TypeError] when the price column holds a
    string. *)
Theorem count_luxury_listings_outcome (df : DataFrame) (price_threshold : float64)
    (groupby_col : option string) (price_col : string) :
  (count_luxury_listings df price_threshold groupby_col price_col = Raise TypeError <->
   price_col ∈ columns df /\
   Exists (fun r => is_str (row_get price_col r) = true) (rows df)) /\
  (count_luxury_listings df price_threshold groupby_col price_col = Raise KeyError <->
   price_col ∉ columns df \/
   (Forall (fun r => is_str (row_get price_col r) = false) (rows df) /\
    truthy_str groupby_col = true /\ default "" groupby_col ∉ columns df)) /\
  ((exists n, count_luxury_listings df price_threshold groupby_col price_col = Ok n) <->
   price_col ∈ columns df /\
   Forall (fun r => is_str (row_get price_col r) = false) (rows df) /\
   (truthy_str groupby_col = true -> default "" groupby_col ∈ columns df)).
Proof.
  assert (Hcases :
    forall (r : result luxury_count) (P Q S : Prop),
      (r = Raise TypeError /\ P /\ ~ Q /\ ~ S) \/
      (r = Raise KeyError /\ ~ P /\ Q /\ ~ S) \/
      ((exists n, r = Ok n) /\ ~ P /\ ~ Q /\ S) ->
      (r = Raise TypeError <-> P) /\ (r = Raise KeyError <-> Q) /\ ((exists n, r = Ok n) <-> S)).
  { intros r P Q S [(-> & HP & HQ & HS) | [(-> & HP & HQ & HS) | ((n & ->) & HP & HQ & HS)]];
      repeat split; try discriminate; try tauto; eauto; intros (m & Hm); discriminate Hm. }
  apply Hcases. clear Hcases.
  destruct (decide (price_col ∈ columns df)) as [Hc | Hc].
  2: { right; left. unfold count_luxury_listings. rewrite (getitem_missing df price_col Hc).
       cbn [mbind result_bind]. repeat split; tauto. }
  pose proof (getitem_of_column df price_col Hc) as Hp.
  destruct (series_gt_outcome (map (row_get price_col) (rows df)) price_threshold)
    as [[Hn Hgt] | [Hn Hgt]].
  - assert (Hns : no_strings (map (row_get price_col) (rows df))) by now apply no_strings_Forall.
    apply Forall_map in Hn.
    assert (Hne : ~ Exists (fun r => is_str (row_get price_col r) = true) (rows df)).
    { intros He. eapply Forall_Exists_str; eassumption. }
    rewrite (count_luxury_listings_numeric df _ _ _ _ Hp Hns).
    destruct (truthy_str groupby_col) eqn:Eg.
    + unfold groupby_size.
      destruct (decide (default "" groupby_col ∈ columns df)) as [Hg | Hg].
      * right; right.
        rewrite (getitem_of_column (selected df _) _ Hg).
        cbn [mbind result_bind fmap result_fmap].
        repeat split; eauto; tauto.
      * right; left.
        rewrite (getitem_missing (selected df _) _ Hg).
        cbn [mbind result_bind fmap result_fmap].
        repeat split; tauto.
    + right; right. repeat split; eauto; try tauto; try discriminate.
      intros [H | (_ & H & _)]; [contradiction | discriminate H].
  - left. apply Exists_map in Hn. unfold count_luxury_listings. rewrite Hp.
    cbn [mbind result_bind]. rewrite Hgt. cbn [mbind result_bind].
    assert (Hnf : ~ Forall (fun r => is_str (row_get price_col r) = false) (rows df)).
    { intros Hf. eapply Forall_Exists_str; eassumption. }
    repeat split; tauto.
Qed.

End LuxuryCount.


Section LuxuryAndFilter.

Lemma count_above_below (x : float64) (p : Series) :
  (length (List.filter (above x) p) + length (List.filter (below x) p) <= length p)%nat /\
  (length (List.filter (above x) p) + length (List.filter (below x) p) = length p <->
   Forall (fun c => above x c || below x c = true) p).
Proof.
  induction p as [|c p [IH1 IH2]]; [split; [reflexivity | split; [constructor | reflexivity]] |].
  cbn [List.filter]. destruct (below x c) eqn:Eb.
  - rewrite (below_not_above x c Eb). cbn [length]. split; [lia |].
    rewrite Forall_cons, Eb, orb_true_r. split.
    + intros H. split; [reflexivity |]. apply IH2. lia.
    + intros [_ H]. apply IH2 in H. lia.
  - destruct (above x c) eqn:Ea; cbn [length]; (split; [lia |]);
      rewrite Forall_cons, Ea, Eb; cbn [orb]; split.
    + intros H. split; [reflexivity |]. apply IH2. lia.
    + intros [_ H]. apply IH2 in H. lia.
    + intros H. exfalso. lia.
    + intros [H _]. discriminate H.
Qed.

(** With one number as luxury threshold and as ceiling of the outlier
    filter, a row is counted as luxury, or kept by the filter, or neither,
    and neither exactly when its price is missing or equal to the
    number. *)
Theorem luxury_and_filter_partition (h : heap) (l : loc) (df : DataFrame) (x : float64)
    (c : string) (verbose : bool) (p : Series) :
  h !! l = Some df ->
  getitem df c = Ok p ->
  no_strings p ->
  verbose = false \/ rows df <> [] ->
  exists n out h',
    count_luxury_listings df x None c = Ok (Count n) /\
    filter_price_outliers l x c verbose h = (Ok (S (length h)), h') /\
    h' !! S (length h) = Some out /\
    (n + df_len out <= df_len df)%nat /\
    (n + df_len out = df_len df <-> Forall (fun v => above x v || below x v = true) p).
Proof.
  intros Hl Hp Hn Hv.
  pose proof (getitem_length df c p Hp) as Hlen.
  set (out := selected df (map (below x) p)).
  assert (Hout : df_len out = length (List.filter (below x) p)).
  { unfold df_len, out. cbn [selected rows]. rewrite <- (select_filter (below x) p).
    apply select_length_eq. now symmetry. }
  exists (length (List.filter (above x) p)), out, (h ++ [out; out])%list.
  split; [now rewrite (count_luxury_listings_numeric df x None c p Hp Hn) |].
  split.
  { rewrite (filter_price_outliers_run h l df x c verbose p _ Hl Hp (series_lt_numeric p x Hn)).
    fold out.
    assert (E : verbose && Nat.eqb (df_len df) 0 = false).
    { destruct Hv as [-> | Hne]; [reflexivity |]. unfold df_len.
      destruct (rows df); [contradiction | apply andb_false_r]. }
    now rewrite E. }
  split.
  { replace (S (length h)) with (length h + 1)%nat by lia. now rewrite lookup_beyond. }
  rewrite Hout, <- Hlen. apply count_above_below.
Qed.

Lemma luxury_and_filter_partition_witness :
  exists n out h',
    count_luxury_listings luxury_sample default_price_threshold None "price" = Ok (Count n) /\
    filter_price_outliers 0 default_price_threshold "price" true [luxury_sample] =
      (Ok 2%nat, h') /\
    h' !! 2%nat = Some out /\
    (n + df_len out <= df_len luxury_sample)%nat /\
    (n + df_len out = df_len luxury_sample <->
     Forall (fun v => above default_price_threshold v || below default_price_threshold v = true)
       (map (row_get "price") (rows luxury_sample))).
Proof.
  apply (luxury_and_filter_partition [luxury_sample] 0 luxury_sample default_price_threshold
           "price" true).
  - reflexivity.
  - reflexivity.
  - reflexivity.
  - right. discriminate.
Defined.

End LuxuryAndFilter.


(** ** The order of group keys *)

Section KeyOrder.

Lemma xle_finite (p q : Q) : xle (XFin p) (XFin q) = true <-> (p <= q)%Q.
Proof.
  unfold xle. destruct (xlt (XFin q) (XFin p)) eqn:E; cbn [negb].
  - apply xlt_finite in E. split; [discriminate |]. intros H. exfalso.
    now apply (Qlt_not_le _ _ E).
  - split; [| reflexivity]. intros _. apply Qnot_lt_le. intros H.
    apply xlt_finite in H. congruence.
Qed.

Lemma xle_trans (x y z : xQ) :
  xnan y = false -> xle x y = true -> xle y z = true -> xle x z = true.
Proof.
  destruct x as [|[]|p], y as [|[]|q], z as [|[]|r]; try discriminate; try reflexivity.
  intros _. rewrite !xle_finite. apply Qle_trans.
Qed.

Lemma xle_refl (x : xQ) : xle x x = true.
Proof.
  destruct x as [|[]|p]; try reflexivity. apply xle_finite, Qle_refl.
Qed.

Lemma str_leb_trans (s t u : string) :
  String.leb s t = true -> String.leb t u = true -> String.leb s u = true.
Proof.
  rewrite !str_leb_spec. intros [E1 | H1] [E2 | H2].
  - left. congruence.
  - right. now rewrite E1.
  - right. now rewrite <- E2.
  - right. eapply String_as_OT.lt_trans; eassumption.
Qed.

Lemma str_leb_refl (s : string) : String.leb s s = true.
Proof. apply str_leb_spec. now left. Qed.

Lemma value_not_nan (c : cell) (v : xQ) :
  cell_isna c = false -> cell_value c = Some v -> xnan v = false.
Proof.
  destruct c as [s | z | [| b | b i f]]; cbn; try discriminate.
  - now intros _ [= <-].
  - now intros _ [= <-].
  - intros _ [= <-]. now destruct b.
Qed.

Lemma key_leb_trans (a b c : cell) :
  cell_isna b = false ->
  key_leb a b = true -> key_leb b c = true -> key_leb a c = true.
Proof.
  intros Hb.
  assert (Hnum : forall x y z,
            cell_value a = Some x -> cell_value b = Some y -> cell_value c = Some z ->
            xle x y = true -> xle y z = true -> xle x z = true).
  { intros x y z _ Hy _. apply xle_trans. now apply (value_not_nan b). }
  destruct a as [s | z | x], b as [t | w | y], c as [u | v | r]; cbn [key_leb];
    try discriminate; try reflexivity; try apply str_leb_trans;
    cbn [cell_value] in *; now apply Hnum.
Qed.

Lemma key_leb_refl (a : cell) : key_leb a a = true.
Proof.
  destruct a as [s | z | x]; cbn [key_leb cell_value];
    [apply str_leb_refl | apply xle_refl ..].
Qed.

Lemma key_eqb_refl (a : cell) : key_eqb a a = true.
Proof. unfold key_eqb. now rewrite key_leb_refl. Qed.

Lemma insert_key_keeps (k : cell) (ks : list cell) (x : cell) :
  In x ks -> In x (insert_key k ks).
Proof.
  induction ks as [|k' ks IH]; [intros [] |]. cbn [insert_key].
  destruct (key_eqb k k'); [tauto |].
  destruct (key_leb k k'); [now right |].
  intros [-> | H]; [now left | right; now apply IH].
Qed.

Lemma insert_key_represents (k : cell) (ks : list cell) :
  exists g, In g (insert_key k ks) /\ key_eqb k g = true.
Proof.
  induction ks as [|k' ks (g & Hg & Eg)]; cbn [insert_key].
  - exists k. split; [now left | apply key_eqb_refl].
  - destruct (key_eqb k k') eqn:E; [exists k'; split; [now left | exact E] |].
    destruct (key_leb k k').
    + exists k. split; [now left | apply key_eqb_refl].
    + exists g. split; [now right | exact Eg].
Qed.

Lemma insert_key_sorted (k : cell) (ks : list cell) :
  cell_isna k = false ->
  Forall (fun g => cell_isna g = false) ks ->
  StronglySorted key_lt ks ->
  StronglySorted key_lt (insert_key k ks).
Proof.
  intros Hk Hvalid Hs. induction Hs as [|g ks Hs IH Hall]; cbn [insert_key].
  - repeat constructor.
  - apply Forall_cons in Hvalid as [Hg Hvalid]. specialize (IH Hvalid).
    destruct (key_eqb k g) eqn:E; [now constructor |].
    destruct (key_leb k g) eqn:Ekg.
    + assert (Hgk : key_leb g k = false).
      { unfold key_eqb in E. rewrite Ekg in E. exact E. }
      constructor; [now constructor |].
      constructor; [now split |].
      rewrite List.Forall_forall in Hall. apply List.Forall_forall. intros y Hy.
      destruct (Hall y Hy) as [H1 H2]. split.
      * now apply (key_leb_trans k g y).
      * destruct (key_leb y k) eqn:Eyk; [| reflexivity].
        rewrite (key_leb_trans y k g Hk Eyk Ekg) in H2. discriminate H2.
    + assert (Hgk : key_leb g k = true).
      { destruct (key_leb_total g k) as [H | H]; [exact H | congruence]. }
      constructor; [exact IH |].
      apply List.Forall_forall. intros y Hy. apply insert_key_In in Hy as [-> | Hy].
      * now split.
      * rewrite List.Forall_forall in Hall. now apply Hall.
Qed.

Lemma group_keys_sorted (keys : Series) :
  StronglySorted key_lt (group_keys keys) /\
  Forall (fun g => cell_isna g = false) (group_keys keys).
Proof.
  assert (Hvalid : Forall (fun g => cell_isna g = false) (group_keys keys)).
  { apply Forall_forall. intros g Hg. now apply list_elem_of_In, group_keys_In in Hg as [_ Hg]. }
  split; [| exact Hvalid]. unfold group_keys in *.
  induction keys as [|k keys IH]; cbn [List.filter]; [constructor |].
  cbn [List.filter] in Hvalid. destruct (cell_isna k) eqn:E; cbn [negb] in *; [now apply IH |].
  cbn [fold_right] in *.
  assert (Hv : Forall (fun g => cell_isna g = false)
                 (fold_right insert_key [] (List.filter (fun k => negb (cell_isna k)) keys))).
  { apply Forall_forall. intros g Hg. rewrite Forall_forall in Hvalid. apply Hvalid.
    apply list_elem_of_In. apply insert_key_keeps. now apply list_elem_of_In. }
  apply insert_key_sorted; [exact E | exact Hv | now apply IH].
Qed.

Lemma group_keys_represent (keys : Series) (k : cell) :
  In k keys -> cell_isna k = false ->
  exists g, In g (group_keys keys) /\ key_eqb k g = true.
Proof.
  unfold group_keys. induction keys as [|k' keys IH]; [intros [] |].
  intros [-> | Hin] Hk; cbn [List.filter].
  - rewrite Hk. cbn [negb fold_right]. apply insert_key_represents.
  - destruct (IH Hin Hk) as (g & Hg & Eg).
    destruct (cell_isna k'); cbn [negb fold_right]; [now exists g |].
    exists g. split; [now apply insert_key_keeps | exact Eg].
Qed.

Lemma filter_none {A : Type} (f : A -> bool) (xs : list A) :
  (forall x, In x xs -> f x = false) -> List.filter f xs = [].
Proof.
  induction xs as [|x xs IH]; intros H; [reflexivity |]. cbn [List.filter].
  rewrite (H x (or_introl eq_refl)). apply IH. intros y Hy. apply H. now right.
Qed.

(** A key equals at most one of the keys of a strictly sorted list. *)
Lemma sorted_one_match (k : cell) (ks : list cell) :
  cell_isna k = false ->
  StronglySorted key_lt ks ->
  (length (List.filter (key_eqb k) ks) <= 1)%nat.
Proof.
  intros Hk Hs. induction Hs as [|g ks Hs IH Hall]; [cbn; lia |].
  cbn [List.filter]. destruct (key_eqb k g) eqn:E; [| exact IH].
  assert (Hnone : List.filter (key_eqb k) ks = []).
  { apply filter_none. intros y Hy. rewrite List.Forall_forall in Hall.
    destruct (Hall y Hy) as [H1 H2]. unfold key_eqb in *.
    apply andb_true_iff in E as [Ekg Egk].
    destruct (key_leb k y) eqn:Eky; [| reflexivity]. cbn [andb].
    destruct (key_leb y k) eqn:Eyk; [| reflexivity].
    rewrite (key_leb_trans y k g Hk Eyk Ekg) in H2. discriminate H2. }
  rewrite Hnone. cbn. lia.
Qed.

End KeyOrder.

(** ** Luxury listings by group *)

Section GroupSizes.

Lemma sum_list_cons (n : nat) (ns : list nat) : sum_list (n :: ns) = (n + sum_list ns)%nat.
Proof. reflexivity. Qed.

Lemma sum_list_zero {A : Type} (xs : list A) : sum_list (map (fun _ => 0%nat) xs) = 0%nat.
Proof. induction xs as [|x xs IH]; [reflexivity |]. cbn [map]. now rewrite sum_list_cons, IH. Qed.

Lemma sum_counts_cons {A B : Type} (P : A -> B -> bool) (x : A) (xs : list A) (gs : list B) :
  sum_list (map (fun g => length (List.filter (fun y => P y g) (x :: xs))) gs) =
  (length (List.filter (P x) gs) +
   sum_list (map (fun g => length (List.filter (fun y => P y g) xs)) gs))%nat.
Proof.
  induction gs as [|g gs IH]; [reflexivity |].
  cbn [map]. rewrite !sum_list_cons, IH. cbn [List.filter].
  destruct (P x g); cbn [length]; lia.
Qed.

(** Counting the pairs of a relation by rows or by columns. *)
Lemma sum_counts_swap {A B : Type} (P : A -> B -> bool) (xs : list A) (gs : list B) :
  sum_list (map (fun g => length (List.filter (fun y => P y g) xs)) gs) =
  sum_list (map (fun x => length (List.filter (P x) gs)) xs).
Proof.
  induction xs as [|x xs IH].
  - cbn [List.filter length map]. apply sum_list_zero.
  - rewrite sum_counts_cons, IH. reflexivity.
Qed.

Lemma sum_indicator {A : Type} (f : A -> nat) (v : A -> bool) (xs : list A) :
  (forall x, In x xs -> f x = if v x then 1%nat else 0%nat) ->
  sum_list (map f xs) = length (List.filter v xs).
Proof.
  induction xs as [|x xs IH]; intros H; [reflexivity |].
  cbn [map List.filter]. rewrite sum_list_cons.
  rewrite (H x (or_introl eq_refl)), IH by (intros y Hy; apply H; now right).
  destruct (v x); reflexivity.
Qed.

(** The sizes of the groups add up to the number of rows that have a
    key. *)
Lemma group_sizes_sum (keys : Series) :
  sum_list (map (fun k => group_size k keys) (group_keys keys)) =
  length (List.filter (fun k => negb (cell_isna k)) keys).
Proof.
  unfold group_size.
  rewrite (sum_counts_swap (fun k' k => negb (cell_isna k') && key_eqb k' k) keys).
  apply sum_indicator. intros k Hk. destruct (cell_isna k) eqn:E; cbn [negb andb].
  - now rewrite filter_none.
  - destruct (group_keys_sorted keys) as [Hs _].
    pose proof (sorted_one_match k _ E Hs) as Hle.
    destruct (group_keys_represent keys k Hk E) as (g & Hg & Eg).
    assert (Hin : In g (List.filter (key_eqb k) (group_keys keys))).
    { apply filter_In. now split. }
    change (fun k0 => key_eqb k k0) with (key_eqb k).
    destruct (List.filter (key_eqb k) (group_keys keys)) as [|y [|z ys]];
      [destruct Hin | reflexivity | cbn in Hle; lia].
Qed.

Lemma group_size_positive (keys : Series) (k : cell) :
  In k (group_keys keys) -> (1 <= group_size k keys)%nat.
Proof.
  intros Hk. apply group_keys_In in Hk as [Hin Hv]. unfold group_size.
  assert (H : In k (List.filter (fun k' => negb (cell_isna k') && key_eqb k' k) keys)).
  { apply filter_In. split; [exact Hin |]. now rewrite Hv, key_eqb_refl. }
  destruct (List.filter _ keys); [destruct H | cbn; lia].
Qed.

(** The cells that a mask on the second of two columns selects from the
    first. *)
Lemma select_combine {A B : Type} (f : B -> bool) (xs : list A) (ys : list B) :
  select (map f ys) xs = map fst (List.filter (fun xy => f xy.2) (combine xs ys)).
Proof.
  revert xs. induction ys as [|y ys IH]; intros [|x xs]; try reflexivity.
  cbn [map select combine List.filter snd]. destruct (f y); cbn [map fst]; now rewrite IH.
Qed.

Lemma filter_map_swap {A B : Type} (f : B -> bool) (g : A -> B) (xs : list A) :
  List.filter f (map g xs) = map g (List.filter (fun x => f (g x)) xs).
Proof.
  induction xs as [|x xs IH]; [reflexivity |]. cbn [map List.filter].
  destruct (f (g x)); cbn [map]; now rewrite IH.
Qed.

(** The size of a group among the rows that a mask on the prices
    selects. *)
Lemma group_size_selected (f : cell -> bool) (k : cell) (b p : Series) :
  group_size k (select (map f p) b) =
  length (List.filter (fun bp => f bp.2 && (negb (cell_isna bp.1) && key_eqb bp.1 k))
            (combine b p)).
Proof.
  unfold group_size. rewrite select_combine, filter_map_swap, length_map.
  now rewrite filter_filter_and.
Qed.

(** Grouped by a column, the count lists the keys of the rows above the
    threshold in ascending order, each with the number of its rows, which
    is at least one: a listed key is the key of a row above the threshold,
    its number counts the rows above the threshold that have this key, and
    the key of every row above the threshold is listed unless it is
    missing.  A group without such a row is left out, not listed with a
    zero.  The numbers add up to the count without grouping, less the rows
    above the threshold whose key is missing. *)
Theorem count_luxury_listings_by_group (df : DataFrame) (price_threshold : float64)
    (groupby_col price_col : string) (p b : Series) :
  getitem df price_col = Ok p ->
  getitem df groupby_col = Ok b ->
  no_strings p ->
  groupby_col <> "" ->
  exists sizes,
    count_luxury_listings df price_threshold (Some groupby_col) price_col =
      Ok (CountBy sizes) /\
    StronglySorted key_lt (map fst sizes) /\
    (forall k n, In (k, n) sizes ->
       cell_isna k = false /\
       (exists c, In (k, c) (combine b p) /\ above price_threshold c = true) /\
       n = length (List.filter
                     (fun bp => above price_threshold bp.2 &&
                                (negb (cell_isna bp.1) && key_eqb bp.1 k))
                     (combine b p))) /\
    (forall k c, In (k, c) (combine b p) -> above price_threshold c = true ->
       cell_isna k = false ->
       exists k' n, In (k', n) sizes /\ key_eqb k k' = true) /\
    Forall (fun kn => (1 <= kn.2)%nat) sizes /\
    (sum_list (map snd sizes) +
     length (List.filter cell_isna (select (map (above price_threshold) p) b)) =
     length (List.filter (above price_threshold) p))%nat.
Proof.
  intros Hp Hb Hn Hg.
  set (mask := map (above price_threshold) p).
  set (keys := select mask b).
  assert (Hkeys : forall k, In k keys <->
            exists c, In (k, c) (combine b p) /\ above price_threshold c = true).
  { intros k. unfold keys, mask. rewrite select_combine, in_map_iff. split.
    - intros ([k' c] & <- & Hin). apply filter_In in Hin as [Hin Ha]. now exists c.
    - intros (c & Hin & Ha). exists (k, c). split; [reflexivity |]. now apply filter_In. }
  exists (map (fun k => (k, group_size k keys)) (group_keys keys)).
  split; [| split; [| split; [| split; [| split]]]].
  - rewrite (count_luxury_listings_numeric df _ _ _ p Hp Hn).
    assert (Ht : truthy_str (Some groupby_col) = true) by now destruct groupby_col.
    rewrite Ht. unfold groupby_size. cbn [default id]. fold mask.
    now rewrite (getitem_selected df mask groupby_col b Hb).
  - rewrite map_map. cbn [fst]. rewrite map_id. apply group_keys_sorted.
  - intros k n Hkn. apply in_map_iff in Hkn as (k' & [= -> <-] & Hk).
    apply group_keys_In in Hk as [Hin Hv].
    split; [exact Hv |]. split; [now apply Hkeys |].
    apply group_size_selected.
  - intros k c Hin Ha Hv.
    destruct (group_keys_represent keys k) as (g & Hg' & Eg); [apply Hkeys; eauto | exact Hv |].
    exists g, (group_size g keys). split; [| exact Eg].
    apply in_map_iff. now exists g.
  - apply Forall_forall. intros kn Hkn. apply list_elem_of_In, in_map_iff in Hkn as (k & <- & Hk).
    cbn [snd]. now apply group_size_positive.
  - rewrite map_map. cbn [snd]. rewrite group_sizes_sum.
    assert (Hlen : length keys = length (List.filter (above price_threshold) p)).
    { unfold keys, mask. rewrite <- (select_filter (above price_threshold) p).
      apply select_length_eq.
      rewrite (getitem_length df groupby_col b Hb).
      symmetry. now apply getitem_length with (c := price_col). }
    rewrite <- Hlen, Nat.add_comm. apply List.filter_length.
Qed.

Lemma count_luxury_listings_by_group_witness :
  exists sizes,
    count_luxury_listings luxury_sample default_price_threshold
      (Some "neighbourhood_group_cleansed") "price" = Ok (CountBy sizes) /\
    StronglySorted key_lt (map fst sizes) /\
    (forall k n, In (k, n) sizes ->
       cell_isna k = false /\
       (exists c, In (k, c) (combine (map (row_get "neighbourhood_group_cleansed")
                                        (rows luxury_sample))
                               (map (row_get "price") (rows luxury_sample))) /\
                  above default_price_threshold c = true) /\
       n = length (List.filter
                     (fun bp => above default_price_threshold bp.2 &&
                                (negb (cell_isna bp.1) && key_eqb bp.1 k))
                     (combine (map (row_get "neighbourhood_group_cleansed")
                                 (rows luxury_sample))
                        (map (row_get "price") (rows luxury_sample))))) /\
    (forall k c, In (k, c) (combine (map (row_get "neighbourhood_group_cleansed")
                                       (rows luxury_sample))
                              (map (row_get "price") (rows luxury_sample))) ->
       above default_price_threshold c = true ->
       cell_isna k = false ->
       exists k' n, In (k', n) sizes /\ key_eqb k k' = true) /\
    Forall (fun kn => (1 <= kn.2)%nat) sizes /\
    (sum_list (map snd sizes) +
     length (List.filter cell_isna
               (select (map (above default_price_threshold)
                          (map (row_get "price") (rows luxury_sample)))
                  (map (row_get "neighbourhood_group_cleansed") (rows luxury_sample)))) =
     length (List.filter (above default_price_threshold)
               (map (row_get "price") (rows luxury_sample))))%nat.
Proof.
  apply (count_luxury_listings_by_group luxury_sample default_price_threshold
           "neighbourhood_group_cleansed" "price").
  - reflexivity.
  - reflexivity.
  - reflexivity.
  - discriminate.
Defined.

End GroupSizes.


(** ** Grouped statistics, row by row *)

Section RentalStatsRows.

(** Sorting rows whose keys are in ascending order changes nothing. *)
Lemma sort_index_sorted_keys (rs : list stats_row) :
  StronglySorted key_lt (map stat_key rs) -> sort_index rs = rs.
Proof.
  induction rs as [|r rs IH]; [reflexivity |]. cbn [map]. intros H.
  apply StronglySorted_inv in H as [Hs Hall]. unfold sort_index in *. cbn [fold_right].
  rewrite (IH Hs). destruct rs as [|r' rs]; [reflexivity |].
  cbn [insert_row]. apply Forall_inv in Hall. destruct Hall as [-> _]. reflexivity.
Qed.

Lemma plain_stats_rows (keys prices : Series) :
  plain_stats keys prices = map (group_stats keys prices) (group_keys keys).
Proof.
  unfold plain_stats. apply sort_index_sorted_keys.
  rewrite map_map. cbn [group_stats stat_key]. rewrite map_id. apply group_keys_sorted.
Qed.

(** Statistics by month number, for a column of integers from 1 to 12:
    one row for each month number of the column, in ascending order, with
    the statistics of the prices of its rows and the name of the month. *)
Theorem rental_stats_by_month_number (df : DataFrame) (price_col : string)
    (keys prices : Series) :
  getitem df "month_num" = Ok keys ->
  getitem df price_col = Ok prices ->
  no_strings prices ->
  Forall int_month keys ->
  calculate_rental_stats df "month_num" price_col =
    Ok (map (fun k => with_month (Some (month_of_key k)) (group_stats keys prices k))
          (group_keys keys)) /\
  StronglySorted key_lt (group_keys keys) /\
  (forall g, In g (group_keys keys) -> In g keys) /\
  (forall k, In k keys -> exists g, In g (group_keys keys) /\ key_eqb k g = true).
Proof.
  intros Hk Hp Hn Hint. split; [| split; [| split]].
  - rewrite (calculate_rental_stats_int_months df "month_num" price_col keys prices Hk Hp Hn
               eq_refl).
    + now rewrite plain_stats_rows, map_map.
    + eapply Forall_impl; [exact Hint |]. auto.
  - apply group_keys_sorted.
  - intros g Hg. now apply group_keys_In in Hg.
  - intros k Hin. apply group_keys_represent; [exact Hin |].
    rewrite Forall_forall in Hint. apply list_elem_of_In, Hint in Hin as (z & -> & _).
    reflexivity.
Qed.

Lemma rental_stats_by_month_number_witness :
  calculate_rental_stats three_months "month_num" "price" =
    Ok (map (fun k => with_month (Some (month_of_key k))
                        (group_stats [CInt 2; CInt 1; CInt 3; CInt 1]
                           [price 150; price 120; price 90; price 80] k))
          (group_keys [CInt 2; CInt 1; CInt 3; CInt 1])) /\
  StronglySorted key_lt (group_keys [CInt 2; CInt 1; CInt 3; CInt 1]) /\
  (forall g, In g (group_keys [CInt 2; CInt 1; CInt 3; CInt 1]) ->
             In g [CInt 2; CInt 1; CInt 3; CInt 1]) /\
  (forall k, In k [CInt 2; CInt 1; CInt 3; CInt 1] ->
             exists g, In g (group_keys [CInt 2; CInt 1; CInt 3; CInt 1]) /\
                       key_eqb k g = true).
Proof.
  apply (rental_stats_by_month_number three_months "price"
           [CInt 2; CInt 1; CInt 3; CInt 1] [price 150; price 120; price 90; price 80]).
  - reflexivity.
  - reflexivity.
  - reflexivity.
  - repeat constructor; eexists; (split; [reflexivity | lia]).
Defined.

(** Statistics by a column of strings, such as the borough: one row for
    each value of the column, in ascending order, with the statistics of
    the prices of its rows and no month name; rows without a value are in
    no group. *)
Theorem rental_stats_by_text_column (df : DataFrame) (groupby_col price_col : string)
    (keys prices : Series) :
  getitem df groupby_col = Ok keys ->
  getitem df price_col = Ok prices ->
  no_strings prices ->
  groupby_col <> "month_num" ->
  Forall (fun k => is_str k = true \/ k = NaN) keys ->
  calculate_rental_stats df groupby_col price_col =
    Ok (map (group_stats keys prices) (group_keys keys)) /\
  StronglySorted key_lt (group_keys keys) /\
  (forall g, In g (group_keys keys) -> In g keys /\ is_str g = true) /\
  (forall k, In k keys -> is_str k = true ->
             exists g, In g (group_keys keys) /\ key_eqb k g = true).
Proof.
  intros Hk Hp Hn Hne Hstr. split; [| split; [| split]].
  - rewrite (calculate_rental_stats_plain df groupby_col price_col keys prices Hk Hp Hn Hne).
    now rewrite plain_stats_rows.
  - apply group_keys_sorted.
  - intros g Hg. apply group_keys_In in Hg as [Hin Hv]. split; [exact Hin |].
    rewrite Forall_forall in Hstr. apply list_elem_of_In, Hstr in Hin as [H | ->];
      [exact H | discriminate Hv].
  - intros k Hin Hs. apply group_keys_represent; [exact Hin | now destruct k].
Qed.

Lemma rental_stats_by_text_column_witness :
  calculate_rental_stats two_groups "group" "price" =
    Ok (map (group_stats [CStr "B"; CStr "A"; CStr "A"; CStr "A"]
               [price 100; price 10; price 30; price 20])
          (group_keys [CStr "B"; CStr "A"; CStr "A"; CStr "A"])) /\
  StronglySorted key_lt (group_keys [CStr "B"; CStr "A"; CStr "A"; CStr "A"]) /\
  (forall g, In g (group_keys [CStr "B"; CStr "A"; CStr "A"; CStr "A"]) ->
             In g [CStr "B"; CStr "A"; CStr "A"; CStr "A"] /\ is_str g = true) /\
  (forall k, In k [CStr "B"; CStr "A"; CStr "A"; CStr "A"] -> is_str k = true ->
             exists g, In g (group_keys [CStr "B"; CStr "A"; CStr "A"; CStr "A"]) /\
                       key_eqb k g = true).
Proof.
  apply (rental_stats_by_text_column two_groups "group" "price"
           [CStr "B"; CStr "A"; CStr "A"; CStr "A"] [price 100; price 10; price 30; price 20]).
  - reflexivity.
  - reflexivity.
  - reflexivity.
  - discriminate.
  - repeat constructor; now left.
Defined.

(** Float month numbers, on the table that the pipeline returns when one
    month was not recognised. *)
Lemma calculate_rental_stats_float_months_witness :
  calculate_rental_stats float_months "month_num" "price" = Raise ValueError.
Proof.
  apply (calculate_rental_stats_float_months float_months "month_num" "price"
           [CFloat (FFin false 5 0); NaN] [price 100; price 120]).
  - reflexivity.
  - reflexivity.
  - reflexivity.
  - reflexivity.
  - reflexivity.
  - exists (CFloat (FFin false 5 0)). split; [now left | reflexivity].
Defined.

End RentalStatsRows.


(** ** The histograms by borough *)

Section CellEquality.

Lemma xeq_refl (x : xQ) : xnan x = false -> xeq x x = true.
Proof.
  destruct x as [|b|q]; [discriminate | intros _ ..]; cbn [xeq].
  - now destruct b.
  - apply Qeq_bool_iff. reflexivity.
Qed.

Lemma xeq_sym (x y : xQ) : xeq x y = xeq y x.
Proof.
  destruct x as [|a|p], y as [|b|q]; cbn [xeq]; try reflexivity.
  - now destruct a, b.
  - destruct (Qeq_bool p q) eqn:E1, (Qeq_bool q p) eqn:E2; try reflexivity.
    + apply Qeq_bool_iff in E1. symmetry in E1. apply Qeq_bool_iff in E1. congruence.
    + apply Qeq_bool_iff in E2. symmetry in E2. apply Qeq_bool_iff in E2. congruence.
Qed.

Lemma xeq_trans (x y z : xQ) : xeq x y = true -> xeq y z = true -> xeq x z = true.
Proof.
  destruct x as [|a|p], y as [|b|q], z as [|c|r]; cbn [xeq]; try discriminate.
  - destruct a, b, c; auto.
  - rewrite !Qeq_bool_iff. intros -> ->. reflexivity.
Qed.

Lemma cell_eqb_valid (a b : cell) :
  cell_eqb a b = true -> cell_isna a = false /\ cell_isna b = false.
Proof.
  destruct a as [s | z | [| u | u i f]], b as [t | w | [| v | v j g]]; cbn; try discriminate;
    intros _; split; reflexivity.
Qed.

Lemma cell_eqb_refl (a : cell) : cell_isna a = false -> cell_eqb a a = true.
Proof.
  intros H. destruct a as [s | z | x]; cbn [cell_eqb cell_value].
  - apply String.eqb_refl.
  - now apply xeq_refl.
  - apply xeq_refl. now apply (value_not_nan (CFloat x)).
Qed.

Lemma cell_eqb_sym (a b : cell) : cell_eqb a b = cell_eqb b a.
Proof.
  destruct a as [s | z | x], b as [t | w | y]; cbn [cell_eqb cell_value];
    try reflexivity; try apply xeq_sym. apply String.eqb_sym.
Qed.

Lemma cell_eqb_trans (a b c : cell) :
  cell_eqb a b = true -> cell_eqb b c = true -> cell_eqb a c = true.
Proof.
  destruct a as [s | z | x], b as [t | w | y], c as [u | v | r]; cbn [cell_eqb cell_value];
    try discriminate; try apply xeq_trans.
  rewrite !String.eqb_eq. congruence.
Qed.

(** A value that is not missing equals exactly one of the distinct
    values of the column it stands in. *)
Lemma series_unique_one_match (s : Series) (k : cell) :
  In k s -> cell_isna k = false ->
  length (List.filter (cell_eqb k) (series_unique s)) = 1%nat.
Proof.
  intros Hin Hk. induction s as [|c s IH]; [destruct Hin |].
  cbn [series_unique List.filter]. destruct (cell_eqb k c) eqn:E.
  - cbn [length]. f_equal. apply length_zero_iff_nil, filter_none.
    intros y Hy. apply filter_In in Hy as [_ Hy].
    destruct (cell_eqb k y) eqn:Ey; [| reflexivity].
    unfold cell_same in Hy. rewrite cell_eqb_sym in E.
    rewrite (cell_eqb_trans c k y E Ey), orb_true_r in Hy. discriminate Hy.
  - destruct Hin as [-> | Hin]; [rewrite cell_eqb_refl in E by exact Hk; discriminate E |].
    rewrite <- (IH Hin). f_equal. rewrite filter_filter_and. apply filter_ext_in.
    intros y _. destruct (cell_eqb k y) eqn:Ey; [| apply andb_false_r].
    rewrite andb_true_r. unfold cell_same.
    destruct (cell_eqb_valid k y Ey) as [_ Hy]. rewrite Hy, andb_false_r. cbn [orb].
    destruct (cell_eqb c y) eqn:Ec; [| reflexivity].
    rewrite cell_eqb_sym in Ey. rewrite cell_eqb_sym in E.
    now rewrite (cell_eqb_trans c y k Ec Ey) in E.
Qed.

End CellEquality.

Section Histograms.

Lemma plt_bind_run {A B : Type} (m : Plt A) (f : A -> Plt B) (calls : list pyplot_call) :
  (m ≫= f) calls =
  match m calls with
  | (Ok a, calls') => f a calls'
  | (Raise e, calls') => (Raise e, calls')
  end.
Proof. reflexivity. Qed.

(** A loop whose body makes one call for each element. *)
Lemma plt_for_run {A : Type} (xs : list A) (body : A -> Plt unit) (f : A -> pyplot_call)
    (calls : list pyplot_call) :
  (forall x cs, In x xs -> body x cs = (Ok tt, (cs ++ [f x])%list)) ->
  plt_for xs body calls = (Ok tt, (calls ++ map f xs)%list).
Proof.
  revert calls. induction xs as [|x xs IH]; intros calls H.
  - cbn. now rewrite app_nil_r.
  - cbn [plt_for map]. rewrite plt_bind_run, (H x calls (or_introl eq_refl)).
    rewrite IH by (intros y cs Hy; apply H; now right).
    now rewrite <- app_assoc.
Qed.

Lemma histogram_trailer_run (save_path : option string) (calls : list pyplot_call) :
  (plt_call (PltXlabel "Price");;
   plt_call (PltYlabel "Count");;
   plt_call (PltTitle "Price Histograms by Neighborhood Group (Borough)");;
   plt_call PltLegend;;
   match save_path with
   | Some path => plt_call (PltSavefig path 300)
   | None => mret tt
   end;;
   plt_call PltShow) calls = (Ok tt, (calls ++ histogram_trailer save_path)%list).
Proof.
  unfold histogram_trailer.
  destruct save_path; unfold mbind, Plt_bind, plt_call, mret, Plt_ret;
    cbn [app]; now rewrite <- !app_assoc.
Qed.

(** The data of one histogram, counted among the rows. *)
Lemma histogram_length (b p : Series) (u : cell) :
  length b = length p ->
  length (series_dropna (select (series_eq b u) p)) =
  length (List.filter (fun bp : cell * cell => cell_eqb bp.1 u && negb (cell_isna bp.2))
            (combine b p)).
Proof.
  unfold series_dropna, series_eq. revert p. induction b as [|k b IH]; intros [|v p] Hlen;
    try discriminate; [reflexivity |].
  cbn [map select combine List.filter fst snd]. injection Hlen as Hlen.
  destruct (cell_eqb k u); cbn [andb List.filter];
    [destruct (negb (cell_isna v)); cbn [length] |]; now rewrite IH.
Qed.

Lemma combine_In_fst {A B : Type} (xs : list A) (ys : list B) (x : A) (y : B) :
  In (x, y) (combine xs ys) -> In x xs.
Proof. apply in_combine_l. Qed.

(** The histograms cover the rows that have a borough and a price, each
    row once. *)
Lemma histograms_cover (b p : Series) :
  length b = length p ->
  sum_list (map (fun u => length (series_dropna (select (series_eq b u) p))) (series_unique b)) =
  length (drawable b p).
Proof.
  intros Hlen.
  rewrite (map_ext _ (fun u => length (List.filter
              (fun bp : cell * cell => cell_eqb bp.1 u && negb (cell_isna bp.2)) (combine b p))))
    by (intros u; now apply histogram_length).
  rewrite (sum_counts_swap (fun (bp : cell * cell) u => cell_eqb bp.1 u && negb (cell_isna bp.2))).
  unfold drawable. apply sum_indicator. intros [k v] Hin. cbn [fst snd].
  destruct (cell_isna v) eqn:Ev; cbn [negb].
  - rewrite andb_false_r. rewrite filter_none; [reflexivity |]. intros u _. apply andb_false_r.
  - rewrite andb_true_r.
    rewrite (filter_ext _ (cell_eqb k)) by (intros u; apply andb_true_r).
    destruct (cell_isna k) eqn:Ek; cbn [negb].
    + rewrite filter_none; [reflexivity |]. intros u _.
      destruct (cell_eqb k u) eqn:E; [| reflexivity].
      apply cell_eqb_valid in E as [E _]. congruence.
    + apply series_unique_one_match; [| exact Ek]. now apply in_combine_l in Hin.
Qed.

(** The chart in closed form. *)
Lemma plot_price_histograms_by_borough_run (df : DataFrame) (borough_col price_col : string)
    (figsize : nat * nat) (bins : nat) (save_path : option string) (b p : Series) :
  getitem df borough_col = Ok b ->
  getitem df price_col = Ok p ->
  plot_price_histograms_by_borough df borough_col price_col figsize bins save_path [] =
  (Ok tt,
   ([PltFigure figsize]
    ++ map (fun u => PltHist (series_dropna (select (series_eq b u) p)) bins (1 # 2) u)
         (series_unique b)
    ++ histogram_trailer save_path)%list).
Proof.
  intros Hb Hp. unfold plot_price_histograms_by_borough.
  rewrite plt_bind_run. unfold plt_call at 1. cbn [app].
  rewrite plt_bind_run. unfold plt_eval at 1. rewrite Hb. cbn [fmap result_fmap].
  rewrite plt_bind_run.
  rewrite (plt_for_run _ _
             (fun u => PltHist (series_dropna (select (series_eq b u) p)) bins (1 # 2) u)).
  - rewrite histogram_trailer_run. now rewrite <- app_assoc.
  - intros u cs _. cbv beta. rewrite plt_bind_run. unfold plt_eval at 1.
    rewrite plt_bind_run. unfold plt_eval at 1.
    rewrite getitem_mask_Ok.
    2: { unfold series_eq. rewrite length_map. now apply getitem_length with (c := borough_col). }
    rewrite plt_bind_run. unfold plt_eval at 1.
    now rewrite (getitem_selected df _ price_col p Hp).
Qed.

(** The chart holds one histogram for each distinct value of the borough
    column, in order of first appearance, with the prices of its rows that
    are not missing.  A missing borough is one of the values, and its
    histogram is empty: every row that has a borough and a price is drawn
    in exactly one histogram, and the rows without a borough in none. *)
Theorem plot_price_histograms_by_borough_draws (df : DataFrame)
    (borough_col price_col : string) (figsize : nat * nat) (bins : nat)
    (save_path : option string) (b p : Series) :
  getitem df borough_col = Ok b ->
  getitem df price_col = Ok p ->
  exists hists : list (cell * Series),
    plot_price_histograms_by_borough df borough_col price_col figsize bins save_path [] =
      (Ok tt,
       ([PltFigure figsize]
        ++ map (fun h => PltHist h.2 bins (1 # 2) h.1) hists
        ++ histogram_trailer save_path)%list) /\
    map fst hists = series_unique b /\
    Forall (fun h => h.2 = series_dropna (select (series_eq b h.1) p)) hists /\
    Forall (fun h => cell_isna h.1 = true -> h.2 = []) hists /\
    sum_list (map (fun h => length h.2) hists) = length (drawable b p).
Proof.
  intros Hb Hp.
  exists (map (fun u => (u, series_dropna (select (series_eq b u) p))) (series_unique b)).
  split; [| split; [| split; [| split]]].
  - rewrite (plot_price_histograms_by_borough_run df _ _ figsize bins save_path b p Hb Hp).
    now rewrite map_map.
  - rewrite map_map. cbn [fst]. apply map_id.
  - apply Forall_map, Forall_forall. intros u _. reflexivity.
  - apply Forall_map, Forall_forall. intros u _. cbn [fst snd]. intros Hu.
    rewrite select_none; [reflexivity |].
    unfold series_eq. apply Forall_map, Forall_forall. intros c _.
    destruct (cell_eqb c u) eqn:E; [| reflexivity].
    apply cell_eqb_valid in E as [_ E]. congruence.
  - rewrite map_map. cbn [snd]. apply histograms_cover.
    rewrite (getitem_length df borough_col b Hb).
    symmetry. now apply getitem_length with (c := price_col).
Qed.

Lemma plot_price_histograms_by_borough_draws_witness :
  exists hists : list (cell * Series),
    plot_price_histograms_by_borough luxury_sample "neighbourhood_group_cleansed" "price"
      (10, 6)%nat 50 None [] =
      (Ok tt,
       ([PltFigure (10, 6)%nat]
        ++ map (fun h => PltHist h.2 50 (1 # 2) h.1) hists
        ++ histogram_trailer None)%list) /\
    map fst hists =
      series_unique (map (row_get "neighbourhood_group_cleansed") (rows luxury_sample)) /\
    Forall (fun h => h.2 =
              series_dropna
                (select (series_eq (map (row_get "neighbourhood_group_cleansed")
                                      (rows luxury_sample)) h.1)
                   (map (row_get "price") (rows luxury_sample)))) hists /\
    Forall (fun h => cell_isna h.1 = true -> h.2 = []) hists /\
    sum_list (map (fun h => length h.2) hists) =
      length (drawable (map (row_get "neighbourhood_group_cleansed") (rows luxury_sample))
                (map (row_get "price") (rows luxury_sample))).
Proof.
  apply (plot_price_histograms_by_borough_draws luxury_sample "neighbourhood_group_cleansed"
           "price" (10, 6)%nat 50 None).
  - reflexivity.
  - reflexivity.
Defined.

Example histograms_of_luxury_sample :
  plot_price_histograms_by_borough luxury_sample "neighbourhood_group_cleansed" "price"
    (10, 6)%nat 50 None [] =
  (Ok tt,
   [PltFigure (10, 6)%nat;
    PltHist [price 1500; price 2500] 50 (1 # 2) (CStr "Manhattan");
    PltHist [price 80] 50 (1 # 2) (CStr "Bronx");
    PltHist [] 50 (1 # 2) NaN;
    PltHist [price 1000; price 1200] 50 (1 # 2) (CStr "Brooklyn");
    PltHist [] 50 (1 # 2) (CStr "Queens");
    PltXlabel "Price"; PltYlabel "Count";
    PltTitle "Price Histograms by Neighborhood Group (Borough)"; PltLegend; PltShow]).
Proof. vm_compute. reflexivity. Qed.

(** The figure is opened before the columns are looked up: for want of
    the borough column, or of the price column in a table that has rows,
    [KeyError] is raised with an empty figure open and nothing shown.  A
    table without rows never reaches the price column, and an empty chart
    is shown. *)
Theorem plot_price_histograms_by_borough_errors (df : DataFrame)
    (borough_col price_col : string) (figsize : nat * nat) (bins : nat)
    (save_path : option string) :
  (plot_price_histograms_by_borough df borough_col price_col figsize bins save_path [] =
     (Raise KeyError, [PltFigure figsize]) <->
   borough_col ∉ columns df \/ ((price_col ∉ columns df) /\ rows df <> [])) /\
  ((plot_price_histograms_by_borough df borough_col price_col figsize bins save_path []).1 =
     Ok tt <->
   borough_col ∈ columns df /\ (price_col ∈ columns df \/ rows df = [])) /\
  (borough_col ∈ columns df -> rows df = [] ->
   plot_price_histograms_by_borough df borough_col price_col figsize bins save_path [] =
     (Ok tt, ([PltFigure figsize] ++ histogram_trailer save_path)%list)).
Proof.
  assert (Hcases :
    forall (r : result unit * list pyplot_call) (P Q : Prop),
      (r = (Raise KeyError, [PltFigure figsize]) /\ P /\ ~ Q) \/
      (r.1 = Ok tt /\ ~ P /\ Q) ->
      (r = (Raise KeyError, [PltFigure figsize]) <-> P) /\ (r.1 = Ok tt <-> Q)).
  { intros r P Q [(-> & HP & HQ) | (Hr & HP & HQ)]; repeat split; try tauto.
    - discriminate.
    - intros ->. discriminate Hr. }
  assert (Hempty : borough_col ∈ columns df -> rows df = [] ->
            plot_price_histograms_by_borough df borough_col price_col figsize bins save_path [] =
            (Ok tt, ([PltFigure figsize] ++ histogram_trailer save_path)%list)).
  { intros Hb He. unfold plot_price_histograms_by_borough.
    rewrite plt_bind_run. unfold plt_call at 1. cbn [app].
    rewrite plt_bind_run. unfold plt_eval at 1.
    rewrite (getitem_of_column df borough_col Hb), He. cbn [fmap result_fmap map series_unique].
    rewrite plt_bind_run. cbn [plt_for]. unfold mret at 1, Plt_ret at 1.
    now rewrite histogram_trailer_run. }
  enough (Hab : (plot_price_histograms_by_borough df borough_col price_col figsize bins
                   save_path [] = (Raise KeyError, [PltFigure figsize]) <->
                 borough_col ∉ columns df \/ ((price_col ∉ columns df) /\ rows df <> [])) /\
                ((plot_price_histograms_by_borough df borough_col price_col figsize bins
                    save_path []).1 = Ok tt <->
                 borough_col ∈ columns df /\ (price_col ∈ columns df \/ rows df = []))).
  { destruct Hab as [Ha Hb]. split; [exact Ha | split; [exact Hb | exact Hempty]]. }
  apply Hcases. clear Hcases.
  destruct (decide (borough_col ∈ columns df)) as [Hb | Hb].
  2: { left. split; [| tauto]. unfold plot_price_histograms_by_borough.
       rewrite plt_bind_run. unfold plt_call at 1. cbn [app].
       rewrite plt_bind_run. unfold plt_eval at 1.
       now rewrite (getitem_missing df borough_col Hb). }
  destruct (decide (price_col ∈ columns df)) as [Hp | Hp].
  { right. split; [| tauto].
    now rewrite (plot_price_histograms_by_borough_run df _ _ figsize bins save_path _ _
                   (getitem_of_column df borough_col Hb) (getitem_of_column df price_col Hp)). }
  assert (Hrows : rows df = [] \/ rows df <> []) by (destruct (rows df); [now left | now right]).
  destruct Hrows as [He | Hne].
  { right. split; [| tauto]. rewrite Hempty by assumption. reflexivity. }
  left. split; [| split; [right; split; [exact Hp | exact Hne] | tauto]].
  destruct (rows df) as [|r rs] eqn:Er; [contradiction |].
  unfold plot_price_histograms_by_borough.
  rewrite plt_bind_run. unfold plt_call at 1. cbn [app].
  rewrite plt_bind_run. unfold plt_eval at 1.
  rewrite (getitem_of_column df borough_col Hb), Er.
  cbn [fmap result_fmap map series_unique].
  rewrite plt_bind_run. cbn [plt_for]. rewrite plt_bind_run.
  rewrite plt_bind_run. unfold plt_eval at 1.
  rewrite plt_bind_run. unfold plt_eval at 1.
  rewrite getitem_mask_Ok.
  2: { unfold series_eq, df_len. rewrite Er. cbn [map length]. now rewrite !length_map. }
  rewrite plt_bind_run. unfold plt_eval at 1.
  rewrite getitem_missing; [reflexivity | exact Hp].
Qed.

End Histograms.
